(** * glc: ALSA interception layer and OpenGL playback engine

    A shallow embedding of [src/hook/alsa.c] and [src/stream/gl_play.c].

    - C integers are [Z]; where the C type wraps, the wrap-around is written
      out ([u32], [u64], [to_unsigned_long], [to_signed_long]).
    - Pointers are [Z] addresses, [0] being [NULL]; a pointer into a C string
      is the suffix of the string that starts there, [None] being [NULL].
    - Calls into collaborators that are not part of these files (libasound,
      libdl, elfhacks, audio_hook, audio_capture, Xlib, GL, util) are logged
      in a chronological trace, and what they return is read from an oracle
      record.
    - [exit(1)] ends the process: [Exit] in the [outcome] type. *)

From Stdlib Require Import String Ascii ZArith List Bool Arith Lia.
From Stdlib Require Import DecimalString.
From Stdlib Require DecimalPos DecimalN.
From Equations Require Import Equations.
From Equations.Prop Require Import Logic.
Import ListNotations.

Local Open Scope string_scope.
Local Open Scope Z_scope.

(** ** errno values and integer conversions *)

(** <errno.h> on Linux. *)
Definition EAGAIN : Z := 11.
Definition EINVAL : Z := 22.

(** unsigned int, u_int32_t *)
Definition u32 (x : Z) : Z := x mod 2 ^ 32.
(** u_int64_t *)
Definition u64 (x : Z) : Z := x mod 2 ^ 64.
(** conversion of a long to unsigned long (snd_pcm_uframes_t) *)
Definition to_unsigned_long (x : Z) : Z := x mod 2 ^ 64.
(** conversion of an unsigned long back to long (snd_pcm_sframes_t) *)
Definition to_signed_long (x : Z) : Z :=
  if x mod 2 ^ 64 <? 2 ^ 63 then x mod 2 ^ 64 else x mod 2 ^ 64 - 2 ^ 64.

(** [x & mask] as a C truth value. *)
Definition has_flag (x mask : Z) : bool := negb (Z.land x mask =? 0).

(** C truth value of an integer or a pointer. *)
Definition truthy (x : Z) : bool := negb (x =? 0).

(** ** C strings

    A [string] is the content of a NUL-terminated buffer up to, and without,
    its terminator. *)
Module CStr.

(** [strstr(haystack, needle)]: the suffix of [haystack] starting at the
    first occurrence of [needle], or [NULL]. *)
Fixpoint strstr (haystack needle : string) : option string :=
  if String.prefix needle haystack then Some haystack
  else match haystack with
       | EmptyString => None
       | String _ rest => strstr rest needle
       end.

(** The inner loop that steps [device] over every leading delimiter. *)
Fixpoint skip_delims (device : string) : string :=
  match device with
  | String ";" rest => skip_delims rest
  | _ => device
  end.

(** [isspace] in the C locale. *)
Definition isspace (c : ascii) : bool :=
  let n := nat_of_ascii c in
  (Nat.eqb n 32 || (Nat.leb 9 n && Nat.leb n 13))%bool.

Definition digit_of (c : ascii) : option Z :=
  let n := nat_of_ascii c in
  if (Nat.leb 48 n && Nat.leb n 57)%bool then Some (Z.of_nat n - 48) else None.

Fixpoint skip_space (s : string) : string :=
  match s with
  | String c rest => if isspace c then skip_space rest else s
  | EmptyString => s
  end.

(** The decimal digits at the head of [s], accumulated onto [acc], and
    what follows them. *)
Fixpoint scan_digits (s : string) (acc : Z) : Z * string :=
  match s with
  | String c rest =>
      match digit_of c with
      | Some d => scan_digits rest (10 * acc + d)
      | None => (acc, s)
      end
  | EmptyString => (acc, s)
  end.

Definition starts_with_digit (s : string) : bool :=
  match s with
  | String c _ => match digit_of c with Some _ => true | None => false end
  | EmptyString => false
  end.

(** One [%u] conversion of [sscanf]: white space is skipped, a sign is
    accepted, at least one digit is required; the value is stored in an
    unsigned int (a value that does not fit is reduced modulo 2^32).
    [None] is a matching failure. *)
Definition scan_u (s : string) : option (Z * string) :=
  let s1 := skip_space s in
  let '(neg, s2) :=
    match s1 with
    | String "-" r => (true, r)
    | String "+" r => (false, r)
    | _ => (false, s1)
    end in
  if starts_with_digit s2 then
    let '(v, rest) := scan_digits s2 0 in
    Some (u32 (if neg then - v else v), rest)
  else None.

(** [sscanf(args, ",%u,%u", &rate, &channels)]: [rate] and [channels] keep
    their previous value where the conversion is not reached. *)
Definition sscanf_rate_channels (args : string) (rate channels : Z) : Z * Z :=
  match args with
  | String "," s1 =>
      match scan_u s1 with
      | Some (r, String "," s3) =>
          match scan_u s3 with
          | Some (c, _) => (r, c)
          | None => (r, channels)
          end
      | Some (r, _) => (r, channels)
      | None => (rate, channels)
      end
  | _ => (rate, channels)
  end.

End CStr.

(** ** Heap blocks

    A block returned by [malloc] is its size and the log of the bytes stored
    through its base pointer (most recent first), at whatever offset the
    program chose, inside the block or not. *)
Module Heap.

Record block : Type := mkBlock {
  blk_size : nat;
  blk_writes : list (nat * ascii)
}.

Definition malloc (size : nat) : block := mkBlock size [].

(** [p[i] = c] *)
Definition store (b : block) (i : nat) (c : ascii) : block :=
  mkBlock (blk_size b) ((i, c) :: blk_writes b).

(** [memcpy(p + off, src, len)] *)
Fixpoint memcpy (b : block) (off : nat) (src : string) (len : nat) : block :=
  match len, src with
  | S n, String c rest => memcpy (store b off c) (S off) rest n
  | _, _ => b
  end.

(** The last byte stored at offset [i], if any. *)
Definition load (b : block) (i : nat) : option ascii :=
  match find (fun w => Nat.eqb (fst w) i) (blk_writes b) with
  | Some (_, c) => Some c
  | None => None
  end.

(** A store at offset [i] stays inside the block. *)
Definition in_bounds (b : block) (i : nat) : bool := Nat.ltb i (blk_size b).

(** Every store made so far stayed inside the block. *)
Definition all_in_bounds (b : block) : bool :=
  forallb (fun w => in_bounds b (fst w)) (blk_writes b).

(** The offsets at which a NUL byte was stored. *)
Definition terminators (b : block) : list nat :=
  map fst (filter (fun w => Ascii.eqb (snd w) zero) (blk_writes b)).

(** The C string a reader finds at the base pointer: the bytes from offset
    [from] up to the first NUL, reading at most [fuel] bytes. *)
Fixpoint read_from (b : block) (from fuel : nat) : string :=
  match fuel with
  | O => EmptyString
  | S k =>
      match load b from with
      | Some c => if Ascii.eqb c zero then EmptyString
                  else String c (read_from b (S from) k)
      | None => EmptyString
      end
  end.

Definition c_string (b : block) : string :=
  read_from b 0 (List.length (blk_writes b)).

End Heap.

(** ** src/hook/alsa.c *)
Module Alsa.

Import CStr.

(** <glc.h> *)
Definition GLC_CAPTURE : Z := 1.
(** <dlfcn.h> *)
Definition RTLD_LAZY : Z := 1.

(** [struct alsa_capture_stream_s]; [next] is the tail of the list the
    node sits in. *)
Record alsa_capture_stream_s : Type := mkStream {
  capture : Z;
  device : Heap.block;
  channels : Z;
  rate : Z
}.

(** [struct alsa_private_s]; [glc] points to the session context, whose
    flags are [glc_flags] of the [world]. *)
Record alsa_private_s : Type := mkAlsa {
  started : Z;
  capture_enabled : Z;            (* the field [capture] *)
  audio_hook : Z;
  capture_stream : list alsa_capture_stream_s;
  libasound_handle : Z;
  snd_pcm_open : Z;
  snd_pcm_writei : Z;
  snd_pcm_writen : Z;
  snd_pcm_mmap_begin : Z;
  snd_pcm_mmap_commit : Z
}.

(** The log levels of util.h the file uses. *)
Inductive log_level : Type := GLC_WARNING | GLC_DEBUG.

(** The calls the file makes into its collaborators. *)
Inductive event : Type :=
| EvGetRealDlsym
| EvDlopen (file : string) (mode : Z)
| EvDlsym (handle : Z) (symbol : string)
| EvStderr (msg : string)
| EvEhFindObj (soname : string)
| EvEhSetRel (symbol : string) (addr : Z)
| EvEhDestroyObj
| EvAudioHookInit (buffer : Z)
| EvAudioCaptureInit (buffer : Z) (dev : string) (rate channels : Z)
| EvRealWritei (fn pcm buffer size : Z)
| EvRealWriten (fn pcm bufs size : Z)
| EvRealMmapBegin (fn pcm : Z)
| EvRealMmapCommit (fn pcm offset frames : Z)
| EvHookAlsaI (hook pcm buffer frames : Z)
| EvHookAlsaN (hook pcm bufs frames : Z)
| EvHookMmapBegin (hook pcm areas offset frames : Z)
| EvHookMmapCommit (hook pcm offset frames : Z)
| EvUtilLog (level : log_level) (module format : string) (args : list Z).

(** The [lib] structure of lib.h: the raw resolver entry points. *)
Record lib_private_s : Type := mkLib {
  lib_dlopen : Z;
  lib_dlsym : Z;
  lib_dlvsym : Z
}.

(** The process state the file reads and writes: the two file-scope
    variables [alsa] and [alsa_loaded], [lib], the flags of the session
    context, and the trace of calls made so far, oldest first. *)
Record world : Type := mkWorld {
  alsa : alsa_private_s;
  alsa_loaded : Z;
  lib : lib_private_s;
  glc_flags : Z;
  trace : list event
}.

(** What the collaborators answer. *)
Record oracle : Type := mkOracle {
  raw_resolver : lib_private_s;            (* what get_real_dlsym finds *)
  dlopen_result : string -> Z;
  dlsym_result : Z -> string -> Z;
  eh_find_obj_result : string -> Z;
  audio_hook_init_result : Z;
  audio_capture_init_result : string -> Z -> Z -> Z;
  (* the genuine libasound entry points: the value each returns, and for
     snd_pcm_mmap_begin also what it stores in *areas, *offset, *frames *)
  real_writei : Z -> Z -> Z -> Z;
  real_writen : Z -> Z -> Z -> Z;
  real_mmap_begin : Z -> Z -> Z * (Z * Z * Z);
  real_mmap_commit : Z -> Z -> Z -> Z
}.

(** A computation either returns a value in a new world or ends the
    process with an exit status. *)
Inductive outcome (A : Type) : Type :=
| Done (a : A) (w : world)
| Exit (status : Z) (w : world).
Arguments Done {A} a w.
Arguments Exit {A} status w.

Definition M (A : Type) : Type := world -> outcome A.

Definition ret {A} (a : A) : M A := fun w => Done a w.

Definition bind {A B} (m : M A) (k : A -> M B) : M B :=
  fun w => match m w with
           | Done a w' => k a w'
           | Exit s w' => Exit s w'
           end.

Notation "x <- m ;; k" := (bind m (fun x => k))
  (at level 61, m at next level, right associativity).
Notation "m ;;; k" := (bind m (fun _ => k))
  (at level 61, right associativity).

Definition get : M world := fun w => Done w w.
Definition emit (e : event) : M unit :=
  fun w => Done tt (mkWorld (alsa w) (alsa_loaded w) (lib w) (glc_flags w)
                            (trace w ++ [e])).
Definition set_alsa (a : alsa_private_s) : M unit :=
  fun w => Done tt (mkWorld a (alsa_loaded w) (lib w) (glc_flags w) (trace w)).
Definition set_alsa_loaded (v : Z) : M unit :=
  fun w => Done tt (mkWorld (alsa w) v (lib w) (glc_flags w) (trace w)).
Definition set_lib (l : lib_private_s) : M unit :=
  fun w => Done tt (mkWorld (alsa w) (alsa_loaded w) l (glc_flags w) (trace w)).
Definition exit {A} (status : Z) : M A := fun w => Exit status w.

(** *** alsa_parse_capture_cfg *)

(** [rate] and [channels] of one endpoint: the defaults, overwritten by
    [sscanf] when [args] is not [NULL]. *)
Definition scan_args (args : option string) : Z * Z :=
  match args with
  | Some a => sscanf_rate_channels a 44100 1
  | None => (44100, 1)
  end.

(** [len]: a difference of two pointers into the descriptor is the
    difference of the lengths of the suffixes they start. *)
Definition device_len (device : string) (args next : option string) : nat :=
  match args, next with
  | Some a, _ => (String.length device - String.length a)%nat
  | None, Some n => (String.length device - String.length n)%nat
  | None, None => String.length device
  end.

(** The body of the loop from [channels = 1] to [stream->rate = rate]:
    the node built for the endpoint that starts at [device]. *)
Definition parse_endpoint (device : string) : alsa_capture_stream_s :=
  let args := strstr device "," in
  let '(rate, channels) := scan_args args in
  let next := strstr device ";" in
  let len := device_len device args next in
  let buf := Heap.malloc len in
  let buf := Heap.memcpy buf 0 device len in
  let buf := Heap.store buf len zero in
  mkStream 0 buf channels rate.

(** Loop variant: the number of characters from [device] to the end of the
    descriptor, [NULL] counting for nothing. *)
Definition remaining (device : option string) : nat :=
  match device with
  | Some d => S (String.length d)
  | None => O
  end.

(** The [while (device != NULL)] loop; [streams] is [alsa.capture_stream],
    to which every node is prepended. *)
#[local] Obligation Tactic := idtac.

Equations? parse_loop (device : option string)
           (streams : list alsa_capture_stream_s)
  : list alsa_capture_stream_s by wf (remaining device) lt :=
  parse_loop None streams := streams;
  parse_loop (Some d) streams with inspect (skip_delims d) := {
    | exist _ EmptyString _ := streams;
    | exist _ (String c r) Hskip :=
        parse_loop (strstr (String c r) ";")
                   (parse_endpoint (String c r) :: streams) }.
Proof.
  assert (Hle : forall h s, strstr h ";" = Some s ->
                            (String.length s <= String.length h)%nat).
  { induction h as [|a h IH]; intros s.
    - cbn. discriminate.
    - cbn [strstr]. destruct (String.prefix ";" (String a h)).
      + intros [= <-]. lia.
      + intros H. apply IH in H. cbn [String.length]. lia. }
  assert (Hskiplen : forall s a t, skip_delims s = String a t ->
             a <> ";"%char /\ (String.length (String a t) <= String.length s)%nat).
  { induction s as [|b s IH]; intros a t; [discriminate|].
    destruct (Ascii.eqb_spec b ";") as [->|Hne].
    - cbn [skip_delims]. intros H. apply IH in H.
      cbn [String.length] in *. split; [tauto | lia].
    - assert (Hb : skip_delims (String b s) = String b s).
      { destruct b as [[] [] [] [] [] [] [] []]; try reflexivity.
        congruence. }
      rewrite Hb. intros [= -> ->]. split; [assumption | lia]. }
  destruct (Hskiplen _ _ _ Hskip) as [Hc Hlen].
  destruct (strstr (String c r) ";") as [s|] eqn:Hs;
    cbn [remaining]; [|lia].
  cbn [strstr String.prefix] in Hs.
  destruct (Ascii.ascii_dec ";" c) as [Heq|_]; [congruence|].
  apply Hle in Hs. cbn [String.length] in Hlen. lia.
Qed.

(** [int alsa_parse_capture_cfg(const char *cfg)] *)
Definition alsa_parse_capture_cfg (cfg : string) : M Z :=
  w <- get ;;
  let a := alsa w in
  set_alsa (mkAlsa (started a) (capture_enabled a) (audio_hook a)
                   (parse_loop (Some cfg) (capture_stream a))
                   (libasound_handle a) (snd_pcm_open a) (snd_pcm_writei a)
                   (snd_pcm_writen a) (snd_pcm_mmap_begin a)
                   (snd_pcm_mmap_commit a)) ;;;
  ret 0.

(** The endpoint a node describes, as a reader of the node sees it. *)
Definition endpoint_of (s : alsa_capture_stream_s) : string * Z * Z :=
  (Heap.c_string (device s), rate s, channels s).

(** *** get_real_alsa *)

Definition modify_alsa (f : alsa_private_s -> alsa_private_s) : M unit :=
  w <- get ;; set_alsa (f (alsa w)).

Definition with_started (v : Z) (a : alsa_private_s) : alsa_private_s :=
  mkAlsa v (capture_enabled a) (audio_hook a) (capture_stream a)
         (libasound_handle a) (snd_pcm_open a) (snd_pcm_writei a)
         (snd_pcm_writen a) (snd_pcm_mmap_begin a) (snd_pcm_mmap_commit a).
Definition with_audio_hook (v : Z) (a : alsa_private_s) : alsa_private_s :=
  mkAlsa (started a) (capture_enabled a) v (capture_stream a)
         (libasound_handle a) (snd_pcm_open a) (snd_pcm_writei a)
         (snd_pcm_writen a) (snd_pcm_mmap_begin a) (snd_pcm_mmap_commit a).
Definition with_capture_stream (v : list alsa_capture_stream_s)
           (a : alsa_private_s) : alsa_private_s :=
  mkAlsa (started a) (capture_enabled a) (audio_hook a) v
         (libasound_handle a) (snd_pcm_open a) (snd_pcm_writei a)
         (snd_pcm_writen a) (snd_pcm_mmap_begin a) (snd_pcm_mmap_commit a).
Definition with_libasound_handle (v : Z) (a : alsa_private_s) : alsa_private_s :=
  mkAlsa (started a) (capture_enabled a) (audio_hook a) (capture_stream a)
         v (snd_pcm_open a) (snd_pcm_writei a)
         (snd_pcm_writen a) (snd_pcm_mmap_begin a) (snd_pcm_mmap_commit a).
Definition with_snd_pcm_open (v : Z) (a : alsa_private_s) : alsa_private_s :=
  mkAlsa (started a) (capture_enabled a) (audio_hook a) (capture_stream a)
         (libasound_handle a) v (snd_pcm_writei a)
         (snd_pcm_writen a) (snd_pcm_mmap_begin a) (snd_pcm_mmap_commit a).
Definition with_snd_pcm_writei (v : Z) (a : alsa_private_s) : alsa_private_s :=
  mkAlsa (started a) (capture_enabled a) (audio_hook a) (capture_stream a)
         (libasound_handle a) (snd_pcm_open a) v
         (snd_pcm_writen a) (snd_pcm_mmap_begin a) (snd_pcm_mmap_commit a).
Definition with_snd_pcm_writen (v : Z) (a : alsa_private_s) : alsa_private_s :=
  mkAlsa (started a) (capture_enabled a) (audio_hook a) (capture_stream a)
         (libasound_handle a) (snd_pcm_open a) (snd_pcm_writei a)
         v (snd_pcm_mmap_begin a) (snd_pcm_mmap_commit a).
Definition with_snd_pcm_mmap_begin (v : Z) (a : alsa_private_s) : alsa_private_s :=
  mkAlsa (started a) (capture_enabled a) (audio_hook a) (capture_stream a)
         (libasound_handle a) (snd_pcm_open a) (snd_pcm_writei a)
         (snd_pcm_writen a) v (snd_pcm_mmap_commit a).
Definition with_snd_pcm_mmap_commit (v : Z) (a : alsa_private_s) : alsa_private_s :=
  mkAlsa (started a) (capture_enabled a) (audio_hook a) (capture_stream a)
         (libasound_handle a) (snd_pcm_open a) (snd_pcm_writei a)
         (snd_pcm_writen a) (snd_pcm_mmap_begin a) v.

(** Modelled from the spec: get_real_dlsym is defined in lib.c, which is
    not among the sources.  The spec calls it the raw
    dynamic-symbol-resolution primitive that bypasses any installed
    interception: it fills [lib.dlopen], [lib.dlsym] and [lib.dlvsym]. *)
Definition get_real_dlsym (o : oracle) : M unit :=
  emit EvGetRealDlsym ;;; set_lib (raw_resolver o).

(** The label [err]. *)
Definition err {A} : M A :=
  emit (EvStderr "(glc:alsa) can't get real alsa") ;;; exit 1.

(** [lib.dlsym(alsa.libasound_handle, symbol)], stored through [store]. *)
Definition resolve (o : oracle) (symbol : string)
           (store : Z -> alsa_private_s -> alsa_private_s) : M Z :=
  w <- get ;;
  let handle := libasound_handle (alsa w) in
  emit (EvDlsym handle symbol) ;;;
  modify_alsa (store (dlsym_result o handle symbol)) ;;;
  ret (dlsym_result o handle symbol).

(** [void get_real_alsa()] *)
Definition get_real_alsa (o : oracle) : M unit :=
  w <- get ;;
  (if truthy (lib_dlopen (lib w)) then ret tt else get_real_dlsym o) ;;;
  w <- get ;;
  if truthy (alsa_loaded w) then ret tt else
  emit (EvDlopen "libasound.so" RTLD_LAZY) ;;;
  modify_alsa (with_libasound_handle (dlopen_result o "libasound.so")) ;;;
  if negb (truthy (dlopen_result o "libasound.so")) then err else
  p <- resolve o "snd_pcm_open" with_snd_pcm_open ;;
  if negb (truthy p) then err else
  p <- resolve o "snd_pcm_writei" with_snd_pcm_writei ;;
  if negb (truthy p) then err else
  p <- resolve o "snd_pcm_writen" with_snd_pcm_writen ;;
  if negb (truthy p) then err else
  p <- resolve o "snd_pcm_mmap_begin" with_snd_pcm_mmap_begin ;;
  if negb (truthy p) then err else
  p <- resolve o "snd_pcm_mmap_commit" with_snd_pcm_mmap_commit ;;
  if negb (truthy p) then err else
  set_alsa_loaded 1.

(** *** alsa_unhook_so *)

(** [int alsa_unhook_so(const char *soname)] *)
Definition alsa_unhook_so (o : oracle) (soname : string) : M Z :=
  w <- get ;;
  (if negb (truthy (alsa_loaded w)) then get_real_alsa o else ret tt) ;;;
  emit (EvEhFindObj soname) ;;;
  let r := eh_find_obj_result o soname in
  if truthy r then ret r else
  w <- get ;;
  emit (EvEhSetRel "snd_pcm_writei" (snd_pcm_writei (alsa w))) ;;;
  emit (EvEhSetRel "snd_pcm_writen" (snd_pcm_writen (alsa w))) ;;;
  emit (EvEhSetRel "snd_pcm_mmap_begin" (snd_pcm_mmap_begin (alsa w))) ;;;
  emit (EvEhSetRel "snd_pcm_mmap_commit" (snd_pcm_mmap_commit (alsa w))) ;;;
  emit (EvEhSetRel "dlsym" (lib_dlsym (lib w))) ;;;
  emit (EvEhSetRel "dlvsym" (lib_dlvsym (lib w))) ;;;
  emit EvEhDestroyObj ;;;
  ret 0.

(** *** alsa_start *)

(** The loop that starts the capture streams: every node of the list gets
    the handle [audio_capture_init] returns for it. *)
Fixpoint start_capture_streams (o : oracle) (buffer : Z)
         (streams : list alsa_capture_stream_s)
  : M (list alsa_capture_stream_s) :=
  match streams with
  | [] => ret []
  | s :: rest =>
      let dev := Heap.c_string (device s) in
      emit (EvAudioCaptureInit buffer dev (rate s) (channels s)) ;;;
      let s' := mkStream (audio_capture_init_result o dev (rate s) (channels s))
                         (device s) (channels s) (rate s) in
      rest' <- start_capture_streams o buffer rest ;;
      ret (s' :: rest')
  end.

(** [int alsa_start(ps_buffer_t *buffer)] *)
Definition alsa_start (o : oracle) (buffer : Z) : M Z :=
  w <- get ;;
  if truthy (started (alsa w)) then ret EINVAL else
  alsa_unhook_so o "*libasound.so*" ;;;
  w <- get ;;
  hook_ok <- (if truthy (capture_enabled (alsa w)) then
                emit (EvAudioHookInit buffer) ;;;
                modify_alsa (with_audio_hook (audio_hook_init_result o)) ;;;
                ret (truthy (audio_hook_init_result o))
              else ret true) ;;
  if negb hook_ok then ret EAGAIN else
  w <- get ;;
  streams <- start_capture_streams o buffer (capture_stream (alsa w)) ;;
  modify_alsa (with_capture_stream streams) ;;;
  modify_alsa (with_started 1) ;;;
  ret 0.

(** *** The intercepted entry points *)

Section Hooks.

(** The macro INIT_GLC of lib.h, which is not among the sources: the
    check that sets the session up on first use.  It is a parameter of
    every entry point. *)
Variable INIT_GLC : M unit.
Variable o : oracle.

(** [snd_pcm_sframes_t __alsa_snd_pcm_writei(pcm, buffer, size)] *)
Definition __alsa_snd_pcm_writei (pcm buffer size : Z) : M Z :=
  INIT_GLC ;;;
  w <- get ;;
  emit (EvRealWritei (snd_pcm_writei (alsa w)) pcm buffer size) ;;;
  let r := real_writei o pcm buffer size in
  w <- get ;;
  (if truthy (capture_enabled (alsa w)) && (0 <? r)
      && has_flag (glc_flags w) GLC_CAPTURE
   then emit (EvHookAlsaI (audio_hook (alsa w)) pcm buffer r)
   else ret tt) ;;;
  ret r.

(** [snd_pcm_sframes_t __alsa_snd_pcm_writen(pcm, bufs, size)] *)
Definition __alsa_snd_pcm_writen (pcm bufs size : Z) : M Z :=
  INIT_GLC ;;;
  w <- get ;;
  emit (EvRealWriten (snd_pcm_writen (alsa w)) pcm bufs size) ;;;
  let r := real_writen o pcm bufs size in
  w <- get ;;
  (if truthy (capture_enabled (alsa w)) && (0 <? r)
      && has_flag (glc_flags w) GLC_CAPTURE
   then emit (EvHookAlsaN (audio_hook (alsa w)) pcm bufs r)
   else ret tt) ;;;
  ret r.

(** [int __alsa_snd_pcm_mmap_begin(pcm, areas, offset, frames)];
    [frames_in] is [*frames] on entry, and the result carries what the
    three pointers refer to on return. *)
Definition __alsa_snd_pcm_mmap_begin (pcm frames_in : Z)
  : M (Z * (Z * Z * Z)) :=
  INIT_GLC ;;;
  w <- get ;;
  emit (EvRealMmapBegin (snd_pcm_mmap_begin (alsa w)) pcm) ;;;
  let '(r, (areas, offset, frames)) := real_mmap_begin o pcm frames_in in
  w <- get ;;
  (if truthy (capture_enabled (alsa w)) && (0 <=? r)
      && has_flag (glc_flags w) GLC_CAPTURE
   then emit (EvHookMmapBegin (audio_hook (alsa w)) pcm areas offset frames)
   else ret tt) ;;;
  ret (r, (areas, offset, frames)).

(** [snd_pcm_sframes_t __alsa_snd_pcm_mmap_commit(pcm, offset, frames)];
    the local [ret] is a [snd_pcm_uframes_t]. *)
Definition __alsa_snd_pcm_mmap_commit (pcm offset frames : Z) : M Z :=
  INIT_GLC ;;;
  w <- get ;;
  (if truthy (capture_enabled (alsa w))
      && has_flag (glc_flags w) GLC_CAPTURE
   then emit (EvHookMmapCommit (audio_hook (alsa w)) pcm offset frames)
   else ret tt) ;;;
  w <- get ;;
  emit (EvRealMmapCommit (snd_pcm_mmap_commit (alsa w)) pcm offset frames) ;;;
  let r := to_unsigned_long (real_mmap_commit o pcm offset frames) in
  (if negb (r =? frames)
   then emit (EvUtilLog GLC_WARNING "alsa" "frames=%lu, ret=%ld" [frames; r])
   else ret tt) ;;;
  ret (to_signed_long r).

(** The four intercepted entry points with their arguments. *)
Inductive hooked_call : Type :=
| Writei (pcm buffer size : Z)
| Writen (pcm bufs size : Z)
| MmapBegin (pcm frames_in : Z)
| MmapCommit (pcm offset frames : Z).

(** The value the host gets back from a call. *)
Definition call_hooked (c : hooked_call) : M Z :=
  match c with
  | Writei pcm buffer size => __alsa_snd_pcm_writei pcm buffer size
  | Writen pcm bufs size => __alsa_snd_pcm_writen pcm bufs size
  | MmapBegin pcm frames_in =>
      r <- __alsa_snd_pcm_mmap_begin pcm frames_in ;; ret (fst r)
  | MmapCommit pcm offset frames =>
      __alsa_snd_pcm_mmap_commit pcm offset frames
  end.

(** The value the genuine function returns for the same call. *)
Definition real_return (c : hooked_call) : Z :=
  match c with
  | Writei pcm buffer size => real_writei o pcm buffer size
  | Writen pcm bufs size => real_writen o pcm bufs size
  | MmapBegin pcm frames_in => fst (real_mmap_begin o pcm frames_in)
  | MmapCommit pcm offset frames => real_mmap_commit o pcm offset frames
  end.

End Hooks.

Definition is_emission (e : event) : bool :=
  match e with
  | EvHookAlsaI _ _ _ _ | EvHookAlsaN _ _ _ _
  | EvHookMmapBegin _ _ _ _ _ | EvHookMmapCommit _ _ _ _ => true
  | _ => false
  end.

Definition is_real_call (e : event) : bool :=
  match e with
  | EvRealWritei _ _ _ _ | EvRealWriten _ _ _ _
  | EvRealMmapBegin _ _ | EvRealMmapCommit _ _ _ _ => true
  | _ => false
  end.

Definition is_lookup (e : event) : bool :=
  match e with
  | EvDlopen _ _ | EvDlsym _ _ => true
  | _ => false
  end.

Definition is_dlopen (e : event) : bool :=
  match e with EvDlopen _ _ => true | _ => false end.

Definition is_dlsym_of (symbol : string) (e : event) : bool :=
  match e with EvDlsym _ s => String.eqb s symbol | _ => false end.

Definition is_rebind (e : event) : bool :=
  match e with EvEhSetRel _ _ => true | _ => false end.

Definition count (p : event -> bool) (t : list event) : nat :=
  List.length (filter p t).

(** [n] calls of [get_real_alsa] one after the other. *)
Fixpoint get_real_alsa_times (o : oracle) (n : nat) : M unit :=
  match n with
  | O => ret tt
  | S k => get_real_alsa o ;;; get_real_alsa_times o k
  end.

(** The symbols [get_real_alsa] needs from libasound. *)
Definition libasound_symbols : list string :=
  ["snd_pcm_open"; "snd_pcm_writei"; "snd_pcm_writen";
   "snd_pcm_mmap_begin"; "snd_pcm_mmap_commit"].

(** The genuine library and every symbol needed from it can be found. *)
Definition resolves (o : oracle) : bool :=
  truthy (dlopen_result o "libasound.so")
  && forallb (fun s => truthy (dlsym_result o (dlopen_result o "libasound.so") s))
             libasound_symbols.

(** The world a computation ends in, whether it returns or exits. *)
Definition final {A} (r : outcome A) : world :=
  match r with
  | Done _ w => w
  | Exit _ w => w
  end.

(** The lookups made so far. *)
Definition lookups (w : world) : list event := filter is_lookup (trace w).

(** The rebinds made so far. *)
Definition rebinds (w : world) : list event := filter is_rebind (trace w).

(** The six rebinds [alsa_unhook_so] asks for in world [w]. *)
Definition rebinds_of (w : world) : list event :=
  [EvEhSetRel "snd_pcm_writei" (snd_pcm_writei (alsa w));
   EvEhSetRel "snd_pcm_writen" (snd_pcm_writen (alsa w));
   EvEhSetRel "snd_pcm_mmap_begin" (snd_pcm_mmap_begin (alsa w));
   EvEhSetRel "snd_pcm_mmap_commit" (snd_pcm_mmap_commit (alsa w));
   EvEhSetRel "dlsym" (lib_dlsym (lib w));
   EvEhSetRel "dlvsym" (lib_dlvsym (lib w))].

(** Collaborators for the examples: [dlopen] answers [handle], every
    symbol of a library that was opened is found, [eh_find_obj] answers
    [found], the genuine write calls take all the frames they are given,
    and the genuine commit answers [committed]. *)
Definition sample_oracle (handle found committed : Z) : oracle :=
  mkOracle (mkLib 11 12 13)
           (fun _ => handle)
           (fun h s => if h =? 0 then 0 else 100 + Z.of_nat (String.length s))
           (fun _ => found)
           900
           (fun _ _ _ => 901)
           (fun _ _ size => size)
           (fun _ _ size => size)
           (fun _ frames => (0, (700, 0, frames)))
           (fun _ _ _ => committed).

(** A process in which nothing has run yet. *)
Definition alsa0 : alsa_private_s := mkAlsa 0 0 0 [] 0 0 0 0 0 0.
Definition world0 : world := mkWorld alsa0 0 (mkLib 0 0 0) 0 [].

End Alsa.

(** ** src/stream/gl_play.c *)
Module GlPlay.

(** <glc.h> *)
Definition GLC_CANCEL : Z := 2.
Definition GLC_MESSAGE_PICTURE : Z := 2.
Definition GLC_MESSAGE_CTX : Z := 3.
Definition GLC_CTX_CREATE : Z := 1.
Definition GLC_CTX_UPDATE : Z := 2.
Definition GLC_CTX_BGR : Z := 4.
(** <X11/keysymdef.h> *)
Definition XK_Right : Z := 0xff53.
Definition XK_Escape : Z := 0xff1b.

(** conversion of an unsigned int to int ([GLsizei]) *)
Definition to_int (x : Z) : Z :=
  if x mod 2 ^ 32 <? 2 ^ 31 then x mod 2 ^ 32 else x mod 2 ^ 32 - 2 ^ 32.

(** [glc_ctx_message_t] *)
Record glc_ctx_message_t : Type := mkCtxMsg {
  msg_flags : Z;
  msg_ctx : Z;
  msg_w : Z;
  msg_h : Z
}.

(** [glc_picture_header_t] *)
Record glc_picture_header_t : Type := mkPicHdr {
  timestamp : Z;
  pic_ctx : Z
}.

(** A message as the callback receives it: [state->header.type] with
    [state->read_data] seen through the structure that type stands for.
    [pixels] is the address [&state->read_data[GLC_PICTURE_HEADER_SIZE]]. *)
Inductive message : Type :=
| MsgCtx (m : glc_ctx_message_t)
| MsgPicture (hdr : glc_picture_header_t) (pixels : Z)
| MsgOther (type : Z).

Definition header_type (m : message) : Z :=
  match m with
  | MsgCtx _ => GLC_MESSAGE_CTX
  | MsgPicture _ _ => GLC_MESSAGE_PICTURE
  | MsgOther t => t
  end.

(** [struct gl_play_private_s], without the pointers to the session
    context, the display, the thread and the semaphore. *)
Record gl_play_private_s : Type := mkGlPlay {
  ctx_i : Z;
  format : Z;
  w : Z;
  h : Z;
  last : Z;
  fps : Z;
  drawable : Z;
  ctx : Z;
  name : string;
  created : Z;
  texture : Z;
  delete_atom : Z;
  wm_proto_atom : Z;
  cancel : Z
}.

(** The X events the callback tells apart; a key event carries the keysym
    [XLookupKeysym] finds for it. *)
Inductive XEvent : Type :=
| KeyPress (keysym : Z)
| KeyRelease (keysym : Z)
| DestroyNotify
| ClientMessage (message_type data0 : Z)
| ConfigureNotify (width height : Z)
| OtherEvent.

(** The calls the file makes into Xlib, GL, libc and util. *)
Inductive event : Type :=
| EvTimediff (diff : Z)
| EvTimestamp
| EvUsleep (usec : Z)
| EvStderr (msg : string)
| EvDrawPicture (texture w h pixels : Z)
| EvSwapBuffers (drawable : Z)
| EvChooseVisual
| EvCreateColormap
| EvCreateWindow (w h : Z)
| EvCreateContext
| EvXFree
| EvInternAtom (atom : string)
| EvSetWMProtocols (drawable atom : Z)
| EvUnmapWindow (drawable : Z)
| EvSetHints (drawable w h : Z) (name : string)
| EvResizeWindow (drawable w h : Z)
| EvMapWindow (drawable : Z)
| EvMakeCurrent (drawable ctx : Z)
| EvViewport (w h : Z)
| EvGenTextures.

Definition is_render (e : event) : bool :=
  match e with EvDrawPicture _ _ _ _ => true | _ => false end.

Definition is_swap (e : event) : bool :=
  match e with EvSwapBuffers _ => true | _ => false end.

Definition is_diagnostic (e : event) : bool :=
  match e with EvStderr _ => true | _ => false end.

(** What the worker owns while the callback runs: the engine, the flags of
    the session context, [state->flags], and the trace of calls made so
    far, oldest first. *)
Record world : Type := mkWorld {
  gl_play : gl_play_private_s;
  glc_flags : Z;
  state_flags : Z;
  trace : list event
}.

(** What the collaborators answer during one run of the callback. *)
Record oracle : Type := mkOracle {
  pending : list XEvent;           (* the queue XPending/XNextEvent drain *)
  XCreateWindow_result : Z;
  glXCreateContext_result : Z;
  delete_atom_id : Z;
  wm_proto_atom_id : Z;
  glGenTextures_result : Z;
  util_timestamp_result : Z
}.

Definition M (A : Type) : Type := world -> A * world.

Definition ret {A} (a : A) : M A := fun s => (a, s).
Definition bind {A B} (m : M A) (k : A -> M B) : M B :=
  fun s => let '(a, s') := m s in k a s'.

Notation "x <- m ;; k" := (bind m (fun x => k))
  (at level 61, m at next level, right associativity).
Notation "m ;;; k" := (bind m (fun _ => k))
  (at level 61, right associativity).

Definition get : M world := fun s => (s, s).
Definition emit (e : event) : M unit :=
  fun s => (tt, mkWorld (gl_play s) (glc_flags s) (state_flags s)
                        (trace s ++ [e])).
Definition modify (f : gl_play_private_s -> gl_play_private_s) : M unit :=
  fun s => (tt, mkWorld (f (gl_play s)) (glc_flags s) (state_flags s)
                        (trace s)).
Definition or_glc_flags (mask : Z) : M unit :=
  fun s => (tt, mkWorld (gl_play s) (Z.lor (glc_flags s) mask)
                        (state_flags s) (trace s)).
Definition or_state_flags (mask : Z) : M unit :=
  fun s => (tt, mkWorld (gl_play s) (glc_flags s)
                        (Z.lor (state_flags s) mask) (trace s)).

Definition with_size (w' h' : Z) (g : gl_play_private_s) : gl_play_private_s :=
  mkGlPlay (ctx_i g) (format g) w' h' (last g) (fps g) (drawable g) (ctx g)
           (name g) (created g) (texture g) (delete_atom g)
           (wm_proto_atom g) (cancel g).
Definition with_drawable (v : Z) (g : gl_play_private_s) : gl_play_private_s :=
  mkGlPlay (ctx_i g) (format g) (w g) (h g) (last g) (fps g) v (ctx g)
           (name g) (created g) (texture g) (delete_atom g)
           (wm_proto_atom g) (cancel g).
Definition with_ctx (v : Z) (g : gl_play_private_s) : gl_play_private_s :=
  mkGlPlay (ctx_i g) (format g) (w g) (h g) (last g) (fps g) (drawable g) v
           (name g) (created g) (texture g) (delete_atom g)
           (wm_proto_atom g) (cancel g).
Definition with_name (v : string) (g : gl_play_private_s) : gl_play_private_s :=
  mkGlPlay (ctx_i g) (format g) (w g) (h g) (last g) (fps g) (drawable g)
           (ctx g) v (created g) (texture g) (delete_atom g)
           (wm_proto_atom g) (cancel g).
Definition with_created (v : Z) (g : gl_play_private_s) : gl_play_private_s :=
  mkGlPlay (ctx_i g) (format g) (w g) (h g) (last g) (fps g) (drawable g)
           (ctx g) (name g) v (texture g) (delete_atom g)
           (wm_proto_atom g) (cancel g).
Definition with_texture (v : Z) (g : gl_play_private_s) : gl_play_private_s :=
  mkGlPlay (ctx_i g) (format g) (w g) (h g) (last g) (fps g) (drawable g)
           (ctx g) (name g) (created g) v (delete_atom g)
           (wm_proto_atom g) (cancel g).
Definition with_atoms (d p : Z) (g : gl_play_private_s) : gl_play_private_s :=
  mkGlPlay (ctx_i g) (format g) (w g) (h g) (last g) (fps g) (drawable g)
           (ctx g) (name g) (created g) (texture g) d p (cancel g).

(** What [gl_play_init] leaves in the structure: [memset] to zero, then
    [ctx_i]. *)
Definition gl_play_init_state (ctx : Z) : gl_play_private_s :=
  mkGlPlay ctx 0 0 0 0 0 0 0 "" 0 0 0 0 0.

(** The decimal text [%d] prints. *)
Definition decimal (z : Z) : string := NilZero.string_of_int (Z.to_int z).

Definition newline : string := String (ascii_of_nat 10) EmptyString.

(** [int gl_play_draw_picture(gl_play, from)]; [glTexImage2D] takes the
    width and the height as [GLsizei], to which the unsigned fields are
    converted. *)
Definition gl_play_draw_picture (from : Z) : M Z :=
  s <- get ;;
  let g := gl_play s in
  emit (EvDrawPicture (texture g) (to_int (w g)) (to_int (h g)) from) ;;;
  ret 0.

(** [int gl_play_update_viewport(gl_play, w, h)] *)
Definition gl_play_update_viewport (o : oracle) (w' h' : Z) : M Z :=
  emit (EvViewport (to_int w') (to_int h')) ;;;
  s <- get ;;
  (if negb (truthy (texture (gl_play s))) then
     emit EvGenTextures ;;;
     modify (with_texture (glGenTextures_result o))
   else ret tt) ;;;
  ret 0.

(** [int gl_play_update_ctx(gl_play)]; the members of [XSizeHints] are
    [int], to which the unsigned width and height are converted. *)
Definition gl_play_update_ctx (o : oracle) : M Z :=
  s <- get ;;
  if negb (truthy (created (gl_play s))) then ret EINVAL else
  modify (with_name ("glc-play (ctx " ++ decimal (ctx_i (gl_play s)) ++ ")")) ;;;
  s <- get ;;
  let g := gl_play s in
  emit (EvUnmapWindow (drawable g)) ;;;
  emit (EvSetHints (drawable g) (to_int (w g)) (to_int (h g)) (name g)) ;;;
  emit (EvResizeWindow (drawable g) (w g) (h g)) ;;;
  emit (EvMapWindow (drawable g)) ;;;
  emit (EvMakeCurrent (drawable g) (ctx g)) ;;;
  gl_play_update_viewport o (w g) (h g).

(** [int gl_play_create_ctx(gl_play)]; the visual [glXChooseVisual]
    returns is used without a check and is taken to exist. *)
Definition gl_play_create_ctx (o : oracle) : M Z :=
  s <- get ;;
  emit EvChooseVisual ;;;
  emit EvCreateColormap ;;;
  emit (EvCreateWindow (w (gl_play s)) (h (gl_play s))) ;;;
  modify (with_drawable (XCreateWindow_result o)) ;;;
  emit EvCreateContext ;;;
  modify (with_ctx (glXCreateContext_result o)) ;;;
  if negb (truthy (glXCreateContext_result o)) then ret EAGAIN else
  modify (with_created 1) ;;;
  emit EvXFree ;;;
  emit (EvInternAtom "WM_DELETE_WINDOW") ;;;
  emit (EvInternAtom "WM_PROTOCOLS") ;;;
  modify (with_atoms (delete_atom_id o) (wm_proto_atom_id o)) ;;;
  emit (EvSetWMProtocols (XCreateWindow_result o) (delete_atom_id o)) ;;;
  gl_play_update_ctx o.

Section Callback.

(** [GLC_THREAD_STOP] of thread.h, which is not among the sources. *)
Variable GLC_THREAD_STOP : Z.

(** One turn of the [switch] in [gl_handle_xevents]. *)
Definition handle_xevent (o : oracle) (e : XEvent) : M unit :=
  match e with
  | KeyPress code =>
      if code =? XK_Right then emit (EvTimediff (-100000)) else ret tt
  | KeyRelease code =>
      if code =? XK_Escape then or_glc_flags GLC_CANCEL else ret tt
  | DestroyNotify => or_state_flags GLC_THREAD_STOP
  | ClientMessage message_type data0 =>
      s <- get ;;
      if (message_type =? wm_proto_atom (gl_play s))
         && (data0 =? delete_atom (gl_play s))
      then or_state_flags GLC_THREAD_STOP else ret tt
  | ConfigureNotify width height =>
      gl_play_update_viewport o (u32 width) (u32 height) ;;; ret tt
  | OtherEvent => ret tt
  end.

Fixpoint drain (o : oracle) (events : list XEvent) : M unit :=
  match events with
  | [] => ret tt
  | e :: rest => handle_xevent o e ;;; drain o rest
  end.

(** [int gl_handle_xevents(gl_play, state)] *)
Definition gl_handle_xevents (o : oracle) : M Z :=
  drain o (pending o) ;;; ret 0.

(** [int gl_play_read_callback(glc_thread_state_t *state)]; the time to
    sleep is a difference of [glc_utime_t], which [usleep] receives through
    its parameter of type [useconds_t], an unsigned int. *)
Definition gl_play_read_callback (o : oracle) (msg : message) : M Z :=
  gl_handle_xevents o ;;;
  s <- get ;;
  if has_flag (state_flags s) GLC_THREAD_STOP then ret 0 else
  match msg with
  | MsgCtx ctx_msg =>
      if negb (msg_ctx ctx_msg =? ctx_i (gl_play s)) then ret 0 else
      modify (with_size (msg_w ctx_msg) (msg_h ctx_msg)) ;;;
      if has_flag (msg_flags ctx_msg) GLC_CTX_BGR
         && has_flag (msg_flags ctx_msg) GLC_CTX_CREATE
      then gl_play_create_ctx o ;;; ret 0
      else if has_flag (msg_flags ctx_msg) GLC_CTX_BGR
              && has_flag (msg_flags ctx_msg) GLC_CTX_UPDATE
      then
        r <- gl_play_update_ctx o ;;
        if truthy r then
          emit (EvStderr ("broken ctx " ++ decimal (msg_ctx ctx_msg)
                                        ++ newline)) ;;;
          ret EINVAL
        else ret 0
      else
        emit (EvStderr ("ctx " ++ decimal (msg_ctx ctx_msg)
                               ++ " is in unsupported format" ++ newline)) ;;;
        ret EINVAL
  | MsgPicture pic_hdr pixels =>
      if negb (pic_ctx pic_hdr =? ctx_i (gl_play s)) then ret 0 else
      if negb (truthy (created (gl_play s))) then
        emit (EvStderr ("picture refers to uninitalized ctx "
                          ++ decimal (pic_ctx pic_hdr) ++ newline)) ;;;
        ret EINVAL
      else
      gl_play_draw_picture pixels ;;;
      emit EvTimestamp ;;;
      let time := util_timestamp_result o in
      if timestamp pic_hdr >? time then
        emit (EvUsleep (u32 (u64 (timestamp pic_hdr - time)))) ;;;
        emit (EvSwapBuffers (drawable (gl_play s))) ;;;
        ret 0
      else if time >? u64 (timestamp pic_hdr + fps (gl_play s)) then
        ret 0
      else
        emit (EvSwapBuffers (drawable (gl_play s))) ;;;
        ret 0
  | MsgOther _ => ret 0
  end.

(** The world the callback is in once the pending X events are
    handled. *)
Definition drained (o : oracle) (s : world) : world :=
  snd (gl_handle_xevents o s).

(** The worker has been told to stop. *)
Definition stopped (s : world) : bool :=
  has_flag (state_flags s) GLC_THREAD_STOP.

End Callback.

(** The calls handling X events can make. *)
Definition is_housekeeping (e : event) : bool :=
  match e with
  | EvTimediff _ | EvViewport _ _ | EvGenTextures => true
  | _ => false
  end.

(** An engine as [gl_play_init] leaves it, in a session without flags. *)
Definition world_init (ctx : Z) : world :=
  mkWorld (gl_play_init_state ctx) 0 0 [].

(** An engine for context [ctx] whose 640x480 surface exists. *)
Definition world_active (ctx : Z) : world :=
  mkWorld (mkGlPlay ctx 0 640 480 0 0 70 80 "glc-play" 1 5 31 32 0) 0 0 [].

(** Collaborators for the examples: no X event pending, context creation
    answers [glx_ctx], and the playback clock reads [time]. *)
Definition sample_oracle (glx_ctx time : Z) : oracle :=
  mkOracle [] 70 glx_ctx 31 32 5 time.

End GlPlay.

(** * Properties of the ALSA layer *)
Module AlsaFacts.

Import CStr Alsa.

(** ** The capture descriptor *)

(** The empty descriptor yields no endpoint. *)
Example parse_empty : parse_loop (Some "") [] = [].
Proof. reflexivity. Qed.

(** A lone endpoint with both overrides. *)
Example parse_single :
  map endpoint_of (parse_loop (Some "hw:1,48000,2") []) = [("hw:1", 48000, 2)].
Proof. reflexivity. Qed.

(** A lone endpoint without overrides takes the defaults. *)
Example parse_defaults :
  map endpoint_of (parse_loop (Some "hw:0") []) = [("hw:0", 44100, 1)].
Proof. reflexivity. Qed.

(** The parameter marker is looked for in all that is left of the
    descriptor, not only in the current endpoint: *)
Example marker_found_past_delimiter :
  strstr "hw:0;hw:1,48000,2" "," = Some ",48000,2"
  /\ strstr "hw:0;hw:1,48000,2" ";" = Some ";hw:1,48000,2".
Proof. split; reflexivity. Qed.

(** C1. On the descriptor "hw:0;hw:1,48000,2" the parser returns 0 and
    leaves two nodes, but the node built for the first endpoint has the
    device "hw:0;hw:1" with rate 48000 and 2 channels: the overrides of the
    second endpoint are read for the first one too, and its name runs up to
    the second endpoint's parameter marker.  The list holds no node with
    device "hw:0", rate 44100 and 1 channel. *)
Theorem parse_hw0_hw1_descriptor :
  exists w',
    alsa_parse_capture_cfg "hw:0;hw:1,48000,2" world0 = Done 0 w'
    /\ map endpoint_of (capture_stream (alsa w'))
       = [("hw:1", 48000, 2); ("hw:0;hw:1", 48000, 2)]
    /\ ~ In ("hw:0", 44100, 1) (map endpoint_of (capture_stream (alsa w'))).
Proof.
  exists (mkWorld (with_capture_stream
                     (parse_loop (Some "hw:0;hw:1,48000,2") []) alsa0)
                  0 (mkLib 0 0 0) 0 []).
  split; [reflexivity|].
  assert (E : map endpoint_of (parse_loop (Some "hw:0;hw:1,48000,2") [])
              = [("hw:1", 48000, 2); ("hw:0;hw:1", 48000, 2)])
    by (vm_compute; reflexivity).
  cbn [alsa with_capture_stream capture_stream]. rewrite E.
  split; [reflexivity|].
  intros [H|[H|[]]]; discriminate H.
Qed.

(** ** The device buffer *)

Lemma memcpy_size b off src len :
  Heap.blk_size (Heap.memcpy b off src len) = Heap.blk_size b.
Proof.
  revert b off src.
  induction len as [|n IH]; intros b off [|c rest]; cbn; try reflexivity.
  now rewrite IH.
Qed.

(** The node of an endpoint: [len] bytes are requested, and the last store
    is the NUL at offset [len]. *)
Lemma parse_endpoint_terminator d :
  let b := device (parse_endpoint d) in
  exists writes,
    Heap.blk_writes b = (Heap.blk_size b, zero) :: writes.
Proof.
  unfold parse_endpoint.
  destruct (scan_args (strstr d ",")) as [r c]. cbn.
  rewrite memcpy_size. cbn. eexists. reflexivity.
Qed.

Lemma parse_loop_Forall (P : alsa_capture_stream_s -> Prop) :
  (forall d, P (parse_endpoint d)) ->
  forall device streams,
    Forall P streams -> Forall P (parse_loop device streams).
Proof.
  intros HP device streams.
  funelim (parse_loop device streams); intros Hs; try assumption.
  match goal with
  | IH : forall Q, _ -> _ -> Forall Q _ |- _ => apply IH; [exact HP|]
  end.
  constructor; [apply HP | assumption].
Qed.

(** C9. Every node the parser builds, for whatever descriptor, has a device
    buffer of exactly [len] bytes whose terminator was stored at offset
    [len]: the store is outside the block, so the name is not
    NUL-terminated within its allocation. *)
Theorem terminator_past_allocation (cfg : string) (s : alsa_capture_stream_s) :
  In s (parse_loop (Some cfg) []) ->
  In (Heap.blk_size (device s)) (Heap.terminators (device s))
  /\ Heap.in_bounds (device s) (Heap.blk_size (device s)) = false
  /\ Heap.all_in_bounds (device s) = false.
Proof.
  intros Hin.
  assert (HF : Forall (fun s => exists writes,
                 Heap.blk_writes (device s)
                 = (Heap.blk_size (device s), zero) :: writes)
                 (parse_loop (Some cfg) [])).
  { apply parse_loop_Forall; [apply parse_endpoint_terminator | constructor]. }
  rewrite Forall_forall in HF. destruct (HF s Hin) as [writes Hw].
  unfold Heap.terminators, Heap.all_in_bounds, Heap.in_bounds.
  rewrite Hw.
  cbn [map filter forallb fst snd Ascii.eqb Bool.eqb zero In].
  rewrite Nat.ltb_irrefl. cbn [andb]. auto.
Qed.

(** The endpoint "hw:0": 4 bytes requested, NUL stored at offset 4. *)
Lemma terminator_past_allocation_hw0 :
  In (parse_endpoint "hw:0") (parse_loop (Some "hw:0") [])
  /\ Heap.blk_size (device (parse_endpoint "hw:0")) = 4%nat
  /\ In 4%nat (Heap.terminators (device (parse_endpoint "hw:0")))
  /\ Heap.all_in_bounds (device (parse_endpoint "hw:0")) = false.
Proof.
  assert (Hin : In (parse_endpoint "hw:0") (parse_loop (Some "hw:0") [])).
  { left. reflexivity. }
  pose proof (terminator_past_allocation "hw:0" _ Hin) as [H1 [_ H3]].
  split; [exact Hin|]. split; [reflexivity|]. split; [exact H1 | exact H3].
Defined.

(** ** alsa_start *)

(** C6. Once capture has been started, [alsa_start] returns EINVAL and the
    world it returns is the one it was called in: no field of [alsa] has
    changed and no call has been made. *)
Theorem alsa_start_twice (o : oracle) (buffer : Z) (w : world) :
  started (alsa w) <> 0 ->
  alsa_start o buffer w = Done EINVAL w.
Proof.
  intros H. unfold alsa_start, bind, get, truthy.
  destruct (Z.eqb_spec (started (alsa w)) 0) as [E|_]; [contradiction|].
  reflexivity.
Qed.

Lemma alsa_start_twice_witness :
  alsa_start (mkOracle (mkLib 0 0 0) (fun _ => 0) (fun _ _ => 0) (fun _ => 0)
                       0 (fun _ _ _ => 0) (fun _ _ _ => 0) (fun _ _ _ => 0)
                       (fun _ _ => (0, (0, 0, 0))) (fun _ _ _ => 0))
             7 (mkWorld (with_started 1 alsa0) 1 (mkLib 0 0 0) 0 [])
  = Done EINVAL (mkWorld (with_started 1 alsa0) 1 (mkLib 0 0 0) 0 []).
Proof. apply alsa_start_twice. cbn. lia. Defined.

(** ** get_real_alsa *)

Ltac run :=
  cbv [get_real_alsa get_real_dlsym alsa_unhook_so resolve err modify_alsa
       bind ret get emit set_alsa set_alsa_loaded set_lib exit
       with_libasound_handle with_snd_pcm_open with_snd_pcm_writei
       with_snd_pcm_writen with_snd_pcm_mmap_begin with_snd_pcm_mmap_commit
       alsa alsa_loaded lib glc_flags trace final
       started capture_enabled audio_hook capture_stream libasound_handle
       snd_pcm_open snd_pcm_writei snd_pcm_writen snd_pcm_mmap_begin
       snd_pcm_mmap_commit].

Ltac split_truthy :=
  match goal with
  | |- context [truthy ?x] => destruct (truthy x) eqn:?; cbn [negb]
  end.

Ltac norm_trace :=
  unfold lookups, rebinds, count;
  cbn [trace alsa alsa_loaded lib];
  rewrite ?filter_app; cbn [filter is_lookup is_rebind is_dlopen];
  rewrite <- ?app_assoc; cbn [app].

(** Once [alsa_loaded] is set, a call looks nothing up and leaves the
    cached pointers alone. *)
Lemma get_real_alsa_loaded (o : oracle) (w : world) :
  alsa_loaded w <> 0 ->
  exists w',
    get_real_alsa o w = Done tt w'
    /\ alsa w' = alsa w /\ alsa_loaded w' = alsa_loaded w
    /\ lookups w' = lookups w /\ rebinds w' = rebinds w.
Proof.
  intros H. assert (Ht : truthy (alsa_loaded w) = true).
  { unfold truthy. destruct (Z.eqb_spec (alsa_loaded w) 0); [contradiction | reflexivity]. }
  destruct w as [a loaded l flags t]. cbn [alsa_loaded] in Ht.
  run. split_truthy; run; rewrite Ht; eexists; (split; [reflexivity|]);
    norm_trace; rewrite ?app_nil_r; auto.
Qed.

Lemma truthy_false (x : Z) : x = 0 -> truthy x = false.
Proof. intros ->. reflexivity. Qed.

Lemma truthy_true (x : Z) : x <> 0 -> truthy x = true.
Proof.
  intros H. unfold truthy. destruct (Z.eqb_spec x 0); [contradiction | reflexivity].
Qed.

Ltac count_symbol s :=
  cbn [filter is_dlsym_of List.length];
  repeat match goal with
         | |- context [String.eqb ?a s] =>
             destruct (String.eqb_spec a s);
             [subst s; cbn [filter is_dlsym_of List.length]; cbn; lia|]
         end;
  cbn [filter is_dlsym_of List.length]; lia.

(** The first call: the library is opened once, each symbol is looked up
    at most once, and the call either sets [alsa_loaded] or exits. *)
Lemma get_real_alsa_first (o : oracle) (w : world) :
  alsa_loaded w = 0 ->
  exists l,
    lookups (final (get_real_alsa o w)) = (lookups w ++ l)%list
    /\ count is_dlopen l = 1%nat
    /\ (forall s, count (is_dlsym_of s) l <= 1)%nat
    /\ rebinds (final (get_real_alsa o w)) = rebinds w
    /\ (resolves o = true ->
        exists w', get_real_alsa o w = Done tt w' /\ alsa_loaded w' = 1)
    /\ (resolves o = false ->
        exists w', get_real_alsa o w = Exit 1 w').
Proof.
  intros H. apply truthy_false in H.
  destruct w as [a loaded l flags t]. cbn [alsa_loaded] in H.
  run. split_truthy; run; rewrite H; cbn [negb].
  all: unfold resolves; cbn [forallb libasound_symbols].
  all: repeat (split_truthy; run).
  all: eexists; (split; [norm_trace; reflexivity|]).
  all: (split; [reflexivity|]).
  all: (split; [intros s; unfold count; count_symbol s|]).
  all: (split; [norm_trace; rewrite ?app_nil_r; reflexivity|]).
  all: cbn [andb]; split; intros Hr; try discriminate Hr;
    eexists; (try split); reflexivity.
Qed.

(** From [alsa_loaded] on, any number of calls look nothing up. *)
Lemma get_real_alsa_times_loaded (o : oracle) (n : nat) :
  forall w, alsa_loaded w <> 0 ->
            lookups (final (get_real_alsa_times o n w)) = lookups w.
Proof.
  induction n as [|k IH]; intros w H; [reflexivity|].
  destruct (get_real_alsa_loaded o w H) as (w' & E & _ & El & Ek & _).
  cbn [get_real_alsa_times]. unfold bind at 1. rewrite E.
  rewrite IH by congruence. exact Ek.
Qed.

(** [resolves] fails exactly when the library or one of the symbols is
    missing. *)
Lemma resolves_false_iff (o : oracle) :
  resolves o = false <->
  dlopen_result o "libasound.so" = 0
  \/ Exists (fun s => dlsym_result o (dlopen_result o "libasound.so") s = 0)
             libasound_symbols.
Proof.
  unfold resolves. rewrite andb_false_iff.
  rewrite <- not_true_iff_false with (b := forallb _ _).
  rewrite forallb_forall, <- Forall_forall.
  rewrite <- Exists_Forall_neg
    by (intros s; unfold truthy;
        destruct (Z.eqb_spec (dlsym_result o (dlopen_result o "libasound.so") s) 0);
        cbn; [right | left]; congruence).
  unfold truthy. split; intros [H|H].
  - left. destruct (Z.eqb_spec (dlopen_result o "libasound.so") 0);
      [assumption | discriminate].
  - right. eapply Exists_impl; [|exact H]. cbn. intros s Hs.
    destruct (Z.eqb_spec (dlsym_result o (dlopen_result o "libasound.so") s) 0);
      [assumption | cbn in Hs; congruence].
  - left. rewrite H. reflexivity.
  - right. eapply Exists_impl; [|exact H]. cbn. intros s Hs.
    rewrite Hs. cbn. discriminate.
Qed.

(** C7. In a process that has looked nothing up yet, however many times
    [get_real_alsa] is called the genuine library is opened at most once and
    each symbol is looked up at most once; once [alsa_loaded] is set a call
    looks nothing up and keeps the cached pointers and the flag; and the
    first call exits with status 1, instead of returning, when the library
    or one of the five symbols cannot be found, and sets [alsa_loaded]
    otherwise. *)
Theorem get_real_alsa_once_or_exit (o : oracle) (w : world) :
  (forall n, alsa_loaded w = 0 -> lookups w = [] ->
     let w' := final (get_real_alsa_times o n w) in
     (count is_dlopen (lookups w') <= 1)%nat
     /\ forall s, (count (is_dlsym_of s) (lookups w') <= 1)%nat)
  /\ (alsa_loaded w <> 0 ->
      exists w', get_real_alsa o w = Done tt w'
                 /\ lookups w' = lookups w
                 /\ alsa w' = alsa w /\ alsa_loaded w' = alsa_loaded w)
  /\ (alsa_loaded w = 0 ->
      (dlopen_result o "libasound.so" = 0
       \/ Exists (fun s => dlsym_result o (dlopen_result o "libasound.so") s = 0)
                  libasound_symbols) ->
      exists w', get_real_alsa o w = Exit 1 w')
  /\ (alsa_loaded w = 0 -> resolves o = true ->
      exists w', get_real_alsa o w = Done tt w' /\ alsa_loaded w' = 1).
Proof.
  split; [|split; [|split]].
  - intros [|k] H0 Hl; cbn zeta.
    + cbn [get_real_alsa_times ret final]. rewrite Hl. cbn. auto with arith.
    + destruct (get_real_alsa_first o w H0)
        as (l & El & Hopen & Hsym & _ & Hok & Hfail).
      rewrite Hl in El. cbn [app] in El.
      assert (E : lookups (final (get_real_alsa_times o (S k) w)) = l).
      { cbn [get_real_alsa_times]. unfold bind.
        destruct (resolves o) eqn:Hr.
        - destruct (Hok eq_refl) as (w1 & E1 & L1). rewrite E1 in *.
          cbn [final] in El.
          rewrite get_real_alsa_times_loaded by (rewrite L1; discriminate).
          exact El.
        - destruct (Hfail eq_refl) as (w1 & E1). rewrite E1 in *.
          exact El. }
      rewrite E. split; [rewrite Hopen; auto | exact Hsym].
  - intros H. destruct (get_real_alsa_loaded o w H) as (w' & E & A & L & K & _).
    exists w'. auto.
  - intros H0 Hmiss. apply resolves_false_iff in Hmiss.
    destruct (get_real_alsa_first o w H0) as (l & _ & _ & _ & _ & _ & Hfail).
    auto.
  - intros H0 Hr.
    destruct (get_real_alsa_first o w H0) as (l & _ & _ & _ & _ & Hok & _).
    auto.
Qed.

Lemma get_real_alsa_once_or_exit_witness :
  (count is_dlopen
         (lookups (final (get_real_alsa_times (sample_oracle 64 0 0) 3 world0)))
   <= 1)%nat
  /\ (exists w', get_real_alsa (sample_oracle 0 0 0) world0 = Exit 1 w')
  /\ (exists w', get_real_alsa (sample_oracle 64 0 0) world0 = Done tt w'
                 /\ alsa_loaded w' = 1).
Proof.
  split; [|split].
  - apply (get_real_alsa_once_or_exit (sample_oracle 64 0 0) world0);
      reflexivity.
  - apply (get_real_alsa_once_or_exit (sample_oracle 0 0 0) world0);
      [reflexivity | left; reflexivity].
  - apply (get_real_alsa_once_or_exit (sample_oracle 64 0 0) world0);
      reflexivity.
Defined.

(** ** alsa_unhook_so *)

(** What [alsa_unhook_so] does after it has made sure the real functions
    are there. *)
Definition unhook_found (o : oracle) (soname : string) : M Z :=
  emit (EvEhFindObj soname) ;;;
  let r := eh_find_obj_result o soname in
  if truthy r then ret r else
  w <- get ;;
  emit (EvEhSetRel "snd_pcm_writei" (snd_pcm_writei (alsa w))) ;;;
  emit (EvEhSetRel "snd_pcm_writen" (snd_pcm_writen (alsa w))) ;;;
  emit (EvEhSetRel "snd_pcm_mmap_begin" (snd_pcm_mmap_begin (alsa w))) ;;;
  emit (EvEhSetRel "snd_pcm_mmap_commit" (snd_pcm_mmap_commit (alsa w))) ;;;
  emit (EvEhSetRel "dlsym" (lib_dlsym (lib w))) ;;;
  emit (EvEhSetRel "dlvsym" (lib_dlvsym (lib w))) ;;;
  emit EvEhDestroyObj ;;;
  ret 0.

Lemma alsa_unhook_so_unfold (o : oracle) (soname : string) (w : world) :
  alsa_unhook_so o soname w
  = match (if negb (truthy (alsa_loaded w)) then get_real_alsa o else ret tt) w with
    | Done _ w1 => unhook_found o soname w1
    | Exit status w1 => Exit status w1
    end.
Proof. reflexivity. Qed.

Lemma unhook_found_result (o : oracle) (soname : string) (w : world) :
  exists w',
    unhook_found o soname w = Done (eh_find_obj_result o soname) w'
    /\ (eh_find_obj_result o soname <> 0 -> rebinds w' = rebinds w)
    /\ (eh_find_obj_result o soname = 0 ->
        rebinds w' = (rebinds w ++ rebinds_of w')%list).
Proof.
  unfold unhook_found. destruct w as [a loaded l flags t]. run. unfold truthy.
  destruct (Z.eqb_spec (eh_find_obj_result o soname) 0) as [E|E]; cbn [negb].
  - rewrite E. eexists. split; [reflexivity|].
    split; [congruence|]. intros _. norm_trace. reflexivity.
  - eexists. split; [reflexivity|].
    split; [|congruence]. intros _. norm_trace. apply app_nil_r.
Qed.

(** The claim that [alsa_unhook_so] always returns: the lookup code with
    nothing rebound, or zero after the six rebinds. *)
Definition unhook_always_returns : Prop :=
  forall (o : oracle) (soname : string) (w : world),
  exists w',
    alsa_unhook_so o soname w = Done (eh_find_obj_result o soname) w'
    /\ (eh_find_obj_result o soname <> 0 -> rebinds w' = rebinds w)
    /\ (eh_find_obj_result o soname = 0 ->
        rebinds w' = (rebinds w ++ rebinds_of w')%list).

(** C8, as stated, fails: called before the real functions have been
    resolved, in a process where libasound.so cannot be opened,
    [alsa_unhook_so] exits with status 1. *)
Lemma alsa_unhook_so_can_exit : ~ unhook_always_returns.
Proof.
  intros H.
  destruct (H (sample_oracle 0 0 0) "*libasound.so*" world0) as (w' & E & _).
  vm_compute in E. discriminate E.
Qed.

(** C8, amended. When the real functions are already resolved, or can be,
    [alsa_unhook_so] returns the code of [eh_find_obj]: non-zero with
    nothing rebound when no object matches, zero after the six rebinds when
    one does.  When they are not resolved yet and cannot be, it exits with
    status 1 and rebinds nothing. *)
Theorem alsa_unhook_so_result (o : oracle) (soname : string) (w : world) :
  (alsa_loaded w <> 0 \/ resolves o = true ->
   exists w',
     alsa_unhook_so o soname w = Done (eh_find_obj_result o soname) w'
     /\ (eh_find_obj_result o soname <> 0 -> rebinds w' = rebinds w)
     /\ (eh_find_obj_result o soname = 0 ->
         rebinds w' = (rebinds w ++ rebinds_of w')%list))
  /\ (alsa_loaded w = 0 -> resolves o = false ->
      exists w', alsa_unhook_so o soname w = Exit 1 w'
                 /\ rebinds w' = rebinds w).
Proof.
  rewrite alsa_unhook_so_unfold. split.
  - intros Hres. destruct (Z.eq_dec (alsa_loaded w) 0) as [H0|Hl].
    + destruct Hres as [Hl|Hr]; [contradiction|].
      rewrite (truthy_false _ H0). cbn [negb].
      destruct (get_real_alsa_first o w H0)
        as (l & _ & _ & _ & Hreb & Hok & _).
      destruct (Hok Hr) as (w1 & E1 & _). rewrite E1 in *. cbn [final] in Hreb.
      rewrite <- Hreb. apply unhook_found_result.
    + rewrite (truthy_true _ Hl). cbn [negb ret]. apply unhook_found_result.
  - intros H0 Hr. rewrite (truthy_false _ H0). cbn [negb].
    destruct (get_real_alsa_first o w H0)
      as (l & _ & _ & _ & Hreb & _ & Hfail).
    destruct (Hfail Hr) as (w1 & E1). rewrite E1 in *. cbn [final] in Hreb.
    exists w1. auto.
Qed.

Lemma alsa_unhook_so_result_witness :
  (exists w',
     alsa_unhook_so (sample_oracle 64 2 0) "*libasound.so*" world0 = Done 2 w'
     /\ rebinds w' = [])
  /\ (exists w',
        alsa_unhook_so (sample_oracle 64 0 0) "*libasound.so*" world0 = Done 0 w'
        /\ rebinds w' = rebinds_of w')
  /\ (exists w',
        alsa_unhook_so (sample_oracle 0 0 0) "*libasound.so*" world0 = Exit 1 w'
        /\ rebinds w' = []).
Proof.
  split; [|split].
  - destruct (alsa_unhook_so_result (sample_oracle 64 2 0) "*libasound.so*" world0)
      as [H _].
    destruct (H (or_intror eq_refl)) as (w' & E & Hn & _).
    exists w'. split; [exact E|]. apply Hn. discriminate.
  - destruct (alsa_unhook_so_result (sample_oracle 64 0 0) "*libasound.so*" world0)
      as [H _].
    destruct (H (or_intror eq_refl)) as (w' & E & _ & Hf).
    exists w'. split; [exact E|]. apply Hf. reflexivity.
  - destruct (alsa_unhook_so_result (sample_oracle 0 0 0) "*libasound.so*" world0)
      as [_ H].
    apply H; reflexivity.
Defined.

(** ** The intercepted entry points *)

Lemma long_round_trip (r : Z) :
  - 2 ^ 63 <= r < 2 ^ 63 -> to_signed_long (to_unsigned_long r) = r.
Proof.
  intros H. unfold to_signed_long, to_unsigned_long.
  rewrite Z.mod_mod by lia.
  destruct (Z.ltb_spec (r mod 2 ^ 64) (2 ^ 63)) as [L|L].
  - destruct (Z.neg_nonneg_cases r) as [N|N].
    + rewrite <- (Z.mod_add r 1) in L by lia.
      rewrite Z.mod_small in L by lia. lia.
    + apply Z.mod_small. lia.
  - destruct (Z.neg_nonneg_cases r) as [N|N].
    + rewrite <- (Z.mod_add r 1) by lia.
      rewrite Z.mod_small by lia. lia.
    + rewrite Z.mod_small in L by lia. lia.
Qed.

Lemma has_flag_true (x mask : Z) :
  has_flag x mask = true -> Z.land x mask <> 0.
Proof.
  unfold has_flag. destruct (Z.eqb_spec (Z.land x mask) 0); [discriminate | auto].
Qed.

Lemma truthy_nonzero (x : Z) : truthy x = true -> x <> 0.
Proof.
  unfold truthy. destruct (Z.eqb_spec x 0); [discriminate | auto].
Qed.

(** The claim that an emission is only ever made after the real call has
    been invoked and has succeeded, with capture enabled and the CAPTURING
    flag set, and that the host gets the real return value.  [w1] is the
    world INIT_GLC leaves, [evs] the calls made after it. *)
Definition emission_follows_success (INIT_GLC : M unit) : Prop :=
  forall (o : oracle) (c : hooked_call) (w w1 : world),
    INIT_GLC w = Done tt w1 ->
    - 2 ^ 63 <= real_return o c < 2 ^ 63 ->
    exists w2 evs,
      call_hooked INIT_GLC o c w = Done (real_return o c) w2
      /\ trace w2 = (trace w1 ++ evs)%list
      /\ forall pre e post,
          evs = (pre ++ e :: post)%list -> is_emission e = true ->
          capture_enabled (alsa w1) <> 0
          /\ Z.land (glc_flags w1) GLC_CAPTURE <> 0
          /\ 0 <= real_return o c
          /\ Exists (fun r => is_real_call r = true) pre.

(** A process that captures: capture enabled, CAPTURING set. *)
Definition capturing_world : world :=
  mkWorld (mkAlsa 1 1 900 [] 64 112 114 114 118 119) 1 (mkLib 11 12 13)
          GLC_CAPTURE [].

Ltac run_hook :=
  cbv [call_hooked __alsa_snd_pcm_writei __alsa_snd_pcm_writen
       __alsa_snd_pcm_mmap_begin __alsa_snd_pcm_mmap_commit
       bind ret get emit];
  cbn [alsa alsa_loaded lib glc_flags trace fst snd].

(** With capture enabled and CAPTURING set, [snd_pcm_mmap_commit] starts
    with its emission and calls the real function next. *)
Lemma mmap_commit_when_capturing (INIT_GLC : M unit) (o : oracle)
      (pcm offset frames : Z) (w w1 : world) :
  INIT_GLC w = Done tt w1 ->
  truthy (capture_enabled (alsa w1)) = true ->
  has_flag (glc_flags w1) GLC_CAPTURE = true ->
  exists w2 rest,
    __alsa_snd_pcm_mmap_commit INIT_GLC o pcm offset frames w
    = Done (to_signed_long
              (to_unsigned_long (real_mmap_commit o pcm offset frames))) w2
    /\ trace w2
       = (trace w1
          ++ EvHookMmapCommit (audio_hook (alsa w1)) pcm offset frames
          :: EvRealMmapCommit (snd_pcm_mmap_commit (alsa w1)) pcm offset frames
          :: rest)%list.
Proof.
  intros Hinit Hc Hf. run_hook. rewrite Hinit.
  cbn [alsa glc_flags trace]. rewrite Hc, Hf. cbn [andb alsa trace].
  destruct (to_unsigned_long (real_mmap_commit o pcm offset frames) =? frames);
    cbn [negb trace]; rewrite <- ?app_assoc; cbn [app];
    do 2 eexists; split; reflexivity.
Qed.

(** C2, as stated, fails for snd_pcm_mmap_commit, however INIT_GLC sets the
    session up, as long as it can leave a process that captures: with
    capture enabled and CAPTURING set, a commit of 64 frames that the real
    function refuses with -32 has made its emission before the real function
    was called. *)
Lemma mmap_commit_emits_before_real_call :
  ~ exists INIT_GLC : M unit,
      (exists w, INIT_GLC w = Done tt capturing_world)
      /\ emission_follows_success INIT_GLC.
Proof.
  intros (INIT_GLC & (w & Hinit) & H).
  destruct (H (sample_oracle 64 0 (-32)) (MmapCommit 5 0 64) w
              capturing_world Hinit)
    as (w2 & evs & E & Ht & Hev); [cbn; lia|].
  destruct (mmap_commit_when_capturing INIT_GLC (sample_oracle 64 0 (-32))
              5 0 64 w capturing_world Hinit eq_refl eq_refl)
    as (w2' & rest & E' & Ht').
  cbn [call_hooked] in E. rewrite E' in E.
  assert (Hw : w2' = w2) by congruence. subst w2'.
  rewrite Ht' in Ht. apply app_inv_head in Ht. subst evs.
  destruct (Hev [] _ _ eq_refl eq_refl) as (_ & _ & Hsucc & Hreal).
  cbn in Hsucc. lia.
Qed.


(** Every way of cutting a short concrete trace around one event. *)
Ltac cut_trace H pre :=
  destruct pre as [|? [|? [|? pre]]]; cbn [app] in H;
  inversion H; subst; clear H;
  try match goal with
      | E : [] = (?l ++ _ :: _)%list |- _ => destruct l; discriminate E
      end.

(** C2, amended. Once INIT_GLC has returned, every intercepted entry point
    hands the host the value the real function returned, and makes an
    emission only with capture enabled and CAPTURING set.  For
    snd_pcm_writei, snd_pcm_writen and snd_pcm_mmap_begin the emission
    comes after the real call, and only when that call succeeded.  For
    snd_pcm_mmap_commit the emission is the first thing done, before the
    real call, and it is made whenever capture is enabled and CAPTURING
    set, whatever the real call then returns. *)
Theorem hooked_call_result (INIT_GLC : M unit) (o : oracle) (c : hooked_call)
        (w w1 : world) :
  INIT_GLC w = Done tt w1 ->
  - 2 ^ 63 <= real_return o c < 2 ^ 63 ->
  exists w2 evs,
    call_hooked INIT_GLC o c w = Done (real_return o c) w2
    /\ trace w2 = (trace w1 ++ evs)%list
    /\ (forall pre e post,
          evs = (pre ++ e :: post)%list -> is_emission e = true ->
          capture_enabled (alsa w1) <> 0
          /\ Z.land (glc_flags w1) GLC_CAPTURE <> 0
          /\ match c with
             | MmapCommit _ _ _ =>
                 pre = [] /\ Exists (fun r => is_real_call r = true) post
             | _ =>
                 0 <= real_return o c
                 /\ Exists (fun r => is_real_call r = true) pre
             end)
    /\ match c with
       | MmapCommit _ _ _ =>
           capture_enabled (alsa w1) <> 0 ->
           Z.land (glc_flags w1) GLC_CAPTURE <> 0 ->
           Exists (fun e => is_emission e = true) evs
       | _ => True
       end.
Proof.
  intros Hinit Hrange. destruct c as [pcm buffer size | pcm bufs size
                                      | pcm frames_in | pcm offset frames].
  - run_hook. rewrite Hinit. cbn [real_return trace alsa glc_flags].
    destruct (truthy (capture_enabled (alsa w1))) eqn:Hc;
      destruct (0 <? real_writei o pcm buffer size) eqn:Hr;
      destruct (has_flag (glc_flags w1) GLC_CAPTURE) eqn:Hf;
      cbn [andb trace];
      rewrite <- ?app_assoc; cbn [app];
      do 2 eexists; (split; [reflexivity|]); (split; [reflexivity|]);
      (split; [|exact I]); intros pre e post H He; cut_trace H pre;
      try discriminate He.
    apply truthy_nonzero in Hc. apply has_flag_true in Hf.
    apply Z.ltb_lt in Hr. repeat split; auto; try lia.
  - run_hook. rewrite Hinit. cbn [real_return trace alsa glc_flags].
    destruct (truthy (capture_enabled (alsa w1))) eqn:Hc;
      destruct (0 <? real_writen o pcm bufs size) eqn:Hr;
      destruct (has_flag (glc_flags w1) GLC_CAPTURE) eqn:Hf;
      cbn [andb trace];
      rewrite <- ?app_assoc; cbn [app];
      do 2 eexists; (split; [reflexivity|]); (split; [reflexivity|]);
      (split; [|exact I]); intros pre e post H He; cut_trace H pre;
      try discriminate He.
    apply truthy_nonzero in Hc. apply has_flag_true in Hf.
    apply Z.ltb_lt in Hr. repeat split; auto; try lia.
  - run_hook. rewrite Hinit. cbn [real_return trace alsa glc_flags].
    destruct (real_mmap_begin o pcm frames_in) as [r [[areas offset] frames]].
    cbn [fst trace alsa glc_flags].
    destruct (truthy (capture_enabled (alsa w1))) eqn:Hc;
      destruct (0 <=? r) eqn:Hr;
      destruct (has_flag (glc_flags w1) GLC_CAPTURE) eqn:Hf;
      cbn [andb trace fst];
      rewrite <- ?app_assoc; cbn [app];
      do 2 eexists; (split; [reflexivity|]); (split; [reflexivity|]);
      (split; [|exact I]); intros pre e post H He; cut_trace H pre;
      try discriminate He.
    apply truthy_nonzero in Hc. apply has_flag_true in Hf.
    apply Z.leb_le in Hr. repeat split; auto.
  - run_hook. rewrite Hinit. cbn [real_return trace alsa glc_flags] in *.
    rewrite (long_round_trip _ Hrange).
    destruct (truthy (capture_enabled (alsa w1))) eqn:Hc;
      destruct (has_flag (glc_flags w1) GLC_CAPTURE) eqn:Hf;
      destruct (to_unsigned_long (real_mmap_commit o pcm offset frames) =? frames);
      cbn [andb negb trace alsa];
      rewrite <- ?app_assoc; cbn [app];
      do 2 eexists; (split; [reflexivity|]); (split; [reflexivity|]).
    all: split;
      [ intros pre e post H He; cut_trace H pre; try discriminate He
      | intros Hc' Hf' ].
    all: try (apply truthy_nonzero in Hc; apply has_flag_true in Hf;
              repeat split; auto; fail).
    all: try (left; reflexivity).
    all: try (unfold truthy in Hc;
              destruct (Z.eqb_spec (capture_enabled (alsa w1)) 0);
              [contradiction | discriminate Hc]).
    all: unfold has_flag in Hf;
      destruct (Z.eqb_spec (Z.land (glc_flags w1) GLC_CAPTURE) 0);
      [contradiction | discriminate Hf].
Qed.

Lemma hooked_call_result_witness :
  exists w2 evs,
    call_hooked (ret tt) (sample_oracle 64 0 64) (MmapCommit 5 0 64)
                capturing_world = Done 64 w2
    /\ trace w2 = evs
    /\ Exists (fun e => is_emission e = true) evs.
Proof.
  destruct (hooked_call_result (ret tt) (sample_oracle 64 0 64)
                               (MmapCommit 5 0 64)
                               capturing_world capturing_world eq_refl)
    as (w2 & evs & E & T & _ & Hem); [cbn; lia|].
  exists w2, evs. split; [exact E|]. split; [exact T|].
  apply Hem; cbn; discriminate.
Defined.

End AlsaFacts.

(** * Properties of the playback engine *)
Module GlPlayFacts.

Import GlPlay.

(** [s'] continues [s] with housekeeping only: the engine keeps its
    context number, geometry, window, GL context, frame interval and
    created flag, and the calls made in between are housekeeping. *)
Definition housekeeping_only (s s' : world) : Prop :=
  ctx_i (gl_play s') = ctx_i (gl_play s)
  /\ created (gl_play s') = created (gl_play s)
  /\ fps (gl_play s') = fps (gl_play s)
  /\ w (gl_play s') = w (gl_play s)
  /\ h (gl_play s') = h (gl_play s)
  /\ drawable (gl_play s') = drawable (gl_play s)
  /\ ctx (gl_play s') = ctx (gl_play s)
  /\ delete_atom (gl_play s') = delete_atom (gl_play s)
  /\ wm_proto_atom (gl_play s') = wm_proto_atom (gl_play s)
  /\ exists evs, trace s' = (trace s ++ evs)%list
                 /\ Forall (fun e => is_housekeeping e = true) evs.

Lemma housekeeping_refl s : housekeeping_only s s.
Proof.
  unfold housekeeping_only. repeat (split; [reflexivity|]).
  exists []. split; [symmetry; apply app_nil_r | constructor].
Qed.

Lemma housekeeping_trans s1 s2 s3 :
  housekeeping_only s1 s2 -> housekeeping_only s2 s3 ->
  housekeeping_only s1 s3.
Proof.
  unfold housekeeping_only.
  intros (A1 & A2 & A3 & A4 & A5 & A6 & A7 & A8 & A9 & e1 & T1 & F1)
         (B1 & B2 & B3 & B4 & B5 & B6 & B7 & B8 & B9 & e2 & T2 & F2).
  repeat (split; [congruence|]).
  exists (e1 ++ e2)%list. split.
  - rewrite T2, T1. symmetry. apply app_assoc.
  - apply Forall_app. auto.
Qed.

Ltac run :=
  cbv [gl_play_update_viewport gl_play_draw_picture handle_xevent
       bind ret get emit modify or_glc_flags or_state_flags];
  cbn [gl_play glc_flags state_flags trace fst snd].

Lemma handle_xevent_housekeeping STOP o e s :
  housekeeping_only s (snd (handle_xevent STOP o e s)).
Proof.
  assert (Hone : forall s ev, is_housekeeping ev = true ->
             exists evs, (trace s ++ [ev])%list = (trace s ++ evs)%list
                         /\ Forall (fun e => is_housekeeping e = true) evs).
  { intros s0 ev H. exists [ev]. split; [reflexivity|]. repeat constructor. exact H. }
  destruct e as [code|code| |mt d0|cw ch|]; run.
  - destruct (code =? XK_Right); cbn [snd]; [|apply housekeeping_refl].
    unfold housekeeping_only. cbn. repeat (split; [reflexivity|]).
    apply Hone. reflexivity.
  - destruct (code =? XK_Escape); cbn [snd]; [|apply housekeeping_refl].
    unfold housekeeping_only. cbn. repeat (split; [reflexivity|]).
    exists []. split; [symmetry; apply app_nil_r | constructor].
  - unfold housekeeping_only. cbn. repeat (split; [reflexivity|]).
    exists []. split; [symmetry; apply app_nil_r | constructor].
  - destruct ((mt =? wm_proto_atom (gl_play s)) && (d0 =? delete_atom (gl_play s)))%bool;
      cbn [snd]; [|apply housekeeping_refl].
    unfold housekeeping_only. cbn. repeat (split; [reflexivity|]).
    exists []. split; [symmetry; apply app_nil_r | constructor].
  - destruct (truthy (texture (gl_play s))); cbn [negb snd];
      unfold housekeeping_only; cbn; repeat (split; [reflexivity|]).
    + apply Hone. reflexivity.
    + rewrite <- app_assoc. cbn [app]. eexists. split; [reflexivity|].
      repeat constructor.
  - apply housekeeping_refl.
Qed.

Lemma drain_housekeeping STOP o events :
  forall s, housekeeping_only s (snd (drain STOP o events s)).
Proof.
  induction events as [|e rest IH]; intros s; cbn [drain].
  - apply housekeeping_refl.
  - unfold bind.
    pose proof (handle_xevent_housekeeping STOP o e s) as H1.
    destruct (handle_xevent STOP o e s) as [u s1]. cbn [snd] in H1.
    eapply housekeeping_trans; [exact H1 | apply IH].
Qed.

Lemma drained_housekeeping STOP o s :
  housekeeping_only s (drained STOP o s).
Proof.
  unfold drained, gl_handle_xevents, bind.
  pose proof (drain_housekeeping STOP o (pending o) s) as H.
  destruct (drain STOP o (pending o) s) as [u s1]. exact H.
Qed.

(** The callback, once the events are handled: what the rest of the
    function does in the world [drained]. *)
Lemma read_callback_unfold STOP o msg s :
  gl_play_read_callback STOP o msg s
  = (s' <- get ;;
     if stopped STOP s' then ret 0 else
     match msg with
     | MsgCtx ctx_msg =>
         if negb (msg_ctx ctx_msg =? ctx_i (gl_play s')) then ret 0 else
         modify (with_size (msg_w ctx_msg) (msg_h ctx_msg)) ;;;
         if has_flag (msg_flags ctx_msg) GLC_CTX_BGR
            && has_flag (msg_flags ctx_msg) GLC_CTX_CREATE
         then gl_play_create_ctx o ;;; ret 0
         else if has_flag (msg_flags ctx_msg) GLC_CTX_BGR
                 && has_flag (msg_flags ctx_msg) GLC_CTX_UPDATE
         then
           r <- gl_play_update_ctx o ;;
           if truthy r then
             emit (EvStderr ("broken ctx " ++ decimal (msg_ctx ctx_msg)
                                           ++ newline)) ;;;
             ret EINVAL
           else ret 0
         else
           emit (EvStderr ("ctx " ++ decimal (msg_ctx ctx_msg)
                                  ++ " is in unsupported format" ++ newline)) ;;;
           ret EINVAL
     | MsgPicture pic_hdr pixels =>
         if negb (pic_ctx pic_hdr =? ctx_i (gl_play s')) then ret 0 else
         if negb (truthy (created (gl_play s'))) then
           emit (EvStderr ("picture refers to uninitalized ctx "
                             ++ decimal (pic_ctx pic_hdr) ++ newline)) ;;;
           ret EINVAL
         else
         gl_play_draw_picture pixels ;;;
         emit EvTimestamp ;;;
         let time := util_timestamp_result o in
         if timestamp pic_hdr >? time then
           emit (EvUsleep (u32 (u64 (timestamp pic_hdr - time)))) ;;;
           emit (EvSwapBuffers (drawable (gl_play s'))) ;;;
           ret 0
         else if time >? u64 (timestamp pic_hdr + fps (gl_play s')) then
           ret 0
         else
           emit (EvSwapBuffers (drawable (gl_play s'))) ;;;
           ret 0
     | MsgOther _ => ret 0
     end) (drained STOP o s).
Proof.
  unfold gl_play_read_callback, drained, stopped.
  unfold bind at 1. unfold bind at 6.
  destruct (gl_handle_xevents STOP o s) as [r s1]. reflexivity.
Qed.

Lemma housekeeping_not_render e :
  is_housekeeping e = true ->
  is_render e = false /\ is_swap e = false /\ is_diagnostic e = false.
Proof. destruct e; cbn; intros H; try discriminate H; auto. Qed.

Lemma truthy_true_play (x : Z) : x <> 0 -> truthy x = true.
Proof.
  intros H. unfold truthy. destruct (Z.eqb_spec x 0); [contradiction | reflexivity].
Qed.

Lemma eqb_refl_neg (x y : Z) : x = y -> negb (x =? y) = false.
Proof. intros ->. rewrite Z.eqb_refl. reflexivity. Qed.

Lemma eqb_neq_neg (x y : Z) : x <> y -> negb (x =? y) = true.
Proof. intros H. apply Z.eqb_neq in H. rewrite H. reflexivity. Qed.

(** Steps into the callback after [read_callback_unfold]. *)
Ltac enter := unfold bind at 1; unfold get at 1; cbv beta iota.

(** Once GLC_THREAD_STOP is set, the X events handled, the callback
    returns zero without looking at the message. *)
Lemma stopped_returns_zero STOP o msg s :
  stopped STOP (drained STOP o s) = true ->
  gl_play_read_callback STOP o msg s = (0, drained STOP o s).
Proof.
  intros H. rewrite read_callback_unfold. enter. rewrite H. reflexivity.
Qed.

Lemma drained_quiet STOP o s :
  exists evs, trace (drained STOP o s) = (trace s ++ evs)%list
              /\ Forall (fun e => is_render e = false) evs
              /\ Forall (fun e => is_swap e = false) evs
              /\ Forall (fun e => is_diagnostic e = false) evs.
Proof.
  destruct (drained_housekeeping STOP o s)
    as (_ & _ & _ & _ & _ & _ & _ & _ & _ & evs & Ht & Hk).
  exists evs. split; [exact Ht|].
  repeat split; (eapply Forall_impl; [|exact Hk]); intros e H;
    apply housekeeping_not_render in H; tauto.
Qed.


(** ** PICTURE messages *)

(** The claim that a PICTURE message for another context, or for a
    context that has not been created, is ignored: the callback returns
    zero, and all that has happened is the handling of the X events. *)
Definition picture_ignored_unless_active (STOP : Z) : Prop :=
  forall (o : oracle) (s : world) (hdr : glc_picture_header_t) (pixels : Z),
    pic_ctx hdr <> ctx_i (gl_play s) \/ created (gl_play s) = 0 ->
    gl_play_read_callback STOP o (MsgPicture hdr pixels) s
    = (0, drained STOP o s).

(** C4, as stated, fails whatever the value of GLC_THREAD_STOP: an engine
    for context 1 that has seen no CREATE, with no X event pending, answers
    a PICTURE for context 1 with EINVAL. *)
Lemma picture_before_create_is_an_error :
  ~ exists STOP, picture_ignored_unless_active STOP.
Proof.
  intros (STOP & H).
  specialize (H (sample_oracle 80 1000) (world_init 1) (mkPicHdr 500 1) 0
                (or_intror eq_refl)).
  apply (f_equal fst) in H. cbn in H. discriminate H.
Qed.

(** C4, amended. A PICTURE message for a context the engine does not own
    is ignored: the callback returns zero and nothing has happened but the
    handling of the X events.  A PICTURE message for the engine's own
    context, when that context has not been created, is answered in one of
    two ways.  When GLC_THREAD_STOP is not set once the X events are
    handled, the callback returns EINVAL after one line on stderr: nothing
    is rendered and the engine is left as it was.  When it is set, the
    callback returns zero without looking at the message: nothing is
    printed, nothing is rendered, and nothing has happened but the handling
    of the X events. *)
Theorem picture_not_owned_or_not_created (STOP : Z) (o : oracle) (s : world)
        (hdr : glc_picture_header_t) (pixels : Z) :
  (pic_ctx hdr <> ctx_i (gl_play s) ->
   gl_play_read_callback STOP o (MsgPicture hdr pixels) s
   = (0, drained STOP o s))
  /\ (pic_ctx hdr = ctx_i (gl_play s) ->
      created (gl_play s) = 0 ->
      stopped STOP (drained STOP o s) = false ->
      exists s' msg,
        gl_play_read_callback STOP o (MsgPicture hdr pixels) s = (EINVAL, s')
        /\ EINVAL <> 0
        /\ gl_play s' = gl_play (drained STOP o s)
        /\ glc_flags s' = glc_flags (drained STOP o s)
        /\ state_flags s' = state_flags (drained STOP o s)
        /\ trace s' = (trace (drained STOP o s) ++ [EvStderr msg])%list)
  /\ (pic_ctx hdr = ctx_i (gl_play s) ->
      created (gl_play s) = 0 ->
      stopped STOP (drained STOP o s) = true ->
      gl_play_read_callback STOP o (MsgPicture hdr pixels) s
      = (0, drained STOP o s)
      /\ exists evs,
          trace (drained STOP o s) = (trace s ++ evs)%list
          /\ Forall (fun e => is_render e = false) evs
          /\ Forall (fun e => is_diagnostic e = false) evs).
Proof.
  split; [|split].
  - rewrite read_callback_unfold.
    destruct (drained_housekeeping STOP o s) as (Hctx & Hcr & _).
    intros Hne. enter. rewrite Hctx. rewrite (eqb_neq_neg _ _ Hne).
    destruct (stopped STOP (drained STOP o s)); reflexivity.
  - rewrite read_callback_unfold.
    destruct (drained_housekeeping STOP o s) as (Hctx & Hcr & _).
    intros He Hc Hs. enter. rewrite Hs, Hctx, Hcr, (eqb_refl_neg _ _ He), Hc.
    cbn [truthy Z.eqb negb]. run.
    do 2 eexists. split; [reflexivity|]. split; [discriminate|].
    repeat split.
  - intros _ _ Hs. split; [apply stopped_returns_zero; exact Hs|].
    destruct (drained_quiet STOP o s) as (evs & Ht & Hr & _ & Hd).
    exists evs. auto.
Qed.

Lemma picture_not_owned_or_not_created_witness :
  gl_play_read_callback 8 (sample_oracle 80 1000) (MsgPicture (mkPicHdr 500 2) 0)
                        (world_init 1)
  = (0, drained 8 (sample_oracle 80 1000) (world_init 1))
  /\ (exists s' msg,
        gl_play_read_callback 8 (sample_oracle 80 1000)
                              (MsgPicture (mkPicHdr 500 1) 0) (world_init 1)
        = (EINVAL, s')
        /\ trace s' = [EvStderr msg])
  /\ gl_play_read_callback 8 (mkOracle [DestroyNotify] 70 80 31 32 5 1000)
                           (MsgPicture (mkPicHdr 500 1) 0) (world_init 1)
     = (0, mkWorld (gl_play_init_state 1) 0 8 []).
Proof.
  split; [|split].
  - destruct (picture_not_owned_or_not_created 8 (sample_oracle 80 1000)
                (world_init 1) (mkPicHdr 500 2) 0) as (H & _).
    apply H. cbn. lia.
  - destruct (picture_not_owned_or_not_created 8 (sample_oracle 80 1000)
                (world_init 1) (mkPicHdr 500 1) 0) as (_ & H & _).
    destruct (H eq_refl eq_refl eq_refl) as (s' & msg & E & _ & _ & _ & _ & T).
    exists s', msg. split; [exact E | exact T].
  - destruct (picture_not_owned_or_not_created 8
                (mkOracle [DestroyNotify] 70 80 31 32 5 1000)
                (world_init 1) (mkPicHdr 500 1) 0) as (_ & _ & H).
    destruct (H eq_refl eq_refl eq_refl) as (E & _).
    rewrite E. reflexivity.
Defined.

(** What the pacing code does with the field [fps], whatever that field
    holds.  A PICTURE message for the engine's own, created context, handled
    by a worker that has not been told to stop: the picture is drawn, then
    the playback clock is read; when the timestamp is ahead of the clock
    [usleep] is called with the difference, cut to 32 bits, and the swap
    follows; when the clock is past the timestamp by more than [fps] nothing
    more is done, the swap is skipped; otherwise the swap is done at once.
    The callback returns zero in each case. *)
Lemma picture_paced (STOP : Z) (o : oracle) (s : world)
        (hdr : glc_picture_header_t) (pixels : Z) :
  let d := drained STOP o s in
  let time := util_timestamp_result o in
  stopped STOP d = false ->
  pic_ctx hdr = ctx_i (gl_play s) ->
  created (gl_play s) <> 0 ->
  0 <= time < 2 ^ 64 ->
  0 <= timestamp hdr < 2 ^ 64 ->
  0 <= fps (gl_play s) ->
  timestamp hdr + fps (gl_play s) < 2 ^ 64 ->
  exists s' pacing,
    gl_play_read_callback STOP o (MsgPicture hdr pixels) s = (0, s')
    /\ gl_play s' = gl_play d
    /\ glc_flags s' = glc_flags d
    /\ state_flags s' = state_flags d
    /\ trace s'
       = (trace d
          ++ EvDrawPicture (texture (gl_play d)) (to_int (w (gl_play d)))
                           (to_int (h (gl_play d))) pixels
          :: EvTimestamp :: pacing)%list
    /\ (time < timestamp hdr ->
        pacing = [EvUsleep (u32 (timestamp hdr - time));
                  EvSwapBuffers (drawable (gl_play d))])
    /\ (timestamp hdr + fps (gl_play s) < time -> pacing = [])
    /\ (timestamp hdr <= time <= timestamp hdr + fps (gl_play s) ->
        pacing = [EvSwapBuffers (drawable (gl_play d))]).
Proof.
  intros d time Hs He Hc Ht Hts Hf Hsum.
  rewrite read_callback_unfold. fold d.
  destruct (drained_housekeeping STOP o s) as (Hctx & Hcr & Hfps & _).
  fold d in Hctx, Hcr, Hfps.
  enter. rewrite Hs, Hctx, Hcr, Hfps, (eqb_refl_neg _ _ He).
  rewrite (truthy_true_play _ Hc). cbn [negb]. fold time.
  unfold u64. rewrite (Z.mod_small (timestamp hdr + fps (gl_play s))) by lia.
  run.
  destruct (Z.gtb_spec (timestamp hdr) time) as [G|G].
  - rewrite Z.mod_small by lia. run. rewrite <- !app_assoc. cbn [app].
    do 2 eexists. do 5 (split; [reflexivity|]).
    repeat split; intros; (reflexivity || lia).
  - destruct (Z.gtb_spec time (timestamp hdr + fps (gl_play s))) as [G'|G'];
      run; rewrite <- ?app_assoc; cbn [app];
      do 2 eexists; do 5 (split; [reflexivity|]);
      repeat split; intros; (reflexivity || lia).
Qed.

Lemma picture_paced_witness :
  exists s',
    gl_play_read_callback 8 (sample_oracle 80 1000)
                          (MsgPicture (mkPicHdr 1500 1) 12) (world_active 1)
    = (0, s')
    /\ trace s' = [EvDrawPicture 5 640 480 12; EvTimestamp;
                   EvUsleep 500; EvSwapBuffers 70].
Proof.
  destruct (picture_paced 8 (sample_oracle 80 1000) (world_active 1)
                          (mkPicHdr 1500 1) 12)
    as (s' & pacing & E & _ & _ & _ & T & Hsleep & _);
    try (cbn; lia); try reflexivity.
  exists s'. split; [exact E|].
  rewrite T, Hsleep by (cbn; lia). reflexivity.
Defined.

(** ** CTX messages *)





Ltac run_ctx :=
  cbv [gl_play_create_ctx gl_play_update_ctx gl_play_update_viewport
       bind ret get emit modify with_size with_drawable with_ctx with_name
       with_created with_texture with_atoms
       gl_play glc_flags state_flags trace
       ctx_i format w h last fps drawable ctx name created texture
       delete_atom wm_proto_atom cancel];
  cbn [fst snd].

(** [gl_play_create_ctx] fails in one way only: [glXCreateContext] gave no
    context.  It then returns EAGAIN, before [created] is set, having
    printed nothing. *)
Lemma create_ctx_failure (o : oracle) (s : world) :
  fst (gl_play_create_ctx o s) <> 0 ->
  glXCreateContext_result o = 0
  /\ fst (gl_play_create_ctx o s) = EAGAIN
  /\ created (gl_play (snd (gl_play_create_ctx o s))) = created (gl_play s)
  /\ exists evs, trace (snd (gl_play_create_ctx o s)) = (trace s ++ evs)%list
                 /\ Forall (fun e => is_diagnostic e = false
                                     /\ is_render e = false) evs.
Proof.
  destruct s as [g gf sf t]. destruct g.
  destruct (truthy (glXCreateContext_result o)) eqn:Hctx.
  - intros H. contradiction H.
    run_ctx. rewrite Hctx. cbn [negb]. run_ctx.
    change (truthy 1) with true. cbn [negb]. run_ctx.
    destruct (truthy texture0); reflexivity.
  - intros _. run_ctx. rewrite Hctx. cbn [negb fst snd].
    split; [|split; [reflexivity | split; [reflexivity|]]].
    + unfold truthy in Hctx.
      destruct (Z.eqb_spec (glXCreateContext_result o) 0);
        [assumption | discriminate Hctx].
    + rewrite <- !app_assoc. cbn [app].
      eexists. split; [reflexivity|]. repeat constructor.
Qed.

(** The frame interval is never assigned: [gl_play_init] leaves it at
    zero, and the callback keeps whatever it finds. *)
Lemma update_ctx_keeps_fps (o : oracle) (s : world) :
  fps (gl_play (snd (gl_play_update_ctx o s))) = fps (gl_play s).
Proof.
  destruct s as [g gf sf t]. destruct g. run_ctx.
  destruct (truthy created0); cbn [negb]; run_ctx; [|reflexivity].
  destruct (truthy texture0); reflexivity.
Qed.

Lemma create_ctx_keeps_fps (o : oracle) (s : world) :
  fps (gl_play (snd (gl_play_create_ctx o s))) = fps (gl_play s).
Proof.
  destruct s as [g gf sf t]. destruct g. run_ctx.
  destruct (truthy (glXCreateContext_result o)); cbn [negb]; run_ctx;
    [|reflexivity].
  change (truthy 1) with true. cbn [negb]. run_ctx.
  destruct (truthy texture0); reflexivity.
Qed.

Lemma read_callback_keeps_fps (STOP : Z) (o : oracle) (msg : message)
      (s : world) :
  fps (gl_play (snd (gl_play_read_callback STOP o msg s))) = fps (gl_play s).
Proof.
  rewrite read_callback_unfold.
  destruct (drained_housekeeping STOP o s) as (_ & _ & Hfps & _).
  rewrite <- Hfps. generalize (drained STOP o s). intros d. enter.
  destruct (stopped STOP d); [reflexivity|].
  destruct msg as [m|hdr pixels|ty]; [| |reflexivity].
  - destruct (negb (msg_ctx m =? ctx_i (gl_play d))); [reflexivity|].
    unfold bind at 1. unfold modify at 1. cbv beta iota.
    set (sized := mkWorld _ _ _ _).
    assert (Hsized : fps (gl_play sized) = fps (gl_play d)) by reflexivity.
    rewrite <- Hsized.
    destruct (has_flag (msg_flags m) GLC_CTX_BGR
              && has_flag (msg_flags m) GLC_CTX_CREATE)%bool.
    + unfold bind, ret.
      pose proof (create_ctx_keeps_fps o sized) as H.
      destruct (gl_play_create_ctx o sized) as [r s1]. exact H.
    + destruct (has_flag (msg_flags m) GLC_CTX_BGR
                && has_flag (msg_flags m) GLC_CTX_UPDATE)%bool;
        [|reflexivity].
      unfold bind at 1.
      pose proof (update_ctx_keeps_fps o sized) as H.
      destruct (gl_play_update_ctx o sized) as [r s1]. cbn [snd] in H.
      destruct (truthy r); exact H.
  - destruct (negb (pic_ctx hdr =? ctx_i (gl_play d))); [reflexivity|].
    destruct (negb (truthy (created (gl_play d)))); [reflexivity|].
    run.
    destruct (timestamp hdr >? util_timestamp_result o); [reflexivity|].
    destruct (util_timestamp_result o >? u64 (timestamp hdr + fps (gl_play d)));
      reflexivity.
Qed.

Example gl_play_init_fps (ctx : Z) : fps (gl_play_init_state ctx) = 0.
Proof. reflexivity. Qed.

(** ** The frame interval in the states the worker can be in *)

(** The worlds the callback can be called in: the engine is the one
    [gl_play_init] made for context [ctx], in a session and a thread with
    any flags, and the callback has run on it any number of times, with any
    messages and any answers of its collaborators. *)
Inductive reachable (STOP ctx : Z) : world -> Prop :=
| reach_init (session thread : Z) :
    reachable STOP ctx (mkWorld (gl_play_init_state ctx) session thread [])
| reach_callback (o : oracle) (msg : message) (s : world) :
    reachable STOP ctx s ->
    reachable STOP ctx (snd (gl_play_read_callback STOP o msg s)).

Lemma reachable_fps (STOP ctx : Z) (s : world) :
  reachable STOP ctx s -> fps (gl_play s) = 0.
Proof.
  induction 1 as [session thread | o msg s _ IH]; [reflexivity|].
  rewrite read_callback_keeps_fps. exact IH.
Qed.

(** C3. The frame interval the claim compares with is the field [fps],
    which is zero in every world the callback can be called in.  So a
    PICTURE message for the engine's own, created context is dropped as soon
    as the playback clock is past its timestamp, be it by one microsecond:
    the picture is drawn, the clock is read, and the callback returns zero
    without a swap. *)
Theorem late_picture_dropped (STOP ctx : Z) (o : oracle) (s : world)
        (hdr : glc_picture_header_t) (pixels : Z) :
  let d := drained STOP o s in
  let time := util_timestamp_result o in
  reachable STOP ctx s ->
  stopped STOP d = false ->
  pic_ctx hdr = ctx_i (gl_play s) ->
  created (gl_play s) <> 0 ->
  0 <= timestamp hdr < 2 ^ 64 ->
  timestamp hdr < time ->
  exists s',
    gl_play_read_callback STOP o (MsgPicture hdr pixels) s = (0, s')
    /\ trace s'
       = (trace d
          ++ [EvDrawPicture (texture (gl_play d)) (to_int (w (gl_play d)))
                            (to_int (h (gl_play d))) pixels;
              EvTimestamp])%list
    /\ exists evs, trace s' = (trace s ++ evs)%list
                   /\ filter is_swap evs = [].
Proof.
  intros d time Hreach Hs He Hc Hts Hlate.
  pose proof (reachable_fps STOP ctx s Hreach) as Hzero.
  rewrite read_callback_unfold. fold d.
  destruct (drained_housekeeping STOP o s) as (Hctx & Hcr & Hfps & _).
  fold d in Hctx, Hcr, Hfps.
  enter. rewrite Hs, Hctx, Hcr, Hfps, (eqb_refl_neg _ _ He), Hzero.
  rewrite (truthy_true_play _ Hc). cbn [negb]. fold time.
  unfold u64 at 2. rewrite Z.add_0_r, (Z.mod_small (timestamp hdr)) by lia.
  run.
  destruct (Z.gtb_spec (timestamp hdr) time) as [G|_]; [lia|].
  destruct (Z.gtb_spec time (timestamp hdr)) as [_|G]; [|lia].
  cbn [fst snd trace]. rewrite <- !app_assoc. cbn [app].
  eexists. split; [reflexivity|]. cbn [trace]. split; [reflexivity|].
  destruct (drained_quiet STOP o s) as (evs & Ht & _ & Hq & _).
  fold d in Ht. rewrite Ht, <- app_assoc. eexists. split; [reflexivity|].
  rewrite filter_app. cbn [filter is_swap app]. rewrite app_nil_r.
  clear - Hq. induction Hq as [|e l He _ IH]; [reflexivity|].
  cbn [filter]. rewrite He. exact IH.
Qed.

Lemma late_picture_dropped_witness :
  exists s',
    gl_play_read_callback 8 (sample_oracle 80 1001)
      (MsgPicture (mkPicHdr 1000 1) 12)
      (snd (gl_play_read_callback 8 (sample_oracle 80 0)
              (MsgCtx (mkCtxMsg (Z.lor GLC_CTX_CREATE GLC_CTX_BGR) 1 640 480))
              (world_init 1)))
    = (0, s')
    /\ filter is_render (trace s') = [EvDrawPicture 5 640 480 12]
    /\ filter is_swap (trace s') = [].
Proof.
  destruct (late_picture_dropped 8 1 (sample_oracle 80 1001)
              (snd (gl_play_read_callback 8 (sample_oracle 80 0)
                      (MsgCtx (mkCtxMsg (Z.lor GLC_CTX_CREATE GLC_CTX_BGR)
                                        1 640 480))
                      (world_init 1)))
              (mkPicHdr 1000 1) 12)
    as (s' & E & T & _).
  - apply reach_callback. apply (reach_init 8 1 0 0).
  - reflexivity.
  - reflexivity.
  - cbn. lia.
  - cbn. lia.
  - cbn. lia.
  - exists s'. split; [exact E|]. rewrite T. split; reflexivity.
Defined.

(** C10. A CTX message with lifecycle CREATE and layout BGR for the
    engine's own context, whose creation fails: [gl_play_create_ctx]
    returns EAGAIN, and the callback returns zero all the same, in the
    world [gl_play_create_ctx] left; nothing is printed, nothing is drawn,
    and [created] is what it was. *)
Theorem create_failure_discarded (STOP : Z) (o : oracle) (s : world)
        (m : glc_ctx_message_t) :
  let d := drained STOP o s in
  let sized := snd (modify (with_size (msg_w m) (msg_h m)) d) in
  stopped STOP d = false ->
  msg_ctx m = ctx_i (gl_play s) ->
  has_flag (msg_flags m) GLC_CTX_BGR = true ->
  has_flag (msg_flags m) GLC_CTX_CREATE = true ->
  fst (gl_play_create_ctx o sized) <> 0 ->
  fst (gl_play_create_ctx o sized) = EAGAIN
  /\ gl_play_read_callback STOP o (MsgCtx m) s
     = (0, snd (gl_play_create_ctx o sized))
  /\ created (gl_play (snd (gl_play_create_ctx o sized)))
     = created (gl_play s)
  /\ exists evs,
       trace (snd (gl_play_create_ctx o sized)) = (trace s ++ evs)%list
       /\ Forall (fun e => is_diagnostic e = false /\ is_render e = false)
                 evs.
Proof.
  intros d sized Hs He Hb Hc Hfail.
  destruct (create_ctx_failure o sized Hfail) as (_ & Hret & Hcr & evs & Ht & Hq).
  destruct (drained_housekeeping STOP o s)
    as (Hctx & Hcr' & _ & _ & _ & _ & _ & _ & _ & evs0 & Ht0 & Hk).
  fold d in Hctx, Hcr', Ht0.
  split; [exact Hret|]. split; [|split].
  - rewrite read_callback_unfold. fold d. enter.
    rewrite Hs, Hctx, (eqb_refl_neg _ _ He), Hb, Hc. cbn [andb].
    unfold bind, sized, modify, ret. cbn [snd].
    destruct (gl_play_create_ctx o _) as [r s1]. reflexivity.
  - rewrite Hcr. exact Hcr'.
  - exists (evs0 ++ evs)%list. split.
    + rewrite Ht. unfold sized. cbn [modify snd trace]. rewrite Ht0.
      symmetry. apply app_assoc.
    + apply Forall_app. split; [|exact Hq].
      eapply Forall_impl; [|exact Hk]. intros e H.
      apply housekeeping_not_render in H. tauto.
Qed.

Lemma create_failure_discarded_witness :
  fst (gl_play_create_ctx (sample_oracle 0 1000)
         (snd (modify (with_size 640 480)
                      (drained 8 (sample_oracle 0 1000) (world_init 1)))))
  = EAGAIN
  /\ fst (gl_play_read_callback 8 (sample_oracle 0 1000)
            (MsgCtx (mkCtxMsg (Z.lor GLC_CTX_CREATE GLC_CTX_BGR) 1 640 480))
            (world_init 1)) = 0.
Proof.
  destruct (create_failure_discarded 8 (sample_oracle 0 1000) (world_init 1)
              (mkCtxMsg (Z.lor GLC_CTX_CREATE GLC_CTX_BGR) 1 640 480))
    as (R & E & _); try reflexivity; [cbn; discriminate|].
  split; [exact R|]. rewrite E. reflexivity.
Defined.

End GlPlayFacts.

(** * More on the capture descriptor *)
Module ParserFacts.

Import CStr Alsa.

(** ** strstr *)

(** [strstr] finds the first place where the needle starts: what it returns
    is a suffix of the haystack that begins with the needle, no shorter
    cut of the haystack does, and [NULL] means the needle starts nowhere. *)
Lemma strstr_first_occurrence (haystack needle : string) :
  match strstr haystack needle with
  | Some r =>
      exists p, haystack = p ++ r
                /\ String.prefix needle r = true
                /\ forall p1 r1, haystack = p1 ++ r1 ->
                                 (String.length p1 < String.length p)%nat ->
                                 String.prefix needle r1 = false
  | None =>
      forall p r, haystack = p ++ r -> String.prefix needle r = false
  end.
Proof.
  induction haystack as [|a h IH]; cbn [strstr].
  - destruct (String.prefix needle "") eqn:E.
    + exists "". split; [reflexivity|]. split; [exact E|].
      intros p1 r1 _ H. cbn in H. lia.
    + intros [|c p] r H; [|discriminate H]. cbn in H. subst r. exact E.
  - destruct (String.prefix needle (String a h)) eqn:E.
    + exists "". split; [reflexivity|]. split; [exact E|].
      intros p1 r1 _ H. cbn in H. lia.
    + destruct (strstr h needle) as [r|].
      * destruct IH as (p & Hh & Hp & Hmin).
        exists (String a p). split; [cbn; congruence|]. split; [exact Hp|].
        intros [|c p1] r1 H Hlen.
        -- cbn in H. subst r1. exact E.
        -- cbn in H. injection H as _ H. apply (Hmin p1 r1 H).
           cbn in Hlen. lia.
      * intros [|c p] r H.
        -- cbn in H. subst r. exact E.
        -- cbn in H. injection H as _ H. exact (IH p r H).
Qed.

(** [s] holds no character [c]. *)
Fixpoint lacks (c : ascii) (s : string) : bool :=
  match s with
  | EmptyString => true
  | String a r => negb (Ascii.eqb a c) && lacks c r
  end.

Lemma prefix_char (c a : ascii) (r : string) :
  String.prefix (String c "") (String a r) = Ascii.eqb a c.
Proof.
  cbn. destruct (ascii_dec c a) as [->|N].
  - rewrite Ascii.eqb_refl. destruct r; reflexivity.
  - symmetry. apply Ascii.eqb_neq. congruence.
Qed.

Lemma strstr_lacks (c : ascii) (s : string) :
  lacks c s = true -> strstr s (String c "") = None.
Proof.
  induction s as [|a r IH]; intros H; [reflexivity|].
  cbn [lacks] in H. apply andb_true_iff in H as [Ha Hr].
  cbn [strstr]. rewrite prefix_char.
  apply negb_true_iff in Ha. rewrite Ha. auto.
Qed.

Lemma strstr_skips (c : ascii) (p rest : string) :
  lacks c p = true ->
  strstr (p ++ String c rest) (String c "") = Some (String c rest).
Proof.
  induction p as [|a r IH]; intros H.
  - cbn [append strstr]. rewrite prefix_char, Ascii.eqb_refl. reflexivity.
  - cbn [lacks] in H. apply andb_true_iff in H as [Ha Hr].
    cbn [append strstr]. rewrite prefix_char.
    apply negb_true_iff in Ha. rewrite Ha. auto.
Qed.

Lemma lacks_app (c : ascii) (s t : string) :
  lacks c (s ++ t) = lacks c s && lacks c t.
Proof.
  induction s as [|a r IH]; [reflexivity|].
  cbn [append lacks]. rewrite IH. apply andb_assoc.
Qed.

Lemma length_app (s t : string) :
  String.length (s ++ t) = (String.length s + String.length t)%nat.
Proof. induction s as [|a r IH]; cbn; [reflexivity | now rewrite IH]. Qed.

(** ** The loop *)

(** One turn of the loop. *)
Lemma parse_loop_step (d : string) (acc : list alsa_capture_stream_s) :
  parse_loop (Some d) acc
  = match skip_delims d with
    | EmptyString => acc
    | String c r =>
        parse_loop (strstr (String c r) ";") (parse_endpoint (String c r) :: acc)
    end.
Proof.
  funelim (parse_loop (Some d) acc).
  - rewrite e. reflexivity.
  - rewrite Hskip. reflexivity.
Qed.

Lemma parse_loop_app (device : option string)
      (acc1 : list alsa_capture_stream_s) :
  forall acc2, parse_loop device (acc1 ++ acc2)%list
               = (parse_loop device acc1 ++ acc2)%list.
Proof.
  funelim (parse_loop device acc1); intros acc2.
  - simp parse_loop. reflexivity.
  - rewrite parse_loop_step, e. reflexivity.
  - rewrite parse_loop_step, Hskip.
    match goal with IH : forall acc2, _ = _ |- _ => apply (IH acc2) end.
Qed.

(** The nodes that were in the list stay at its end, untouched: the parser
    only puts nodes in front of them, and which nodes it builds does not
    depend on the list. *)
Theorem parse_loop_prepends (device : option string)
        (streams : list alsa_capture_stream_s) :
  parse_loop device streams = (parse_loop device [] ++ streams)%list.
Proof. apply (parse_loop_app device [] streams). Qed.

(** [s] is made of delimiters only. *)
Fixpoint only_delims (s : string) : bool :=
  match s with
  | EmptyString => true
  | String a r => Ascii.eqb a ";" && only_delims r
  end.

Lemma skip_delims_empty (s : string) :
  skip_delims s = "" <-> only_delims s = true.
Proof.
  induction s as [|a r IH]; [cbn; tauto|].
  cbn [only_delims]. destruct (Ascii.eqb_spec a ";") as [->|N].
  - cbn [skip_delims andb]. exact IH.
  - cbn [andb]. split; [|discriminate].
    destruct a as [[] [] [] [] [] [] [] []]; cbn; try discriminate.
    congruence.
Qed.

(** A descriptor adds no node exactly when it is empty or made of
    delimiters only.  [NULL] adds none either. *)
Theorem parse_nothing_iff_only_delims (cfg : string)
        (streams : list alsa_capture_stream_s) :
  parse_loop (Some cfg) streams = streams <-> only_delims cfg = true.
Proof.
  rewrite <- skip_delims_empty, parse_loop_step.
  destruct (skip_delims cfg) as [|c r]; [tauto|].
  split; [|discriminate]. intros H. exfalso.
  pose proof (parse_loop_app (strstr (String c r) ";") []
                (parse_endpoint (String c r) :: streams)) as P.
  cbn [app] in P. rewrite P in H.
  apply (f_equal (@List.length _)) in H.
  rewrite List.length_app in H. cbn [List.length] in H. lia.
Qed.


Lemma parse_nothing_iff_only_delims_witness :
  only_delims ";;;" = true /\ parse_loop (Some ";;;") [] = [].
Proof.
  split; [reflexivity|].
  apply (parse_nothing_iff_only_delims ";;;" []). reflexivity.
Defined.
(** ** Scanning numbers *)

(** What [%u] prints for a value that fits. *)
Definition show_unsigned (z : Z) : string :=
  NilZero.string_of_uint (N.to_uint (Z.to_N z)).

(** The value of a run of decimal digits read onto [acc]. *)
Fixpoint uint_value (d : Decimal.uint) (acc : Z) : Z :=
  match d with
  | Decimal.Nil => acc
  | Decimal.D0 l => uint_value l (10 * acc + 0)
  | Decimal.D1 l => uint_value l (10 * acc + 1)
  | Decimal.D2 l => uint_value l (10 * acc + 2)
  | Decimal.D3 l => uint_value l (10 * acc + 3)
  | Decimal.D4 l => uint_value l (10 * acc + 4)
  | Decimal.D5 l => uint_value l (10 * acc + 5)
  | Decimal.D6 l => uint_value l (10 * acc + 6)
  | Decimal.D7 l => uint_value l (10 * acc + 7)
  | Decimal.D8 l => uint_value l (10 * acc + 8)
  | Decimal.D9 l => uint_value l (10 * acc + 9)
  end.

Lemma uint_value_acc (d : Decimal.uint) (acc : positive) :
  uint_value d (Z.pos acc) = Z.pos (Pos.of_uint_acc d acc).
Proof.
  revert acc. induction d; intros acc; cbn [uint_value Pos.of_uint_acc];
    try reflexivity;
    match goal with
    | |- uint_value _ ?a = Z.pos (Pos.of_uint_acc _ ?b) =>
        replace a with (Z.pos b) by lia; auto
    end.
Qed.

Lemma uint_value_of_uint (d : Decimal.uint) :
  uint_value d 0 = Z.of_N (Pos.of_uint d).
Proof.
  induction d; cbn [uint_value Pos.of_uint]; try reflexivity;
    try exact IHd;
    match goal with
    | |- uint_value _ ?a = Z.of_N (N.pos (Pos.of_uint_acc _ ?b)) =>
        change a with (Z.pos b); apply uint_value_acc
    end.
Qed.

Lemma scan_digits_uint (d : Decimal.uint) (rest : string) (acc : Z) :
  starts_with_digit rest = false ->
  scan_digits (NilEmpty.string_of_uint d ++ rest) acc
  = (uint_value d acc, rest).
Proof.
  intros Hrest. revert acc.
  induction d; intros acc; cbn [NilEmpty.string_of_uint append uint_value];
    try (cbn [scan_digits digit_of]; cbn; apply IHd).
  destruct rest as [|c r]; [reflexivity|].
  cbn [starts_with_digit] in Hrest. cbn [scan_digits].
  destruct (digit_of c); [discriminate Hrest | reflexivity].
Qed.

Lemma string_of_uint_nonnil (d : Decimal.uint) :
  d <> Decimal.Nil -> NilZero.string_of_uint d = NilEmpty.string_of_uint d.
Proof. destruct d; intros H; [contradiction|..]; reflexivity. Qed.

Lemma to_uint_nonnil (n : N) : N.to_uint n <> Decimal.Nil.
Proof.
  destruct n; cbn; [discriminate | apply DecimalPos.Unsigned.to_uint_nonnil].
Qed.

Lemma show_unsigned_head (z : Z) (rest : string) :
  exists c r, show_unsigned z ++ rest = String c r
              /\ isspace c = false /\ c <> "-"%char /\ c <> "+"%char
              /\ starts_with_digit (String c r) = true.
Proof.
  unfold show_unsigned. rewrite string_of_uint_nonnil by apply to_uint_nonnil.
  pose proof (to_uint_nonnil (Z.to_N z)) as H.
  destruct (N.to_uint (Z.to_N z)); [contradiction|..];
    cbn [NilEmpty.string_of_uint append]; do 2 eexists;
    (split; [reflexivity|]); repeat split; discriminate.
Qed.

(** One [%u] conversion reads back what [%u] printed, when what follows is
    not another digit. *)
Lemma scan_u_show (z : Z) (rest : string) :
  0 <= z < 2 ^ 32 ->
  starts_with_digit rest = false ->
  scan_u (show_unsigned z ++ rest) = Some (z, rest).
Proof.
  intros Hz Hrest. unfold scan_u.
  destruct (show_unsigned_head z rest) as (c & r & E & Hsp & Hm & Hp & Hd).
  rewrite E. cbn [skip_space]. rewrite Hsp.
  assert (Hsign : match String c r with
                  | String "-" r0 => (true, r0)
                  | String "+" r0 => (false, r0)
                  | _ => (false, String c r)
                  end = (false, String c r)).
  { destruct c as [[] [] [] [] [] [] [] []]; try reflexivity; congruence. }
  rewrite Hsign, Hd, <- E. unfold show_unsigned.
  rewrite string_of_uint_nonnil by apply to_uint_nonnil.
  rewrite scan_digits_uint by exact Hrest.
  rewrite uint_value_of_uint.
  change (Pos.of_uint (N.to_uint (Z.to_N z))) with (N.of_uint (N.to_uint (Z.to_N z))).
  rewrite DecimalN.Unsigned.of_to, Z2N.id by lia.
  unfold u32. rewrite Z.mod_small by lia. reflexivity.
Qed.

(** [sscanf] reads back the rate and the channel count that were printed as
    [,%u,%u], whatever the values [rate] and [channels] held before, when
    what follows is not another digit. *)
Lemma sscanf_reads_back (r c : Z) (rest : string) (rate channels : Z) :
  0 <= r < 2 ^ 32 -> 0 <= c < 2 ^ 32 ->
  starts_with_digit rest = false ->
  sscanf_rate_channels
    ("," ++ show_unsigned r ++ "," ++ show_unsigned c ++ rest) rate channels
  = (r, c).
Proof.
  intros Hr Hc Hrest.
  change ("," ++ show_unsigned r ++ "," ++ show_unsigned c ++ rest)
    with (String "," (show_unsigned r ++ String "," (show_unsigned c ++ rest))).
  cbn [sscanf_rate_channels].
  rewrite (scan_u_show r) by (auto; reflexivity).
  rewrite (scan_u_show c) by auto. reflexivity.
Qed.

(** Without a digit after the marker nothing is stored: both values stay as
    they were.  With a rate but no second number, only the channel count
    stays. *)
Lemma sscanf_keeps_defaults (args : string) (rate channels : Z) :
  (forall s, args = String "," s -> starts_with_digit (skip_space s) = false ->
             (forall r, skip_space s <> String "-" r) ->
             (forall r, skip_space s <> String "+" r) ->
             sscanf_rate_channels args rate channels = (rate, channels))
  /\ (forall r, 0 <= r < 2 ^ 32 ->
                sscanf_rate_channels ("," ++ show_unsigned r) rate channels
                = (r, channels)).
Proof.
  split.
  - intros s -> Hd Hm Hp. cbn [sscanf_rate_channels]. unfold scan_u.
    destruct (skip_space s) as [|a t] eqn:E; [reflexivity|].
    assert (Hsign : match String a t with
                    | String "-" r0 => (true, r0)
                    | String "+" r0 => (false, r0)
                    | _ => (false, String a t)
                    end = (false, String a t)).
    { destruct a as [[] [] [] [] [] [] [] []]; try reflexivity.
      - exfalso. apply (Hp t). reflexivity.
      - exfalso. apply (Hm t). reflexivity. }
    rewrite Hsign, Hd. reflexivity.
  - intros r Hr.
    change ("," ++ show_unsigned r) with (String "," (show_unsigned r)).
    cbn [sscanf_rate_channels].
    replace (show_unsigned r) with (show_unsigned r ++ "")
      by (clear; induction (show_unsigned r); cbn; congruence).
    rewrite scan_u_show by (auto; reflexivity). reflexivity.
Qed.
(** ** The device buffer *)

(** The buffer the loop body builds for a name of [len] bytes read at
    [device]. *)
Definition device_buffer (device : string) (len : nat) : Heap.block :=
  Heap.store (Heap.memcpy (Heap.malloc len) 0 device len) len zero.

Lemma load_store (b : Heap.block) (i j : nat) (c : ascii) :
  Heap.load (Heap.store b i c) j
  = if Nat.eqb i j then Some c else Heap.load b j.
Proof.
  unfold Heap.load, Heap.store. cbn [Heap.blk_writes find fst].
  destruct (Nat.eqb i j); reflexivity.
Qed.

Lemma load_memcpy (len : nat) :
  forall (src : string) (b : Heap.block) (off i : nat),
    (len <= String.length src)%nat ->
    Heap.load (Heap.memcpy b off src len) i
    = if (Nat.leb off i && Nat.ltb i (off + len))%bool
      then String.get (i - off) src
      else Heap.load b i.
Proof.
  induction len as [|n IH]; intros src b off i Hlen.
  - assert (E : Heap.memcpy b off src 0 = b) by (destruct src; reflexivity).
    rewrite E.
    destruct (Nat.leb_spec off i), (Nat.ltb_spec i (off + 0)); cbn [andb];
      try reflexivity; lia.
  - destruct src as [|c rest]; [cbn in Hlen; lia|].
    cbn [Heap.memcpy]. cbn [String.length] in Hlen.
    rewrite IH by lia. rewrite load_store.
    destruct (Nat.leb_spec (S off) i), (Nat.ltb_spec i (S off + n)),
             (Nat.leb_spec off i), (Nat.ltb_spec i (off + S n)),
             (Nat.eqb_spec off i); cbn [andb]; try lia; try reflexivity.
    + replace (i - off)%nat with (S (i - S off)) by lia. reflexivity.
    + subst i. rewrite Nat.sub_diag. reflexivity.
Qed.

Lemma memcpy_writes (len : nat) :
  forall (src : string) (b : Heap.block) (off : nat),
    (len <= String.length src)%nat ->
    List.length (Heap.blk_writes (Heap.memcpy b off src len))
    = (List.length (Heap.blk_writes b) + len)%nat.
Proof.
  induction len as [|n IH]; intros src b off Hlen.
  - destruct src; cbn [Heap.memcpy]; lia.
  - destruct src as [|c rest]; [cbn in Hlen; lia|].
    cbn [Heap.memcpy]. cbn [String.length] in Hlen. rewrite IH by lia.
    cbn. lia.
Qed.

Lemma get_app_length (p : string) (c : ascii) (r : string) :
  String.get (String.length p) (p ++ String c r) = Some c.
Proof. induction p as [|a p IH]; cbn; auto. Qed.

Lemma app_assoc_string (a b c : string) : (a ++ b) ++ c = a ++ b ++ c.
Proof. induction a as [|x a IH]; cbn; congruence. Qed.

Ltac slen :=
  repeat (progress (rewrite ?length_app; cbn [String.length append]));
  try lia.

(** The bytes a block holds from offset [from] on, [n] of them at most:
    what was stored there, as far as something was. *)
Fixpoint bytes_from (b : Heap.block) (from n : nat) : string :=
  match n with
  | O => EmptyString
  | S k =>
      match Heap.load b from with
      | Some c => String c (bytes_from b (S from) k)
      | None => EmptyString
      end
  end.

(** The name held inside the block: the bytes at the offsets below its
    size.  The terminator, which the parser stores at the offset of the
    size, is not among them. *)
Definition stored_name (b : Heap.block) : string :=
  bytes_from b 0 (Heap.blk_size b).

(** A node as the parser leaves it: the name held in its block, the rate
    and the channel count. *)
Definition stored_endpoint (s : alsa_capture_stream_s) : string * Z * Z :=
  (stored_name (device s), rate s, channels s).

Lemma device_buffer_size (device : string) (len : nat) :
  Heap.blk_size (device_buffer device len) = len.
Proof.
  unfold device_buffer. cbn [Heap.store Heap.blk_size].
  apply AlsaFacts.memcpy_size.
Qed.

Lemma bytes_from_buffer (p2 : string) :
  forall (p1 q : string),
    bytes_from (device_buffer (p1 ++ p2 ++ q) (String.length (p1 ++ p2)))
               (String.length p1) (String.length p2)
    = p2.
Proof.
  induction p2 as [|c r IH]; intros p1 q; [reflexivity|].
  cbn [String.length bytes_from].
  unfold device_buffer at 1. rewrite load_store.
  rewrite length_app. cbn [String.length].
  destruct (Nat.eqb_spec (String.length p1 + S (String.length r))
                         (String.length p1)) as [E|_]; [lia|].
  rewrite load_memcpy by slen.
  destruct (Nat.leb_spec 0 (String.length p1)) as [_|]; [|lia].
  destruct (Nat.ltb_spec (String.length p1)
              (0 + (String.length p1 + S (String.length r)))) as [_|]; [|lia].
  cbn [andb append]. rewrite Nat.sub_0_r, get_app_length.
  f_equal.
  specialize (IH (p1 ++ String c "") q).
  assert (E1 : (p1 ++ String c "") ++ r ++ q = p1 ++ String c (r ++ q))
    by (rewrite app_assoc_string; reflexivity).
  assert (E2 : String.length ((p1 ++ String c "") ++ r)
               = (String.length p1 + S (String.length r))%nat) by slen.
  assert (E3 : String.length (p1 ++ String c "") = S (String.length p1))
    by slen.
  rewrite E1, E2, E3 in IH. exact IH.
Qed.

(** The block built for a name holds the name, byte for byte. *)
Lemma stored_name_device_buffer (p q : string) :
  stored_name (device_buffer (p ++ q) (String.length p)) = p.
Proof.
  unfold stored_name. rewrite device_buffer_size.
  exact (bytes_from_buffer p "" q).
Qed.
(** ** Descriptors in canonical form *)

(** An endpoint whose name can be written in a descriptor, with values that
    fit an unsigned int. *)
Definition writable (e : string * Z * Z) : Prop :=
  let '(dev, r, c) := e in
  dev <> "" /\ lacks "," dev = true /\ lacks ";" dev = true
  /\ lacks zero dev = true
  /\ 0 <= r < 2 ^ 32 /\ 0 <= c < 2 ^ 32.

(** [device,rate,channels] *)
Definition show_endpoint (e : string * Z * Z) : string :=
  let '(dev, r, c) := e in
  dev ++ "," ++ show_unsigned r ++ "," ++ show_unsigned c.

(** The endpoints joined by the delimiter. *)
Definition serialize (l : list (string * Z * Z)) : string :=
  String.concat ";" (map show_endpoint l).

Lemma uint_lacks_delim (d : Decimal.uint) :
  lacks ";" (NilEmpty.string_of_uint d) = true.
Proof. induction d; cbn; auto. Qed.

Lemma show_unsigned_lacks_delim (z : Z) : lacks ";" (show_unsigned z) = true.
Proof.
  unfold show_unsigned. rewrite string_of_uint_nonnil by apply to_uint_nonnil.
  apply uint_lacks_delim.
Qed.

Lemma parse_endpoint_unfold (s : string) :
  parse_endpoint s
  = mkStream 0
      (device_buffer s (device_len s (strstr s ",") (strstr s ";")))
      (snd (scan_args (strstr s ","))) (fst (scan_args (strstr s ","))).
Proof.
  unfold parse_endpoint, device_buffer.
  destruct (scan_args (strstr s ",")) as [r c]. reflexivity.
Qed.

(** The node of an endpoint written [device,rate,channels]: the three are
    read back, whatever follows, as long as it is not a digit. *)
Lemma endpoint_with_parameters (dev : string) (r c : Z) (rest : string) :
  lacks "," dev = true -> lacks zero dev = true ->
  0 <= r < 2 ^ 32 -> 0 <= c < 2 ^ 32 ->
  starts_with_digit rest = false ->
  stored_endpoint (parse_endpoint (show_endpoint (dev, r, c) ++ rest))
  = (dev, r, c).
Proof.
  intros Hcomma Hz Hr Hc Hrest.
  unfold show_endpoint. rewrite !app_assoc_string.
  set (tail := show_unsigned r ++ "," ++ show_unsigned c ++ rest).
  change ("," ++ tail) with (String "," tail).
  rewrite parse_endpoint_unfold.
  rewrite (strstr_skips "," dev tail Hcomma).
  unfold stored_endpoint. cbn [device rate channels scan_args device_len].
  change (String "," tail)
    with ("," ++ show_unsigned r ++ "," ++ show_unsigned c ++ rest).
  rewrite sscanf_reads_back by assumption. cbn [fst snd].
  change ("," ++ show_unsigned r ++ "," ++ show_unsigned c ++ rest)
    with (String "," tail).
  replace (String.length (dev ++ String "," tail)
           - String.length (String "," tail))%nat
    with (String.length dev) by (rewrite length_app; lia).
  rewrite stored_name_device_buffer. reflexivity.
Qed.

Lemma skip_delims_head (c : ascii) (r : string) :
  c <> ";"%char -> skip_delims (String c r) = String c r.
Proof.
  intros H. destruct c as [[] [] [] [] [] [] [] []]; try reflexivity.
  congruence.
Qed.

Lemma lacks_head (c : ascii) (s : string) :
  s <> "" -> lacks c s = true ->
  exists a r, s = String a r /\ a <> c.
Proof.
  destruct s as [|a r]; [congruence|]. intros _ H.
  cbn [lacks] in H. apply andb_true_iff in H as [H _].
  apply negb_true_iff, Ascii.eqb_neq in H. eauto.
Qed.

(** A descriptor in canonical form, [device,rate,channels;...;
    device,rate,channels], is parsed into its endpoints, the last one
    first, in front of the nodes that were there. *)
Theorem parse_serialized (l : list (string * Z * Z))
        (streams : list alsa_capture_stream_s) :
  Forall writable l ->
  map stored_endpoint (parse_loop (Some (serialize l)) streams)
  = (rev l ++ map stored_endpoint streams)%list.
Proof.
  revert streams. induction l as [|e l IH]; intros streams Hl.
  - reflexivity.
  - inversion Hl as [|e' l' He Hl']; subst e' l'.
    destruct e as [[dev r] c].
    destruct He as (Hne & Hcomma & Hdelim & Hz & Hr & Hc).
    assert (Hstep : forall rest,
               starts_with_digit rest = false ->
               map stored_endpoint
                   (parse_loop (Some (show_endpoint (dev, r, c) ++ rest)) streams)
               = map stored_endpoint
                   (parse_loop (strstr (show_endpoint (dev, r, c) ++ rest) ";")
                      (parse_endpoint (show_endpoint (dev, r, c) ++ rest)
                                      :: streams))).
    { intros rest _. rewrite parse_loop_step.
      destruct (lacks_head ";" dev Hne Hdelim) as (a & t & -> & Ha).
      cbn [show_endpoint append]. rewrite skip_delims_head by exact Ha.
      reflexivity. }
    assert (Hlack : lacks ";" (show_endpoint (dev, r, c)) = true).
    { unfold show_endpoint. rewrite !lacks_app, Hdelim.
      rewrite !show_unsigned_lacks_delim. reflexivity. }
    unfold serialize. cbn [map String.concat].
    destruct l as [|e2 l2].
    + cbn [map].
      replace (show_endpoint (dev, r, c))
        with (show_endpoint (dev, r, c) ++ "")
        by (clear; induction (show_endpoint (dev, r, c)); cbn; congruence).
      rewrite Hstep by reflexivity.
      rewrite (strstr_lacks ";") by (rewrite lacks_app, Hlack; reflexivity).
      simp parse_loop. cbn [map rev app].
      rewrite endpoint_with_parameters by (auto; reflexivity). reflexivity.
    + cbn [map]. fold (map show_endpoint l2).
      change (String.concat ";" (show_endpoint e2 :: map show_endpoint l2))
        with (serialize (e2 :: l2)).
      change (";" ++ serialize (e2 :: l2))
        with (String ";" (serialize (e2 :: l2))).
      rewrite Hstep by reflexivity.
      rewrite (strstr_skips ";") by exact Hlack.
      rewrite parse_loop_step. cbn [skip_delims]. rewrite <- parse_loop_step.
      rewrite IH by exact Hl'. cbn [map rev].
      rewrite endpoint_with_parameters by (auto; reflexivity).
      rewrite <- !app_assoc. reflexivity.
Qed.

Lemma parse_serialized_witness :
  map stored_endpoint (parse_loop (Some "hw:0,44100,1;hw:1,48000,2") [])
  = [("hw:1", 48000, 2); ("hw:0", 44100, 1)].
Proof.
  apply (parse_serialized [("hw:0", 44100, 1); ("hw:1", 48000, 2)] []).
  repeat constructor; try discriminate; lia.
Defined.
(** ** Descriptors without parameters *)

(** The text up to the first delimiter. *)
Fixpoint token (s : string) : string :=
  match s with
  | EmptyString => EmptyString
  | String c r => if Ascii.eqb c ";" then EmptyString else String c (token r)
  end.

(** The pieces between the delimiters, empty ones included. *)
Fixpoint split (s : string) : list string :=
  match s with
  | EmptyString => [EmptyString]
  | String c r =>
      if Ascii.eqb c ";" then EmptyString :: split r
      else match split r with
           | t :: ts => String c t :: ts
           | [] => [String c EmptyString]
           end
  end.

(** The pieces that name an endpoint. *)
Definition segments (s : string) : list string :=
  filter (fun t => negb (String.eqb t "")) (split s).

Lemma split_token (s : string) :
  match strstr s ";" with
  | Some r => exists rest, r = String ";" rest
                           /\ s = token s ++ r
                           /\ split s = token s :: split rest
  | None => token s = s /\ split s = [s]
  end.
Proof.
  induction s as [|c r IH]; [cbn; auto|].
  cbn [strstr token split]. rewrite prefix_char.
  destruct (Ascii.eqb_spec c ";") as [->|N].
  - exists r. auto.
  - destruct (strstr r ";") as [r'|].
    + destruct IH as (rest & -> & Hr & Hs). exists rest.
      split; [reflexivity|]. split; [cbn; congruence|].
      rewrite Hs. reflexivity.
    + destruct IH as [Ht Hs]. rewrite Ht, Hs. auto.
Qed.

Lemma token_lacks (c : ascii) (s : string) :
  lacks c s = true -> lacks c (token s) = true.
Proof.
  induction s as [|a r IH]; [auto|]. cbn [lacks token]. intros H.
  apply andb_true_iff in H as [Ha Hr].
  destruct (Ascii.eqb a ";"); [reflexivity|].
  cbn [lacks]. rewrite Ha, IH by exact Hr. reflexivity.
Qed.

Lemma segments_delim (s : string) : segments (String ";" s) = segments s.
Proof. reflexivity. Qed.

Lemma segments_skip (s : string) : segments (skip_delims s) = segments s.
Proof.
  induction s as [|a r IH]; [reflexivity|].
  destruct (Ascii.eqb_spec a ";") as [->|N].
  - cbn [skip_delims]. rewrite segments_delim. exact IH.
  - rewrite skip_delims_head by exact N. reflexivity.
Qed.

Lemma skip_delims_suffix (s : string) :
  exists p, s = p ++ skip_delims s.
Proof.
  induction s as [|a r IH]; [exists ""; reflexivity|].
  destruct (Ascii.eqb_spec a ";") as [->|N].
  - cbn [skip_delims]. destruct IH as [p Hp]. exists (String ";" p).
    cbn. congruence.
  - rewrite skip_delims_head by exact N. exists "". reflexivity.
Qed.

Lemma skip_delims_not_delim (s : string) (c : ascii) (r : string) :
  skip_delims s = String c r -> c <> ";"%char.
Proof.
  induction s as [|a t IH]; [discriminate|].
  destruct (Ascii.eqb_spec a ";") as [->|N].
  - cbn [skip_delims]. exact IH.
  - rewrite skip_delims_head by exact N. congruence.
Qed.

(** The node of an endpoint in a descriptor without parameter marker: the
    name is the text up to the next delimiter, with the default rate and
    channel count. *)
Lemma endpoint_without_parameters (s : string) :
  lacks "," s = true -> lacks zero s = true ->
  stored_endpoint (parse_endpoint s) = (token s, 44100, 1).
Proof.
  intros Hcomma Hz. rewrite parse_endpoint_unfold.
  rewrite (strstr_lacks "," s Hcomma).
  unfold stored_endpoint. cbn [device rate channels scan_args fst snd device_len].
  pose proof (split_token s) as H.
  pose proof (token_lacks zero s Hz) as Hzt.
  destruct (strstr s ";") as [r|].
  - destruct H as (rest & -> & Hs & _).
    replace (String.length s - String.length (String ";" rest))%nat
      with (String.length (token s))
      by (rewrite Hs at 2; rewrite length_app; lia).
    rewrite Hs at 1. rewrite stored_name_device_buffer. reflexivity.
  - destruct H as [Ht _]. rewrite <- Ht at 2.
    replace s with (token s ++ "") at 1
      by (rewrite Ht; clear; induction s; cbn; congruence).
    rewrite stored_name_device_buffer. reflexivity.
Qed.

Lemma parse_without_parameters_bounded (n : nat) :
  forall (cfg : string) (streams : list alsa_capture_stream_s),
    (String.length cfg <= n)%nat ->
    lacks "," cfg = true -> lacks zero cfg = true ->
    map stored_endpoint (parse_loop (Some cfg) streams)
    = (rev (map (fun d => (d, 44100, 1)) (segments cfg))
       ++ map stored_endpoint streams)%list.
Proof.
  induction n as [|n IH]; intros cfg streams Hlen Hcomma Hz.
  - destruct cfg; [reflexivity | cbn in Hlen; lia].
  - rewrite parse_loop_step, <- (segments_skip cfg).
    destruct (skip_delims_suffix cfg) as [p Hp].
    assert (Hcomma' : lacks "," (skip_delims cfg) = true).
    { rewrite Hp, lacks_app in Hcomma. apply andb_true_iff in Hcomma. tauto. }
    assert (Hz' : lacks zero (skip_delims cfg) = true).
    { rewrite Hp, lacks_app in Hz. apply andb_true_iff in Hz. tauto. }
    assert (Hlen' : (String.length (skip_delims cfg) <= S n)%nat).
    { rewrite Hp, length_app in Hlen. lia. }
    destruct (skip_delims cfg) as [|c r] eqn:Hskip; [reflexivity|].
    pose proof (skip_delims_not_delim cfg c r Hskip) as Hc.
    pose proof (split_token (String c r)) as Hsplit.
    pose proof (endpoint_without_parameters (String c r) Hcomma' Hz') as Hend.
    assert (Htok : token (String c r) = String c (token r)).
    { cbn [token]. apply Ascii.eqb_neq in Hc. rewrite Hc. reflexivity. }
    destruct (strstr (String c r) ";") as [next|].
    + destruct Hsplit as (rest & -> & Hs & Hsp).
      assert (Hsuffix : lacks "," (String ";" rest) = true
                        /\ lacks zero (String ";" rest) = true
                        /\ (String.length (String ";" rest) <= n)%nat).
      { rewrite Hs, lacks_app in Hcomma'. rewrite Hs, lacks_app in Hz'.
        rewrite Hs, length_app, Htok in Hlen'. cbn [String.length] in Hlen'.
        apply andb_true_iff in Hcomma'. apply andb_true_iff in Hz'.
        repeat split; try tauto. cbn [String.length]. lia. }
      destruct Hsuffix as (H1 & H2 & H3).
      rewrite IH by assumption. rewrite segments_delim.
      cbn [map]. rewrite Hend. unfold segments at 2. rewrite Hsp.
      cbn [filter]. rewrite Htok. cbn [String.eqb negb map rev].
      fold (segments rest). rewrite <- app_assoc. reflexivity.
    + destruct Hsplit as [Ht Hsp]. simp parse_loop. cbn [map].
      rewrite Hend. unfold segments. rewrite Hsp. cbn [filter String.eqb negb].
      cbn [map rev app]. rewrite Ht. reflexivity.
Qed.

(** A descriptor without a parameter marker is parsed into one node for
    each non-empty piece between delimiters, the last piece first, each with
    rate 44100 and one channel. *)
Theorem parse_without_parameters (cfg : string)
        (streams : list alsa_capture_stream_s) :
  lacks "," cfg = true -> lacks zero cfg = true ->
  map stored_endpoint (parse_loop (Some cfg) streams)
  = (rev (map (fun d => (d, 44100, 1)) (segments cfg))
     ++ map stored_endpoint streams)%list.
Proof.
  apply (parse_without_parameters_bounded (String.length cfg)). lia.
Qed.

Lemma parse_without_parameters_witness :
  map stored_endpoint (parse_loop (Some ";hw:0;;default;") [])
  = [("default", 44100, 1); ("hw:0", 44100, 1)].
Proof.
  apply (parse_without_parameters ";hw:0;;default;" []); reflexivity.
Defined.

(** ** Edges *)

(** An endpoint that begins with the parameter marker gets a node all the
    same: its block has zero bytes and holds no name, and the terminator is
    stored at offset 0 of that block. *)
Theorem marker_first_gives_empty_name (cfg rest : string) :
  skip_delims cfg = String "," rest ->
  exists s, In s (parse_loop (Some cfg) [])
            /\ Heap.blk_size (device s) = 0%nat
            /\ stored_name (device s) = ""
            /\ Heap.terminators (device s) = [0%nat].
Proof.
  intros Hskip. exists (parse_endpoint (String "," rest)). split.
  - rewrite parse_loop_step, Hskip.
    pose proof (parse_loop_app (strstr (String "," rest) ";") []
                  [parse_endpoint (String "," rest)]) as P.
    cbn [app] in P. rewrite P.
    apply in_or_app. right. left. reflexivity.
  - rewrite parse_endpoint_unfold. cbn [device strstr String.prefix].
    destruct (ascii_dec "," ",") as [_|N]; [|congruence].
    assert (E : String.prefix "" rest = true) by (destruct rest; reflexivity).
    rewrite E. cbn [device_len]. rewrite Nat.sub_diag.
    unfold device_buffer, stored_name. repeat split; reflexivity.
Qed.

Lemma marker_first_gives_empty_name_witness :
  exists s, In s (parse_loop (Some ";,48000,2") [])
            /\ Heap.blk_size (device s) = 0%nat
            /\ stored_name (device s) = ""
            /\ Heap.terminators (device s) = [0%nat].
Proof.
  apply (marker_first_gives_empty_name ";,48000,2" "48000,2"). reflexivity.
Defined.

Lemma scan_u_range (s : string) (v : Z) (r : string) :
  scan_u s = Some (v, r) -> 0 <= v < 2 ^ 32.
Proof.
  unfold scan_u.
  destruct (match skip_space s with
            | String "-" r0 => (true, r0)
            | String "+" r0 => (false, r0)
            | _ => (false, skip_space s)
            end) as [neg s2].
  destruct (starts_with_digit s2); [|discriminate].
  destruct (scan_digits s2 0) as [x rest]. intros [= <- _].
  unfold u32. apply Z.mod_pos_bound. lia.
Qed.

Lemma sscanf_range (args : string) (rate channels : Z) :
  0 <= rate < 2 ^ 32 -> 0 <= channels < 2 ^ 32 ->
  0 <= fst (sscanf_rate_channels args rate channels) < 2 ^ 32
  /\ 0 <= snd (sscanf_rate_channels args rate channels) < 2 ^ 32.
Proof.
  intros Hr Hc. unfold sscanf_rate_channels.
  destruct args as [|a s1]; [cbn; auto|].
  destruct a as [[] [] [] [] [] [] [] []]; try (cbn; auto; fail).
  destruct (scan_u s1) as [[r rest]|] eqn:E1; [|cbn; auto].
  apply scan_u_range in E1.
  destruct rest as [|b s3]; [cbn; auto|].
  destruct b as [[] [] [] [] [] [] [] []]; try (cbn; auto; fail).
  destruct (scan_u s3) as [[c rest']|] eqn:E2; [|cbn; auto].
  apply scan_u_range in E2. cbn. auto.
Qed.

(** Whatever the descriptor, every node the parser builds has no capture
    handle yet, and a rate and a channel count that fit an unsigned int. *)
Lemma parsed_nodes_well_formed (cfg : string) (s : alsa_capture_stream_s) :
  In s (parse_loop (Some cfg) []) ->
  capture s = 0
  /\ 0 <= rate s < 2 ^ 32
  /\ 0 <= channels s < 2 ^ 32.
Proof.
  intros Hin.
  assert (HF : Forall (fun s => capture s = 0 /\ 0 <= rate s < 2 ^ 32
                                /\ 0 <= channels s < 2 ^ 32)
                      (parse_loop (Some cfg) [])).
  { apply AlsaFacts.parse_loop_Forall; [|constructor].
    intros d. rewrite parse_endpoint_unfold. cbn [capture rate channels].
    split; [reflexivity|].
    unfold scan_args. destruct (strstr d ",") as [a|]; [|cbn; lia].
    apply sscanf_range; lia. }
  rewrite Forall_forall in HF. exact (HF s Hin).
Qed.
End ParserFacts.

(** * The life cycle of the ALSA layer *)
Module AlsaLifecycle.

Import CStr Alsa AlsaFacts.

(** ** alsa_init *)

(** <glc.h> *)
Definition GLC_AUDIO_ALLOW_SKIP : Z := 64.

(** conversion of a long to int *)
Definition int_of_long (x : Z) : Z :=
  if x mod 2 ^ 32 <? 2 ^ 31 then x mod 2 ^ 32 else x mod 2 ^ 32 - 2 ^ 32.

(** [atoi], that is [(int) strtol(s, NULL, 10)]: white space is skipped, a
    sign is accepted, the digits that follow are read (none gives 0), the
    value is kept within a long and then converted to int. *)
Definition atoi (s : string) : Z :=
  let s1 := skip_space s in
  let '(neg, s2) :=
    match s1 with
    | String "-" r => (true, r)
    | String "+" r => (false, r)
    | _ => (false, s1)
    end in
  let v := fst (scan_digits s2 0) in
  int_of_long (if neg then Z.max (- 2 ^ 63) (- v) else Z.min (2 ^ 63 - 1) v).

Definition with_capture_enabled (v : Z) (a : alsa_private_s) : alsa_private_s :=
  mkAlsa (started a) v (audio_hook a) (capture_stream a)
         (libasound_handle a) (snd_pcm_open a) (snd_pcm_writei a)
         (snd_pcm_writen a) (snd_pcm_mmap_begin a) (snd_pcm_mmap_commit a).

Definition or_glc_flags (mask : Z) : M unit :=
  fun w => Done tt (mkWorld (alsa w) (alsa_loaded w) (lib w)
                            (Z.lor (glc_flags w) mask) (trace w)).

(** [int alsa_init(glc_t *glc)]; [getenv] is the function from names to
    values. *)
Definition alsa_init (getenv : string -> option string) (o : oracle) : M Z :=
  modify_alsa (with_started 0) ;;;
  modify_alsa (with_capture_stream []) ;;;
  emit (EvUtilLog GLC_DEBUG "alsa" "initializing" []) ;;;
  modify_alsa (with_capture_enabled
                 (match getenv "GLC_AUDIO" with
                  | Some v => atoi v
                  | None => 1
                  end)) ;;;
  (match getenv "GLC_AUDIO_SKIP" with
   | Some v => if truthy (atoi v) then or_glc_flags GLC_AUDIO_ALLOW_SKIP
               else ret tt
   | None => ret tt
   end) ;;;
  (match getenv "GLC_AUDIO_RECORD" with
   | Some cfg => alsa_parse_capture_cfg cfg ;;; ret tt
   | None => ret tt
   end) ;;;
  get_real_alsa o ;;;
  ret 0.

(** ** alsa_close, alsa_pause, alsa_resume *)

(** The calls these three make. *)
Inductive lifecycle_call : Type :=
| CallUtilLog (level : log_level) (module msg : string)
| CallAudioHookClose (hook : Z)
| CallAudioCaptureClose (handle : Z)
| CallAudioCapturePause (handle : Z)
| CallAudioCaptureResume (handle : Z)
| CallFreeDevice (dev : Heap.block)
| CallFreeStream.

(** The loop of [alsa_close]: every node is unlinked and freed, its capture
    closed first when it has one. *)
Fixpoint close_streams (streams : list alsa_capture_stream_s)
  : list lifecycle_call :=
  match streams with
  | [] => []
  | del :: rest =>
      ((if truthy (capture del) then [CallAudioCaptureClose (capture del)]
        else [])
       ++ [CallFreeDevice (device del); CallFreeStream]
       ++ close_streams rest)%list
  end.

(** [int alsa_close()]: the value returned, what [alsa] has become, and the
    calls made, oldest first. *)
Definition alsa_close (a : alsa_private_s)
  : Z * alsa_private_s * list lifecycle_call :=
  if negb (truthy (started a)) then (0, a, [])
  else
    (0, with_capture_stream [] a,
     ([CallUtilLog GLC_DEBUG "alsa" "closing"]
      ++ (if truthy (capture_enabled a) then [CallAudioHookClose (audio_hook a)]
          else [])
      ++ close_streams (capture_stream a))%list).

(** The loop of [alsa_pause]. *)
Fixpoint pause_streams (streams : list alsa_capture_stream_s)
  : list lifecycle_call :=
  match streams with
  | [] => []
  | s :: rest =>
      ((if truthy (capture s) then [CallAudioCapturePause (capture s)] else [])
       ++ pause_streams rest)%list
  end.

(** [int alsa_pause()] *)
Definition alsa_pause (a : alsa_private_s) : Z * list lifecycle_call :=
  (0, pause_streams (capture_stream a)).

(** The loop of [alsa_resume]. *)
Fixpoint resume_streams (streams : list alsa_capture_stream_s)
  : list lifecycle_call :=
  match streams with
  | [] => []
  | s :: rest =>
      ((if truthy (capture s) then [CallAudioCaptureResume (capture s)] else [])
       ++ resume_streams rest)%list
  end.

(** [int alsa_resume()] *)
Definition alsa_resume (a : alsa_private_s) : Z * list lifecycle_call :=
  (0, resume_streams (capture_stream a)).

(** The handles of the streams that run. *)
Definition live_handles (streams : list alsa_capture_stream_s) : list Z :=
  filter truthy (map capture streams).

Definition is_capture_init (e : event) : bool :=
  match e with EvAudioCaptureInit _ _ _ _ => true | _ => false end.

Definition is_hook_init (e : event) : bool :=
  match e with EvAudioHookInit _ => true | _ => false end.

(** The node [alsa_start] leaves for a node: the same endpoint, with the
    handle [audio_capture_init] gave for it. *)
Definition opened (o : oracle) (s : alsa_capture_stream_s)
  : alsa_capture_stream_s :=
  mkStream (audio_capture_init_result o (Heap.c_string (device s))
                                      (rate s) (channels s))
           (device s) (channels s) (rate s).

(** The call [alsa_start] makes for a node. *)
Definition capture_init_call (buffer : Z) (s : alsa_capture_stream_s) : event :=
  EvAudioCaptureInit buffer (Heap.c_string (device s)) (rate s) (channels s).

(** ** alsa_start *)

Ltac run_start :=
  cbv [alsa_start alsa_unhook_so modify_alsa bind ret get emit set_alsa
       with_audio_hook with_capture_stream with_started
       alsa alsa_loaded lib glc_flags trace
       started capture_enabled audio_hook capture_stream libasound_handle
       snd_pcm_open snd_pcm_writei snd_pcm_writen snd_pcm_mmap_begin
       snd_pcm_mmap_commit lib_dlsym lib_dlvsym].

Lemma start_capture_streams_result (o : oracle) (buffer : Z)
      (streams : list alsa_capture_stream_s) :
  forall w,
    start_capture_streams o buffer streams w
    = Done (map (opened o) streams)
           (mkWorld (alsa w) (alsa_loaded w) (lib w) (glc_flags w)
                    (trace w ++ map (capture_init_call buffer) streams)).
Proof.
  induction streams as [|s rest IH]; intros w.
  - cbn. rewrite app_nil_r. destruct w; reflexivity.
  - cbn [start_capture_streams map]. unfold bind at 1. unfold emit at 1.
    unfold bind at 1. rewrite IH. cbn [alsa alsa_loaded lib glc_flags trace].
    rewrite <- app_assoc. reflexivity.
Qed.

Lemma filter_capture_init_calls (buffer : Z)
      (streams : list alsa_capture_stream_s) :
  filter is_capture_init (map (capture_init_call buffer) streams)
  = map (capture_init_call buffer) streams.
Proof. induction streams as [|s rest IH]; cbn; congruence. Qed.

Ltac quiet_trace :=
  cbn [trace]; rewrite ?filter_app; cbn [filter is_capture_init is_hook_init];
  rewrite ?app_nil_r.

(** Started with the real functions resolved, and with capture disabled or
    an audio hook that could be set up, [alsa_start] returns 0 whatever
    [audio_capture_init] answers: [started] is set, every node of the list
    keeps its endpoint and place and gets the handle [audio_capture_init]
    returned for it, one call per node in list order, and a further
    [alsa_start] is refused with EINVAL. *)
Theorem alsa_start_opens_streams (o : oracle) (buffer : Z) (w : world) :
  started (alsa w) = 0 ->
  alsa_loaded w <> 0 ->
  capture_enabled (alsa w) = 0 \/ audio_hook_init_result o <> 0 ->
  exists w',
    alsa_start o buffer w = Done 0 w'
    /\ started (alsa w') = 1
    /\ capture_enabled (alsa w') = capture_enabled (alsa w)
    /\ capture_stream (alsa w') = map (opened o) (capture_stream (alsa w))
    /\ filter is_capture_init (trace w')
       = (filter is_capture_init (trace w)
          ++ map (capture_init_call buffer) (capture_stream (alsa w)))%list
    /\ (capture_enabled (alsa w) <> 0 ->
        audio_hook (alsa w') = audio_hook_init_result o)
    /\ alsa_start o buffer w' = Done EINVAL w'.
Proof.
  intros Hs Hl Hc. destruct w as [a loaded l flags t]. destruct a.
  cbn [alsa alsa_loaded started capture_enabled capture_stream] in *.
  subst started0. apply truthy_true in Hl.
  assert (Hhook : truthy capture_enabled0 = true ->
                  truthy (audio_hook_init_result o) = true).
  { intros Hcap. destruct Hc as [Hc|Hc]; [subst; discriminate Hcap|].
    apply truthy_true. exact Hc. }
  destruct (truthy (eh_find_obj_result o "*libasound.so*")) eqn:Heh;
    destruct (truthy capture_enabled0) eqn:Hcap;
    try rewrite (Hhook eq_refl) in *.
  all: eexists; split;
    [ run_start; change (truthy 0) with false; run_start;
      rewrite Hl; cbn [negb]; run_start;
      rewrite Heh; run_start; rewrite Hcap; run_start;
      try rewrite (Hhook eq_refl); cbn [negb]; run_start;
      rewrite start_capture_streams_result; run_start; reflexivity |].
  all: cbn [alsa started capture_enabled capture_stream audio_hook trace].
  all: repeat (split; [reflexivity|]).
  all: (split; [quiet_trace; rewrite filter_capture_init_calls; reflexivity|]).
  all: (split; [intros H;
                first [ reflexivity
                      | unfold truthy in Hcap;
                        destruct (Z.eqb_spec capture_enabled0 0);
                        [contradiction | discriminate Hcap] ]|]).
  all: unfold alsa_start, bind, get; cbn [alsa started];
    change (truthy 1) with true; reflexivity.
Qed.


Lemma alsa_start_opens_streams_witness :
  exists w',
    alsa_start (sample_oracle 64 0 0) 7
      (mkWorld (with_capture_stream (parse_loop (Some "hw:1,48000,2") [])
                                    (with_capture_enabled 1 alsa0))
               1 (mkLib 11 12 13) 0 [])
    = Done 0 w'
    /\ map capture (capture_stream (alsa w')) = [901]
    /\ filter is_capture_init (trace w')
       = [EvAudioCaptureInit 7 "hw:1" 48000 2].
Proof.
  destruct (alsa_start_opens_streams (sample_oracle 64 0 0) 7
              (mkWorld (with_capture_stream
                          (parse_loop (Some "hw:1,48000,2") [])
                          (with_capture_enabled 1 alsa0))
                       1 (mkLib 11 12 13) 0 []))
    as (w' & E & _ & _ & Hs & Ht & _);
    [reflexivity | discriminate | right; discriminate |].
  exists w'. split; [exact E|]. rewrite Hs, Ht. split; reflexivity.
Defined.



(** ** What get_real_alsa stores *)

Lemma resolves_true (o : oracle) :
  resolves o = true ->
  truthy (dlopen_result o "libasound.so") = true
  /\ truthy (dlsym_result o (dlopen_result o "libasound.so") "snd_pcm_open") = true
  /\ truthy (dlsym_result o (dlopen_result o "libasound.so") "snd_pcm_writei") = true
  /\ truthy (dlsym_result o (dlopen_result o "libasound.so") "snd_pcm_writen") = true
  /\ truthy (dlsym_result o (dlopen_result o "libasound.so") "snd_pcm_mmap_begin") = true
  /\ truthy (dlsym_result o (dlopen_result o "libasound.so") "snd_pcm_mmap_commit") = true.
Proof.
  unfold resolves. cbn [forallb libasound_symbols]. intros H.
  repeat (apply andb_true_iff in H as [? H]). repeat split; assumption.
Qed.

(** The fields of [alsa] that a successful [get_real_alsa] leaves: the
    handle of the library and the five addresses, beside what was there. *)
Definition resolved (o : oracle) (a : alsa_private_s) : alsa_private_s :=
  let handle := dlopen_result o "libasound.so" in
  mkAlsa (started a) (capture_enabled a) (audio_hook a) (capture_stream a)
         handle
         (dlsym_result o handle "snd_pcm_open")
         (dlsym_result o handle "snd_pcm_writei")
         (dlsym_result o handle "snd_pcm_writen")
         (dlsym_result o handle "snd_pcm_mmap_begin")
         (dlsym_result o handle "snd_pcm_mmap_commit").

(** The raw resolver is asked for only when [lib.dlopen] is not set. *)
Definition resolver_after (o : oracle) (w : world) : lib_private_s :=
  if truthy (lib_dlopen (lib w)) then lib w else raw_resolver o.

Lemma get_real_alsa_success (o : oracle) (w : world) :
  alsa_loaded w = 0 -> resolves o = true ->
  exists t',
    get_real_alsa o w
    = Done tt (mkWorld (resolved o (alsa w)) 1 (resolver_after o w)
                       (glc_flags w) t')
    /\ filter is_rebind t' = filter is_rebind (trace w).
Proof.
  intros H0 Hr. apply truthy_false in H0.
  destruct (resolves_true o Hr) as (R0 & R1 & R2 & R3 & R4 & R5).
  destruct w as [a loaded l flags t]. destruct a.
  cbn [alsa_loaded] in H0. unfold resolver_after, resolved.
  cbn [lib alsa glc_flags trace started capture_enabled audio_hook
       capture_stream].
  run. split_truthy; run; rewrite H0; cbn [negb].
  all: repeat (split_truthy; run); try congruence.
  all: eexists; split; [reflexivity|].
  all: rewrite !filter_app; cbn [filter is_rebind]; rewrite !app_nil_r;
    reflexivity.
Qed.

(** On a process that has not resolved them yet, and in which the library
    and its symbols can be found, [get_real_alsa] stores the handle
    [dlopen] returned and, for each entry point, the address [dlsym]
    returned for its name with that handle; it changes no other field, and
    what [alsa_unhook_so] then rebinds in a matching object are those very
    addresses, with the resolver's own [dlsym] and [dlvsym]. *)
Theorem get_real_alsa_caches (o : oracle) (w : world) (soname : string) :
  alsa_loaded w = 0 -> resolves o = true ->
  (exists w', get_real_alsa o w = Done tt w'
              /\ alsa w' = resolved o (alsa w)
              /\ alsa_loaded w' = 1
              /\ glc_flags w' = glc_flags w)
  /\ (eh_find_obj_result o soname = 0 ->
      exists w', alsa_unhook_so o soname w = Done 0 w'
                 /\ alsa w' = resolved o (alsa w)
                 /\ rebinds w'
                    = (rebinds w
                       ++ let h := dlopen_result o "libasound.so" in
                          [EvEhSetRel "snd_pcm_writei"
                                      (dlsym_result o h "snd_pcm_writei");
                           EvEhSetRel "snd_pcm_writen"
                                      (dlsym_result o h "snd_pcm_writen");
                           EvEhSetRel "snd_pcm_mmap_begin"
                                      (dlsym_result o h "snd_pcm_mmap_begin");
                           EvEhSetRel "snd_pcm_mmap_commit"
                                      (dlsym_result o h "snd_pcm_mmap_commit");
                           EvEhSetRel "dlsym" (lib_dlsym (resolver_after o w));
                           EvEhSetRel "dlvsym" (lib_dlvsym (resolver_after o w))])%list).
Proof.
  intros H0 Hr. destruct (get_real_alsa_success o w H0 Hr) as (t' & E & Hreb).
  split.
  - eexists. split; [exact E|]. auto.
  - intros Hfound. rewrite alsa_unhook_so_unfold, (truthy_false _ H0).
    cbn [negb]. rewrite E.
    unfold unhook_found, bind, emit, get, ret.
    cbn [alsa alsa_loaded lib glc_flags trace].
    rewrite Hfound. change (truthy 0) with false. cbv iota.
    eexists. split; [reflexivity|]. split; [reflexivity|].
    unfold rebinds. cbn [trace]. rewrite !filter_app.
    cbn [filter is_rebind]. rewrite Hreb, <- !app_assoc. cbn [app].
    reflexivity.
Qed.

Lemma get_real_alsa_caches_witness :
  exists w', get_real_alsa (sample_oracle 64 0 0) world0 = Done tt w'
             /\ snd_pcm_writei (alsa w') = 114
             /\ snd_pcm_mmap_commit (alsa w') = 119.
Proof.
  destruct (get_real_alsa_caches (sample_oracle 64 0 0) world0 "x"
              eq_refl eq_refl) as [(w' & E & Ha & _) _].
  exists w'. split; [exact E|]. rewrite Ha. split; reflexivity.
Defined.

(** When the library itself cannot be opened, no symbol is looked up: the
    only lookup is the [dlopen], the last thing done is the message on
    stderr, and the process exits with status 1, [alsa_loaded] still
    clear. *)
Theorem get_real_alsa_no_library (o : oracle) (w : world) :
  alsa_loaded w = 0 -> dlopen_result o "libasound.so" = 0 ->
  exists w',
    get_real_alsa o w = Exit 1 w'
    /\ alsa_loaded w' = 0
    /\ lookups w' = (lookups w ++ [EvDlopen "libasound.so" RTLD_LAZY])%list
    /\ exists t0,
         trace w' = (t0 ++ [EvDlopen "libasound.so" RTLD_LAZY;
                            EvStderr "(glc:alsa) can't get real alsa"])%list.
Proof.
  intros H0 Hd. apply truthy_false in Hd.
  destruct w as [a loaded l flags t]. destruct a. cbn [alsa_loaded] in H0.
  subst loaded.
  run. split_truthy; run; change (truthy 0) with false; cbv iota; run;
    rewrite Hd; cbn [negb]; run.
  all: eexists; split; [reflexivity|].
  all: split; [reflexivity|].
  all: split; [unfold lookups; cbn [trace]; rewrite !filter_app;
               cbn [filter is_lookup]; rewrite ?app_nil_r; reflexivity|].
  all: cbn [trace].
  - exists t. rewrite <- app_assoc. reflexivity.
  - exists (t ++ [EvGetRealDlsym])%list. rewrite <- app_assoc. reflexivity.
Qed.

Lemma get_real_alsa_no_library_witness :
  exists w',
    get_real_alsa (sample_oracle 0 0 0) world0 = Exit 1 w'
    /\ lookups w' = [EvDlopen "libasound.so" RTLD_LAZY].
Proof.
  destruct (get_real_alsa_no_library (sample_oracle 0 0 0) world0
              eq_refl eq_refl) as (w' & E & _ & L & _).
  exists w'. split; [exact E | exact L].
Defined.

(** ** alsa_init *)

(** Capture is enabled unless GLC_AUDIO says otherwise. *)
Definition capture_setting (getenv : string -> option string) : Z :=
  match getenv "GLC_AUDIO" with
  | Some v => atoi v
  | None => 1
  end.

(** GLC_AUDIO_SKIP is set to a number other than zero. *)
Definition asks_skip (getenv : string -> option string) : bool :=
  match getenv "GLC_AUDIO_SKIP" with
  | Some v => truthy (atoi v)
  | None => false
  end.

(** The world [alsa_init] is in when it calls [get_real_alsa]. *)
Definition init_state (getenv : string -> option string) (w : world) : world :=
  mkWorld (with_capture_stream (parse_loop (getenv "GLC_AUDIO_RECORD") [])
             (with_capture_enabled (capture_setting getenv)
                (with_started 0 (alsa w))))
          (alsa_loaded w) (lib w)
          (if asks_skip getenv then Z.lor (glc_flags w) GLC_AUDIO_ALLOW_SKIP
           else glc_flags w)
          (trace w ++ [EvUtilLog GLC_DEBUG "alsa" "initializing" []]).

Lemma alsa_init_unfold (getenv : string -> option string) (o : oracle)
      (w : world) :
  alsa_init getenv o w
  = match get_real_alsa o (init_state getenv w) with
    | Done _ w' => Done 0 w'
    | Exit status w' => Exit status w'
    end.
Proof.
  destruct w as [a loaded l flags t]. destruct a.
  unfold alsa_init, init_state, capture_setting, asks_skip.
  destruct (getenv "GLC_AUDIO"), (getenv "GLC_AUDIO_SKIP") as [v|],
           (getenv "GLC_AUDIO_RECORD");
    try destruct (truthy (atoi v));
    reflexivity.
Qed.

(** [alsa_init] starts from scratch: whatever [alsa] held, [started] is
    cleared and the list of capture streams is the one parsed from
    GLC_AUDIO_RECORD alone (empty without it); capture is enabled unless
    GLC_AUDIO says otherwise; the session flags gain AUDIO_ALLOW_SKIP when
    GLC_AUDIO_SKIP asks for it and lose nothing.  It returns 0 when the real
    functions are or can be resolved, and takes the process down with
    status 1 when they cannot. *)
Theorem alsa_init_result (getenv : string -> option string) (o : oracle)
        (w : world) :
  (alsa_loaded w <> 0 \/ resolves o = true ->
   exists w',
     alsa_init getenv o w = Done 0 w'
     /\ started (alsa w') = 0
     /\ capture_enabled (alsa w') = capture_setting getenv
     /\ capture_stream (alsa w') = parse_loop (getenv "GLC_AUDIO_RECORD") []
     /\ audio_hook (alsa w') = audio_hook (alsa w)
     /\ glc_flags w'
        = (if asks_skip getenv then Z.lor (glc_flags w) GLC_AUDIO_ALLOW_SKIP
           else glc_flags w)
     /\ Z.land (glc_flags w') (glc_flags w) = glc_flags w
     /\ alsa_loaded w' <> 0)
  /\ (alsa_loaded w = 0 -> resolves o = false ->
      exists w', alsa_init getenv o w = Exit 1 w').
Proof.
  rewrite alsa_init_unfold.
  assert (Hflags : Z.land (if asks_skip getenv
                           then Z.lor (glc_flags w) GLC_AUDIO_ALLOW_SKIP
                           else glc_flags w) (glc_flags w) = glc_flags w).
  { destruct (asks_skip getenv); [|apply Z.land_diag].
    apply Z.bits_inj'. intros n Hn. rewrite Z.land_spec, Z.lor_spec.
    destruct (Z.testbit (glc_flags w) n); cbn [orb andb];
      [reflexivity | apply andb_false_r]. }
  split.
  - intros Hres. destruct (Z.eq_dec (alsa_loaded w) 0) as [H0|Hl].
    + destruct Hres as [Hl|Hr]; [contradiction|].
      destruct (get_real_alsa_success o (init_state getenv w) H0 Hr)
        as (t' & E & _).
      rewrite E. eexists. split; [reflexivity|].
      cbn [alsa alsa_loaded glc_flags init_state resolved started
           capture_enabled capture_stream audio_hook with_capture_stream
           with_capture_enabled with_started].
      repeat (split; [reflexivity|]). split; [exact Hflags | discriminate].
    + destruct (get_real_alsa_loaded o (init_state getenv w) Hl)
        as (w' & E & Ha & Hld & _).
      rewrite E. exists w'. split; [reflexivity|]. rewrite Ha, Hld.
      assert (Hf : glc_flags w' = glc_flags (init_state getenv w)).
      { revert E. destruct w as [a loaded l flags t]. destruct a.
        unfold init_state.
        cbn [alsa alsa_loaded lib glc_flags trace with_capture_stream
             with_capture_enabled with_started started capture_enabled
             audio_hook capture_stream libasound_handle snd_pcm_open
             snd_pcm_writei snd_pcm_writen snd_pcm_mmap_begin
             snd_pcm_mmap_commit] in *.
        apply truthy_true in Hl. run.
        destruct (truthy (lib_dlopen l)); run; rewrite Hl;
          intros [= <-]; reflexivity. }
      rewrite Hf.
      cbn [alsa alsa_loaded glc_flags init_state started
           capture_enabled capture_stream audio_hook with_capture_stream
           with_capture_enabled with_started].
      repeat (split; [reflexivity|]). split; [exact Hflags | exact Hl].
  - intros H0 Hr.
    destruct (get_real_alsa_first o (init_state getenv w) H0)
      as (l & _ & _ & _ & _ & _ & Hfail).
    destruct (Hfail Hr) as (w' & E). rewrite E. eauto.
Qed.

Lemma alsa_init_result_witness :
  (exists w',
     alsa_init (fun name => if String.eqb name "GLC_AUDIO_RECORD"
                            then Some "hw:1,48000,2" else None)
               (sample_oracle 64 0 0)
               (mkWorld (with_started 1 alsa0) 0 (mkLib 0 0 0) 0 [])
     = Done 0 w'
     /\ started (alsa w') = 0
     /\ capture_enabled (alsa w') = 1
     /\ map endpoint_of (capture_stream (alsa w')) = [("hw:1", 48000, 2)])
  /\ exists w', alsa_init (fun _ => None) (sample_oracle 0 0 0) world0
                = Exit 1 w'.
Proof.
  split.
  - destruct (alsa_init_result
                (fun name => if String.eqb name "GLC_AUDIO_RECORD"
                             then Some "hw:1,48000,2" else None)
                (sample_oracle 64 0 0)
                (mkWorld (with_started 1 alsa0) 0 (mkLib 0 0 0) 0 []))
      as [H _].
    destruct (H (or_intror eq_refl)) as (w' & E & Hs & Hc & Hl & _).
    exists w'. split; [exact E|]. split; [exact Hs|].
    split; [exact Hc|]. rewrite Hl. reflexivity.
  - apply (alsa_init_result (fun _ => None) (sample_oracle 0 0 0) world0);
      reflexivity.
Defined.

(** ** alsa_pause, alsa_resume, alsa_close *)

Lemma pause_streams_live (streams : list alsa_capture_stream_s) :
  pause_streams streams = map CallAudioCapturePause (live_handles streams).
Proof.
  unfold live_handles. induction streams as [|s rest IH]; [reflexivity|].
  cbn [pause_streams map filter]. rewrite IH.
  destruct (truthy (capture s)); reflexivity.
Qed.

Lemma resume_streams_live (streams : list alsa_capture_stream_s) :
  resume_streams streams = map CallAudioCaptureResume (live_handles streams).
Proof.
  unfold live_handles. induction streams as [|s rest IH]; [reflexivity|].
  cbn [resume_streams map filter]. rewrite IH.
  destruct (truthy (capture s)); reflexivity.
Qed.

Lemma parsed_handles_null (device : option string) :
  live_handles (parse_loop device []) = [].
Proof.
  assert (HF : Forall (fun s => capture s = 0) (parse_loop device [])).
  { apply parse_loop_Forall; [|constructor].
    intros d. unfold parse_endpoint.
    destruct (scan_args (strstr d ",")). reflexivity. }
  unfold live_handles. induction HF as [|s l Hs _ IH]; [reflexivity|].
  cbn [map filter]. rewrite Hs. exact IH.
Qed.

(** [alsa_pause] and [alsa_resume] return 0 and forward the operation to
    the streams that have a capture handle, once each and in list order,
    whether [alsa_start] has run or not.  On the list the parser left, which
    has no handle yet, they call nothing; after [alsa_start] they reach
    every stream whose [audio_capture_init] gave a handle. *)
Theorem pause_resume_reach_live_streams (a : alsa_private_s) :
  alsa_pause a
  = (0, map CallAudioCapturePause (live_handles (capture_stream a)))
  /\ alsa_resume a
     = (0, map CallAudioCaptureResume (live_handles (capture_stream a)))
  /\ (forall cfg, capture_stream a = parse_loop cfg [] ->
                  alsa_pause a = (0, []) /\ alsa_resume a = (0, []))
  /\ (forall o streams,
         capture_stream a = map (opened o) streams ->
         live_handles (capture_stream a)
         = filter truthy
             (map (fun s => audio_capture_init_result
                              o (Heap.c_string (device s)) (rate s)
                              (channels s)) streams)).
Proof.
  unfold alsa_pause, alsa_resume.
  rewrite pause_streams_live, resume_streams_live.
  split; [reflexivity|]. split; [reflexivity|]. split.
  - intros cfg ->. rewrite parsed_handles_null. split; reflexivity.
  - intros o streams ->. unfold live_handles. rewrite map_map. reflexivity.
Qed.

(** The capture handles closed, and the device buffers freed, by a run of
    calls. *)
Definition closed_handles (calls : list lifecycle_call) : list Z :=
  flat_map (fun c => match c with
                     | CallAudioCaptureClose h => [h]
                     | _ => []
                     end) calls.

Definition freed_devices (calls : list lifecycle_call) : list Heap.block :=
  flat_map (fun c => match c with
                     | CallFreeDevice b => [b]
                     | _ => []
                     end) calls.

Definition hook_closes (calls : list lifecycle_call) : list Z :=
  flat_map (fun c => match c with
                     | CallAudioHookClose h => [h]
                     | _ => []
                     end) calls.

Lemma close_streams_calls (streams : list alsa_capture_stream_s) :
  closed_handles (close_streams streams) = live_handles streams
  /\ freed_devices (close_streams streams) = map device streams
  /\ hook_closes (close_streams streams) = [].
Proof.
  unfold closed_handles, freed_devices, hook_closes, live_handles.
  induction streams as [|s rest (IH1 & IH2 & IH3)]; [auto|].
  cbn [close_streams map filter].
  rewrite !flat_map_app. cbn [flat_map app].
  rewrite IH1, IH2, IH3.
  destruct (truthy (capture s)); cbn [flat_map app]; auto.
Qed.

(** Before [alsa_start] has succeeded, [alsa_close] does nothing at all:
    the nodes the parser built stay in the list.  After it, [alsa_close]
    returns 0 with the list empty: the capture of every stream that has a
    handle was closed, every device buffer was freed once, and the audio
    hook was closed when capture is enabled.  [started] is left set, so
    that a second [alsa_close] closes the audio hook a second time, and
    finds no stream. *)
Theorem alsa_close_releases (a : alsa_private_s) :
  (started a = 0 -> alsa_close a = (0, a, []))
  /\ (started a <> 0 ->
      exists a' calls,
        alsa_close a = (0, a', calls)
        /\ capture_stream a' = []
        /\ started a' = started a
        /\ closed_handles calls = live_handles (capture_stream a)
        /\ freed_devices calls = map device (capture_stream a)
        /\ hook_closes calls
           = (if truthy (capture_enabled a) then [audio_hook a] else [])
        /\ exists calls',
            alsa_close a' = (0, a', calls')
            /\ hook_closes calls' = hook_closes calls
            /\ closed_handles calls' = []
            /\ freed_devices calls' = []).
Proof.
  unfold alsa_close. split.
  - intros ->. reflexivity.
  - intros Hs. rewrite (truthy_true _ Hs). cbn [negb].
    destruct (close_streams_calls (capture_stream a)) as (H1 & H2 & H3).
    do 2 eexists. split; [reflexivity|].
    cbn [with_capture_stream capture_stream started capture_enabled
         audio_hook].
    rewrite (truthy_true _ Hs). cbn [negb close_streams].
    split; [reflexivity|]. split; [reflexivity|].
    unfold closed_handles, freed_devices, hook_closes in *.
    rewrite !flat_map_app, H1, H2, H3.
    destruct (truthy (capture_enabled a)); cbn [flat_map app];
      repeat (split; [reflexivity|]);
      eexists; (split; [reflexivity|]); rewrite ?app_nil_r;
      repeat split; reflexivity.
Qed.

Lemma alsa_close_releases_witness :
  alsa_close (with_capture_stream (parse_loop (Some "hw:0") []) alsa0)
  = (0, with_capture_stream (parse_loop (Some "hw:0") []) alsa0, [])
  /\ exists a' calls,
      alsa_close (with_started 1
                    (with_capture_stream
                       (map (opened (sample_oracle 64 0 0))
                            (parse_loop (Some "hw:0") []))
                       (with_capture_enabled 1 alsa0)))
      = (0, a', calls)
      /\ capture_stream a' = []
      /\ closed_handles calls = [901]
      /\ hook_closes calls = [0].
Proof.
  split.
  - apply (alsa_close_releases
             (with_capture_stream (parse_loop (Some "hw:0") []) alsa0)).
    reflexivity.
  - destruct (alsa_close_releases
                (with_started 1
                   (with_capture_stream
                      (map (opened (sample_oracle 64 0 0))
                           (parse_loop (Some "hw:0") []))
                      (with_capture_enabled 1 alsa0)))) as [_ H].
    destruct H as (a' & calls & E & Hl & _ & Hc & _ & Hh & _);
      [cbn; lia|].
    exists a', calls. split; [exact E|]. split; [exact Hl|].
    rewrite Hc, Hh. split; reflexivity.
Defined.

Lemma pause_resume_reach_live_streams_witness :
  alsa_pause (with_capture_stream (parse_loop (Some "hw:0;hw:1") []) alsa0)
  = (0, []).
Proof.
  destruct (pause_resume_reach_live_streams
              (with_capture_stream (parse_loop (Some "hw:0;hw:1") []) alsa0))
    as (_ & _ & H & _).
  apply (H (Some "hw:0;hw:1")). reflexivity.
Defined.

End AlsaLifecycle.

(** * More on the intercepted entry points *)
Module HookFacts.

Import Alsa AlsaFacts.

Ltac run_hook' :=
  cbv [call_hooked __alsa_snd_pcm_writei __alsa_snd_pcm_writen
       __alsa_snd_pcm_mmap_begin __alsa_snd_pcm_mmap_commit
       bind ret get emit];
  cbn [alsa alsa_loaded lib glc_flags trace fst snd].

(** Capture is enabled and the session is capturing. *)
Definition capturing (w : world) : bool :=
  truthy (capture_enabled (alsa w)) && has_flag (glc_flags w) GLC_CAPTURE.

(** An entry point returns exactly when INIT_GLC does (the process is gone
    when INIT_GLC exits), and it then leaves [alsa], [alsa_loaded], [lib]
    and the session flags as INIT_GLC left them: all it adds is calls. *)
Theorem hooked_call_keeps_state (INIT_GLC : M unit) (o : oracle)
        (c : hooked_call) (w : world) :
  (forall w1, INIT_GLC w = Done tt w1 ->
     exists r w2 evs,
       call_hooked INIT_GLC o c w = Done r w2
       /\ alsa w2 = alsa w1 /\ alsa_loaded w2 = alsa_loaded w1
       /\ lib w2 = lib w1 /\ glc_flags w2 = glc_flags w1
       /\ trace w2 = (trace w1 ++ evs)%list)
  /\ (forall status w1, INIT_GLC w = Exit status w1 ->
        call_hooked INIT_GLC o c w = Exit status w1).
Proof.
  split.
  - intros w1 Hinit.
    destruct c as [pcm buffer size | pcm bufs size
                   | pcm frames_in | pcm offset frames];
      run_hook'; rewrite Hinit; cbn [alsa glc_flags trace].
    + destruct (truthy (capture_enabled (alsa w1)) && (0 <? real_writei o pcm buffer size)
                && has_flag (glc_flags w1) GLC_CAPTURE)%bool;
        cbn [alsa alsa_loaded lib glc_flags trace];
        rewrite <- ?app_assoc; do 3 eexists; repeat split; reflexivity.
    + destruct (truthy (capture_enabled (alsa w1)) && (0 <? real_writen o pcm bufs size)
                && has_flag (glc_flags w1) GLC_CAPTURE)%bool;
        cbn [alsa alsa_loaded lib glc_flags trace];
        rewrite <- ?app_assoc; do 3 eexists; repeat split; reflexivity.
    + destruct (real_mmap_begin o pcm frames_in) as [r [[areas offset] frames]].
      cbn [alsa glc_flags trace].
      destruct (truthy (capture_enabled (alsa w1)) && (0 <=? r)
                && has_flag (glc_flags w1) GLC_CAPTURE)%bool;
        cbn [alsa alsa_loaded lib glc_flags trace fst];
        rewrite <- ?app_assoc; do 3 eexists; repeat split; reflexivity.
    + destruct (truthy (capture_enabled (alsa w1))
                && has_flag (glc_flags w1) GLC_CAPTURE)%bool;
        cbn [alsa alsa_loaded lib glc_flags trace];
        destruct (to_unsigned_long (real_mmap_commit o pcm offset frames) =? frames);
        cbn [negb alsa alsa_loaded lib glc_flags trace];
        rewrite <- ?app_assoc; do 3 eexists; repeat split; reflexivity.
  - intros status w1 Hinit.
    destruct c; run_hook'; rewrite Hinit; reflexivity.
Qed.

Lemma hooked_call_keeps_state_witness :
  exists r w2 evs,
    call_hooked (ret tt) (sample_oracle 64 0 64) (Writei 5 6 64) capturing_world
    = Done r w2
    /\ alsa w2 = alsa capturing_world
    /\ trace w2 = evs.
Proof.
  destruct (hooked_call_keeps_state (ret tt) (sample_oracle 64 0 64)
              (Writei 5 6 64) capturing_world) as [H _].
  destruct (H capturing_world eq_refl) as (r & w2 & evs & E & Ha & _ & _ & _ & T).
  exists r, w2, evs. split; [exact E|]. split; [exact Ha | exact T].
Defined.

(** While capturing, what the write hooks hand on is what the real call
    reported, not what the host asked for: [snd_pcm_writei] and
    [snd_pcm_writen] emit once with the number of frames the real call
    returned when that is positive, and emit nothing when it returned 0 or
    an error; [snd_pcm_mmap_begin] emits once with the area, offset and
    frame count the real call stored when it returned 0 or more, and
    nothing on an error. *)
Theorem hooks_pass_what_the_real_call_reported (INIT_GLC : M unit)
        (o : oracle) (w w1 : world) (pcm buf size : Z) :
  INIT_GLC w = Done tt w1 ->
  capturing w1 = true ->
  (exists w2,
     __alsa_snd_pcm_writei INIT_GLC o pcm buf size w
     = Done (real_writei o pcm buf size) w2
     /\ trace w2
        = (trace w1
           ++ EvRealWritei (snd_pcm_writei (alsa w1)) pcm buf size
           :: (if 0 <? real_writei o pcm buf size
               then [EvHookAlsaI (audio_hook (alsa w1)) pcm buf
                                 (real_writei o pcm buf size)]
               else []))%list)
  /\ (exists w2,
        __alsa_snd_pcm_writen INIT_GLC o pcm buf size w
        = Done (real_writen o pcm buf size) w2
        /\ trace w2
           = (trace w1
              ++ EvRealWriten (snd_pcm_writen (alsa w1)) pcm buf size
              :: (if 0 <? real_writen o pcm buf size
                  then [EvHookAlsaN (audio_hook (alsa w1)) pcm buf
                                    (real_writen o pcm buf size)]
                  else []))%list)
  /\ (exists w2,
        __alsa_snd_pcm_mmap_begin INIT_GLC o pcm size w
        = Done (real_mmap_begin o pcm size) w2
        /\ trace w2
           = (trace w1
              ++ EvRealMmapBegin (snd_pcm_mmap_begin (alsa w1)) pcm
              :: (let '(r, (areas, offset, frames)) :=
                      real_mmap_begin o pcm size in
                  if 0 <=? r
                  then [EvHookMmapBegin (audio_hook (alsa w1)) pcm
                                        areas offset frames]
                  else []))%list).
Proof.
  intros Hinit Hcap. unfold capturing in Hcap.
  apply andb_true_iff in Hcap as [Hc Hf].
  split; [|split]; run_hook'; rewrite Hinit; cbn [alsa glc_flags trace];
    rewrite ?Hc, ?Hf.
  - destruct (0 <? real_writei o pcm buf size); cbn [andb trace];
      rewrite <- ?app_assoc; eexists; split; reflexivity.
  - destruct (0 <? real_writen o pcm buf size); cbn [andb trace];
      rewrite <- ?app_assoc; eexists; split; reflexivity.
  - destruct (real_mmap_begin o pcm size) as [r [[areas offset] frames]].
    cbn [alsa glc_flags trace]. rewrite Hc, Hf.
    destruct (0 <=? r); cbn [andb trace];
      rewrite <- ?app_assoc; eexists; split; reflexivity.
Qed.

Lemma hooks_pass_what_the_real_call_reported_witness :
  exists w2,
    __alsa_snd_pcm_writei (ret tt)
      (mkOracle (mkLib 11 12 13) (fun _ => 64) (fun _ _ => 100) (fun _ => 0)
                900 (fun _ _ _ => 901) (fun _ _ _ => 48) (fun _ _ size => size)
                (fun _ frames => (0, (700, 0, frames))) (fun _ _ _ => 0))
      5 6 64 capturing_world
    = Done 48 w2
    /\ trace w2 = [EvRealWritei 114 5 6 64; EvHookAlsaI 900 5 6 48].
Proof.
  destruct (hooks_pass_what_the_real_call_reported (ret tt)
              (mkOracle (mkLib 11 12 13) (fun _ => 64) (fun _ _ => 100)
                        (fun _ => 0) 900 (fun _ _ _ => 901) (fun _ _ _ => 48)
                        (fun _ _ size => size)
                        (fun _ frames => (0, (700, 0, frames)))
                        (fun _ _ _ => 0))
              capturing_world capturing_world 5 6 64 eq_refl eq_refl)
    as [(w2 & E & T) _].
  exists w2. split; [exact E | exact T].
Defined.

Definition is_warning (e : event) : bool :=
  match e with EvUtilLog GLC_WARNING _ _ _ => true | _ => false end.

Lemma unsigned_long_eq (r frames : Z) :
  0 <= frames < 2 ^ 63 -> - 2 ^ 63 <= r < 2 ^ 63 ->
  (to_unsigned_long r =? frames) = (r =? frames).
Proof.
  intros Hf Hr. unfold to_unsigned_long.
  destruct (Z.neg_nonneg_cases r) as [N|N].
  - rewrite <- (Z.mod_add r 1) by lia. rewrite Z.mod_small by lia.
    destruct (Z.eqb_spec (r + 1 * 2 ^ 64) frames),
             (Z.eqb_spec r frames); try reflexivity; lia.
  - rewrite Z.mod_small by lia. reflexivity.
Qed.

(** [snd_pcm_mmap_commit] hands the host the real return value in every
    case.  When that value differs from the number of frames asked for, be
    it a short commit or an error, exactly one warning is logged, and it is
    the last thing done; when they agree nothing is logged.  The emission,
    made while capturing, carries the number of frames asked for, whatever
    is committed. *)
Theorem mmap_commit_mismatch_logged (INIT_GLC : M unit) (o : oracle)
        (w w1 : world) (pcm offset frames : Z) :
  INIT_GLC w = Done tt w1 ->
  0 <= frames < 2 ^ 63 ->
  - 2 ^ 63 <= real_mmap_commit o pcm offset frames < 2 ^ 63 ->
  exists w2 evs,
    __alsa_snd_pcm_mmap_commit INIT_GLC o pcm offset frames w
    = Done (real_mmap_commit o pcm offset frames) w2
    /\ trace w2 = (trace w1 ++ evs)%list
    /\ filter is_emission evs
       = (if capturing w1
          then [EvHookMmapCommit (audio_hook (alsa w1)) pcm offset frames]
          else [])
    /\ (real_mmap_commit o pcm offset frames <> frames ->
        exists before,
          evs = (before
                 ++ [EvUtilLog GLC_WARNING "alsa" "frames=%lu, ret=%ld"
                       [frames;
                        to_unsigned_long (real_mmap_commit o pcm offset frames)]])%list
          /\ filter is_warning before = [])
    /\ (real_mmap_commit o pcm offset frames = frames ->
        filter is_warning evs = []).
Proof.
  intros Hinit Hf Hr. run_hook'. rewrite Hinit.
  cbn [alsa glc_flags trace]. rewrite (long_round_trip _ Hr).
  rewrite (unsigned_long_eq _ _ Hf Hr). unfold capturing.
  destruct (truthy (capture_enabled (alsa w1))
            && has_flag (glc_flags w1) GLC_CAPTURE)%bool;
    cbn [alsa glc_flags trace];
    destruct (Z.eqb_spec (real_mmap_commit o pcm offset frames) frames) as [E|E];
    cbn [negb trace]; rewrite <- ?app_assoc; cbn [app];
    do 2 eexists; (split; [reflexivity|]); (split; [reflexivity|]);
    (split; [reflexivity|]); split; intros H; try contradiction;
    try reflexivity.
  - exists [EvHookMmapCommit (audio_hook (alsa w1)) pcm offset frames;
            EvRealMmapCommit (snd_pcm_mmap_commit (alsa w1)) pcm offset frames].
    split; reflexivity.
  - exists [EvRealMmapCommit (snd_pcm_mmap_commit (alsa w1)) pcm offset frames].
    split; reflexivity.
Qed.

Lemma mmap_commit_mismatch_logged_witness :
  exists w2 evs,
    __alsa_snd_pcm_mmap_commit (ret tt) (sample_oracle 64 0 48) 5 0 64
                               capturing_world
    = Done 48 w2
    /\ trace w2 = evs
    /\ filter is_emission evs = [EvHookMmapCommit 900 5 0 64]
    /\ filter is_warning evs
       = [EvUtilLog GLC_WARNING "alsa" "frames=%lu, ret=%ld" [64; 48]].
Proof.
  destruct (mmap_commit_mismatch_logged (ret tt) (sample_oracle 64 0 48)
              capturing_world capturing_world 5 0 64 eq_refl)
    as (w2 & evs & E & T & He & Hlog & _); [lia | cbn; lia |].
  destruct Hlog as (before & Hb & Hq); [cbn; lia|].
  exists w2, evs. split; [exact E|]. split; [exact T|]. split; [exact He|].
  rewrite Hb, filter_app, Hq. reflexivity.
Defined.

End HookFacts.

(** * More on the playback engine *)
Module GlPlayMore.

Import GlPlay GlPlayFacts.

(** ** X events *)

Lemma land_lor_absorb (x m : Z) : Z.land (Z.lor x m) m = m.
Proof.
  apply Z.bits_inj'. intros n Hn. rewrite Z.land_spec, Z.lor_spec.
  destruct (Z.testbit x n), (Z.testbit m n); reflexivity.
Qed.

Lemma land_lor_keeps (x m : Z) : Z.land (Z.lor x m) x = x.
Proof.
  apply Z.bits_inj'. intros n Hn. rewrite Z.land_spec, Z.lor_spec.
  destruct (Z.testbit x n), (Z.testbit m n); reflexivity.
Qed.

Lemma has_flag_set (x m : Z) : m <> 0 -> has_flag (Z.lor x m) m = true.
Proof.
  intros H. unfold has_flag. rewrite land_lor_absorb.
  apply Z.eqb_neq in H. rewrite H. reflexivity.
Qed.

Lemma has_flag_kept (x m k : Z) :
  has_flag x k = true -> has_flag (Z.lor x m) k = true.
Proof.
  unfold has_flag. intros H. apply negb_true_iff, Z.eqb_neq in H.
  apply negb_true_iff, Z.eqb_neq. intros E. apply H.
  rewrite Z.land_lor_distr_l in E. apply Z.lor_eq_0_iff in E. tauto.
Qed.

(** [s'] has every flag [s] has, in the session and in the thread state. *)
Definition flags_kept (s s' : world) : Prop :=
  Z.land (glc_flags s') (glc_flags s) = glc_flags s
  /\ Z.land (state_flags s') (state_flags s) = state_flags s.

Lemma flags_kept_refl s : flags_kept s s.
Proof. split; apply Z.land_diag. Qed.

Lemma flags_kept_trans s1 s2 s3 :
  flags_kept s1 s2 -> flags_kept s2 s3 -> flags_kept s1 s3.
Proof.
  intros [A1 A2] [B1 B2]. split.
  - rewrite <- A1 at 1. rewrite Z.land_assoc, B1. exact A1.
  - rewrite <- A2 at 1. rewrite Z.land_assoc, B2. exact A2.
Qed.

Lemma handle_xevent_flags STOP o e s :
  flags_kept s (snd (handle_xevent STOP o e s)).
Proof.
  destruct e as [code|code| |mt d0|cw ch|]; run.
  - destruct (code =? XK_Right); split; cbn; apply Z.land_diag.
  - destruct (code =? XK_Escape); split; cbn;
      first [apply Z.land_diag | apply land_lor_keeps].
  - split; cbn; [apply Z.land_diag | apply land_lor_keeps].
  - destruct ((mt =? wm_proto_atom (gl_play s))
              && (d0 =? delete_atom (gl_play s)))%bool; split; cbn;
      first [apply Z.land_diag | apply land_lor_keeps].
  - destruct (truthy (texture (gl_play s))); split; cbn; apply Z.land_diag.
  - split; cbn; apply Z.land_diag.
Qed.

Lemma drain_flags STOP o events :
  forall s, flags_kept s (snd (drain STOP o events s)).
Proof.
  induction events as [|e rest IH]; intros s; cbn [drain].
  - apply flags_kept_refl.
  - unfold bind.
    pose proof (handle_xevent_flags STOP o e s) as H1.
    destruct (handle_xevent STOP o e s) as [u s1]. cbn [snd] in H1.
    eapply flags_kept_trans; [exact H1 | apply IH].
Qed.

Lemma flags_kept_has (s s' : world) (k : Z) :
  flags_kept s s' ->
  (has_flag (glc_flags s) k = true -> has_flag (glc_flags s') k = true)
  /\ (has_flag (state_flags s) k = true -> has_flag (state_flags s') k = true).
Proof.
  intros [A B]. unfold has_flag.
  split; intros H; apply negb_true_iff, Z.eqb_neq in H;
    apply negb_true_iff, Z.eqb_neq; intros E; apply H.
  - rewrite <- A, (Z.land_comm (glc_flags s')), <- Z.land_assoc,
      (Z.land_comm (glc_flags s')), Z.land_assoc.
    rewrite (Z.land_comm (glc_flags s)), <- Z.land_assoc.
    rewrite (Z.land_comm (glc_flags s)), Z.land_assoc.
    rewrite (Z.land_comm k), E. apply Z.land_0_l.
  - rewrite <- B, (Z.land_comm (state_flags s')), <- Z.land_assoc,
      (Z.land_comm (state_flags s')), Z.land_assoc.
    rewrite (Z.land_comm (state_flags s)), <- Z.land_assoc.
    rewrite (Z.land_comm (state_flags s)), Z.land_assoc.
    rewrite (Z.land_comm k), E. apply Z.land_0_l.
Qed.

Lemma drained_flags STOP o s : flags_kept s (drained STOP o s).
Proof.
  unfold drained, gl_handle_xevents, bind.
  pose proof (drain_flags STOP o (pending o) s) as H.
  destruct (drain STOP o (pending o) s) as [u s1]. exact H.
Qed.

Lemma drain_stop_kept STOP o events s :
  stopped STOP s = true -> stopped STOP (snd (drain STOP o events s)) = true.
Proof.
  unfold stopped. apply (flags_kept_has s _ STOP). apply drain_flags.
Qed.

(** A request to stop among the events: the window was destroyed, or the
    window manager asked for it to be closed. *)
Definition asks_stop (g : gl_play_private_s) (e : XEvent) : bool :=
  match e with
  | DestroyNotify => true
  | ClientMessage message_type data0 =>
      (message_type =? wm_proto_atom g) && (data0 =? delete_atom g)
  | _ => false
  end.

Lemma handle_xevent_stop STOP o e s :
  STOP <> 0 -> asks_stop (gl_play s) e = true ->
  stopped STOP (snd (handle_xevent STOP o e s)) = true.
Proof.
  intros HS He. destruct e as [code|code| |mt d0|cw ch|];
    try discriminate He; run.
  - cbn. unfold stopped. cbn. apply has_flag_set. exact HS.
  - cbn [asks_stop] in He. rewrite He. cbn. unfold stopped. cbn.
    apply has_flag_set. exact HS.
Qed.

Lemma asks_stop_same (g g' : gl_play_private_s) (e : XEvent) :
  delete_atom g' = delete_atom g -> wm_proto_atom g' = wm_proto_atom g ->
  asks_stop g' e = asks_stop g e.
Proof. intros H1 H2. destruct e; cbn; rewrite ?H1, ?H2; reflexivity. Qed.

Lemma drain_stop STOP o events :
  forall s, STOP <> 0 ->
            existsb (asks_stop (gl_play s)) events = true ->
            stopped STOP (snd (drain STOP o events s)) = true.
Proof.
  induction events as [|e rest IH]; intros s HS Hex; [discriminate Hex|].
  cbn [existsb] in Hex. cbn [drain]. unfold bind.
  pose proof (handle_xevent_housekeeping STOP o e s)
    as (_ & _ & _ & _ & _ & _ & _ & Hd & Hp & _).
  pose proof (handle_xevent_stop STOP o e s HS) as Hset.
  destruct (handle_xevent STOP o e s) as [u s1]. cbn [snd] in *.
  destruct (asks_stop (gl_play s) e) eqn:He.
  - apply drain_stop_kept. auto.
  - cbn [orb] in Hex. apply IH; [exact HS|].
    rewrite <- Hex.
    clear - Hd Hp. induction rest as [|x xs IHx]; [reflexivity|].
    cbn [existsb]. rewrite IHx, (asks_stop_same _ _ x Hd Hp). reflexivity.
Qed.

(** A worker that was told to stop, or that finds among the pending events
    that its window was destroyed or is asked to close, handles the events
    and returns 0 without looking at the message: the stop flag is set on
    return, and nothing is drawn, swapped or printed, whatever the
    message. *)
Theorem stop_skips_message (STOP : Z) (o : oracle) (s : world) (msg : message) :
  STOP <> 0 ->
  stopped STOP s = true
  \/ existsb (asks_stop (gl_play s)) (pending o) = true ->
  gl_play_read_callback STOP o msg s = (0, drained STOP o s)
  /\ stopped STOP (drained STOP o s) = true
  /\ exists evs, trace (drained STOP o s) = (trace s ++ evs)%list
                 /\ Forall (fun e => is_housekeeping e = true) evs.
Proof.
  intros HS Hstop.
  assert (Hd : stopped STOP (drained STOP o s) = true).
  { unfold drained, gl_handle_xevents, bind.
    destruct Hstop as [H|H].
    - pose proof (drain_stop_kept STOP o (pending o) s H) as H1.
      destruct (drain STOP o (pending o) s). exact H1.
    - pose proof (drain_stop STOP o (pending o) s HS H) as H1.
      destruct (drain STOP o (pending o) s). exact H1. }
  split; [|split; [exact Hd|]].
  - rewrite read_callback_unfold. enter. rewrite Hd. reflexivity.
  - destruct (drained_housekeeping STOP o s)
      as (_ & _ & _ & _ & _ & _ & _ & _ & _ & H). exact H.
Qed.

Lemma stop_skips_message_witness :
  gl_play_read_callback 8 (mkOracle [KeyPress XK_Right; DestroyNotify]
                                    70 80 31 32 5 1000)
                        (MsgPicture (mkPicHdr 500 1) 12) (world_active 1)
  = (0, drained 8 (mkOracle [KeyPress XK_Right; DestroyNotify]
                            70 80 31 32 5 1000) (world_active 1)).
Proof.
  apply (stop_skips_message 8 (mkOracle [KeyPress XK_Right; DestroyNotify]
                                        70 80 31 32 5 1000)
                            (world_active 1) (MsgPicture (mkPicHdr 500 1) 12));
    [lia | right; reflexivity].
Defined.

Ltac step_world :=
  let E := fresh "E" in
  intros E; apply (f_equal snd) in E; cbn [snd] in E; rewrite <- E.

(** Handling the X events never clears a flag, in the session or in the
    thread state; releasing Escape sets CANCELLED in the session flags,
    and without such an event the session flags are as they were. *)
Theorem xevents_only_set_flags (STOP : Z) (o : oracle) (s : world) :
  Z.land (glc_flags (drained STOP o s)) (glc_flags s) = glc_flags s
  /\ Z.land (state_flags (drained STOP o s)) (state_flags s) = state_flags s
  /\ (In (KeyRelease XK_Escape) (pending o) ->
      has_flag (glc_flags (drained STOP o s)) GLC_CANCEL = true)
  /\ (~ In (KeyRelease XK_Escape) (pending o) ->
      glc_flags (drained STOP o s) = glc_flags s).
Proof.
  destruct (drained_flags STOP o s) as [H1 H2].
  split; [exact H1|]. split; [exact H2|].
  unfold drained, gl_handle_xevents, bind.
  assert (H : forall events s0,
             (In (KeyRelease XK_Escape) events ->
              has_flag (glc_flags (snd (drain STOP o events s0))) GLC_CANCEL
              = true)
             /\ (~ In (KeyRelease XK_Escape) events ->
                 glc_flags (snd (drain STOP o events s0)) = glc_flags s0)).
  { induction events as [|e rest IH]; intros s0.
    - split; [intros []|reflexivity].
    - cbn [drain]. unfold bind.
      pose proof (handle_xevent_flags STOP o e s0) as Hk.
      destruct (handle_xevent STOP o e s0) as [u s1] eqn:Es1.
      cbn [snd] in Hk. destruct (IH s1) as [IHin IHout]. split.
      + intros [->|Hin].
        * pose proof (drain_flags STOP o rest s1) as Hrest.
          apply (flags_kept_has s1 _ GLC_CANCEL Hrest).
          revert Es1. run. change (XK_Escape =? XK_Escape) with true.
          cbv iota. step_world. cbn [glc_flags].
          apply has_flag_set. discriminate.
        * apply IHin. exact Hin.
      + intros Hnot. rewrite IHout by (intros Hin; apply Hnot; right; exact Hin).
        assert (He : e <> KeyRelease XK_Escape)
          by (intros ->; apply Hnot; left; reflexivity).
        revert Es1. destruct e as [code|code| |mt d0|cw ch|]; run.
        * destruct (code =? XK_Right); step_world; reflexivity.
        * destruct (Z.eqb_spec code XK_Escape) as [->|N];
            [congruence | step_world; reflexivity].
        * step_world; reflexivity.
        * destruct ((mt =? wm_proto_atom (gl_play s0))
                    && (d0 =? delete_atom (gl_play s0)))%bool;
            step_world; reflexivity.
        * destruct (truthy (texture (gl_play s0))); step_world; reflexivity.
        * step_world; reflexivity. }
  destruct (H (pending o) s) as [Hin Hout].
  destruct (drain STOP o (pending o) s) as [u s1]. cbn [snd] in *.
  split; assumption.
Qed.

Lemma xevents_only_set_flags_witness :
  has_flag (glc_flags (drained 8 (mkOracle [KeyRelease XK_Escape]
                                           70 80 31 32 5 1000)
                               (world_active 1))) GLC_CANCEL = true.
Proof.
  apply (xevents_only_set_flags 8 (mkOracle [KeyRelease XK_Escape]
                                            70 80 31 32 5 1000)
                                (world_active 1)).
  left. reflexivity.
Defined.

(** ** Messages the engine rejects or ignores *)

(** A CTX message for the engine's own context whose flags name neither
    BGR with CREATE nor BGR with UPDATE is refused with EINVAL after one
    line on stderr; no window call is made and [created] is as it was, but
    the width and height of the message have already replaced the
    engine's. *)
Theorem unsupported_ctx_refused (STOP : Z) (o : oracle) (s : world)
        (m : glc_ctx_message_t) :
  stopped STOP (drained STOP o s) = false ->
  msg_ctx m = ctx_i (gl_play s) ->
  has_flag (msg_flags m) GLC_CTX_BGR = false
  \/ (has_flag (msg_flags m) GLC_CTX_CREATE = false
      /\ has_flag (msg_flags m) GLC_CTX_UPDATE = false) ->
  exists s' line,
    gl_play_read_callback STOP o (MsgCtx m) s = (EINVAL, s')
    /\ gl_play s' = with_size (msg_w m) (msg_h m) (gl_play (drained STOP o s))
    /\ created (gl_play s') = created (gl_play s)
    /\ trace s' = (trace (drained STOP o s) ++ [EvStderr line])%list.
Proof.
  intros Hs He Hflags. rewrite read_callback_unfold.
  destruct (drained_housekeeping STOP o s) as (Hctx & Hcr & _).
  enter. rewrite Hs, Hctx, (eqb_refl_neg _ _ He).
  assert (E1 : (has_flag (msg_flags m) GLC_CTX_BGR
                && has_flag (msg_flags m) GLC_CTX_CREATE)%bool = false).
  { destruct Hflags as [->|[-> _]]; [reflexivity | apply andb_false_r]. }
  assert (E2 : (has_flag (msg_flags m) GLC_CTX_BGR
                && has_flag (msg_flags m) GLC_CTX_UPDATE)%bool = false).
  { destruct Hflags as [->|[_ ->]]; [reflexivity | apply andb_false_r]. }
  rewrite E1, E2. run.
  do 2 eexists. split; [reflexivity|]. cbn [gl_play trace].
  split; [reflexivity|]. split; [exact Hcr | reflexivity].
Qed.

Lemma unsupported_ctx_refused_witness :
  exists s' line,
    gl_play_read_callback 8 (sample_oracle 80 1000)
      (MsgCtx (mkCtxMsg (Z.lor GLC_CTX_CREATE 8) 1 320 200)) (world_active 1)
    = (EINVAL, s')
    /\ w (gl_play s') = 320 /\ h (gl_play s') = 200
    /\ trace s' = [EvStderr line].
Proof.
  destruct (unsupported_ctx_refused 8 (sample_oracle 80 1000) (world_active 1)
              (mkCtxMsg (Z.lor GLC_CTX_CREATE 8) 1 320 200))
    as (s' & line & E & Hg & _ & T); [reflexivity | reflexivity
                                      | left; reflexivity |].
  exists s', line. split; [exact E|]. rewrite Hg. repeat split. exact T.
Defined.

(** A CTX message for another context, and a message of any kind other
    than CTX and PICTURE, are ignored: the callback returns 0 and nothing
    has happened but the handling of the X events. *)
Theorem foreign_messages_ignored (STOP : Z) (o : oracle) (s : world) :
  (forall m, msg_ctx m <> ctx_i (gl_play s) ->
             gl_play_read_callback STOP o (MsgCtx m) s = (0, drained STOP o s))
  /\ (forall type,
        gl_play_read_callback STOP o (MsgOther type) s = (0, drained STOP o s)).
Proof.
  destruct (drained_housekeeping STOP o s) as (Hctx & _).
  split.
  - intros m Hne. rewrite read_callback_unfold. enter.
    rewrite Hctx, (eqb_neq_neg _ _ Hne).
    destruct (stopped STOP (drained STOP o s)); reflexivity.
  - intros type. rewrite read_callback_unfold. enter.
    destruct (stopped STOP (drained STOP o s)); reflexivity.
Qed.

Lemma foreign_messages_ignored_witness :
  gl_play_read_callback 8 (sample_oracle 80 1000)
    (MsgCtx (mkCtxMsg (Z.lor GLC_CTX_CREATE GLC_CTX_BGR) 2 320 200))
    (world_init 1)
  = (0, drained 8 (sample_oracle 80 1000) (world_init 1)).
Proof.
  apply (foreign_messages_ignored 8 (sample_oracle 80 1000) (world_init 1)).
  cbn. lia.
Defined.

(** ** What the callback can return, and what it keeps *)

Lemma truthy_cases (x : Z) :
  (truthy x = true /\ x <> 0) \/ (truthy x = false /\ x = 0).
Proof.
  unfold truthy. destruct (Z.eqb_spec x 0); [right | left]; auto.
Qed.

Lemma update_ctx_keeps (o : oracle) (s : world) :
  let r := gl_play_update_ctx o s in
  (fst r = 0 \/ fst r = EINVAL)
  /\ ctx_i (gl_play (snd r)) = ctx_i (gl_play s)
  /\ created (gl_play (snd r)) = created (gl_play s)
  /\ (created (gl_play s) <> 0 -> fst r = 0).
Proof.
  destruct s as [g gf sf t]. destruct g. run_ctx.
  destruct (truthy_cases created0) as [[Hc Hn]|[Hc Hn]];
    rewrite Hc; cbn [negb]; run_ctx.
  - destruct (truthy texture0); cbn [negb]; run_ctx;
      (split; [left; reflexivity|]); (split; [reflexivity|]);
      (split; [reflexivity|]); intros _; reflexivity.
  - split; [right; reflexivity|]. split; [reflexivity|].
    split; [reflexivity|]. intros Hx. contradiction.
Qed.

Lemma create_ctx_keeps (o : oracle) (s : world) :
  let r := gl_play_create_ctx o s in
  ctx_i (gl_play (snd r)) = ctx_i (gl_play s)
  /\ (created (gl_play s) <> 0 -> created (gl_play (snd r)) <> 0)
  /\ (glXCreateContext_result o <> 0 ->
      fst r = 0 /\ created (gl_play (snd r)) = 1).
Proof.
  destruct s as [g gf sf t]. destruct g. run_ctx.
  destruct (truthy_cases (glXCreateContext_result o)) as [[Hx Hn]|[Hx Hn]];
    rewrite Hx; cbn [negb]; run_ctx.
  - change (truthy 1) with true. cbn [negb]. run_ctx.
    destruct (truthy texture0); cbn [negb]; run_ctx;
      (split; [reflexivity|]); (split; [intros _; discriminate|]);
      intros _; split; reflexivity.
  - split; [reflexivity|]. split; [intros Hc; exact Hc|].
    intros Hc. contradiction.
Qed.

(** What the callback keeps of the engine state [s] in its result [r]:
    the return value is 0 or EINVAL, the context number is the same, and
    a set [created] stays set. *)
Definition callback_keeps (s : world) (r : Z * world) : Prop :=
  (fst r = 0 \/ fst r = EINVAL)
  /\ ctx_i (gl_play (snd r)) = ctx_i (gl_play s)
  /\ (created (gl_play s) <> 0 -> created (gl_play (snd r)) <> 0).

Lemma read_callback_keeps STOP o msg s :
  callback_keeps s (gl_play_read_callback STOP o msg s).
Proof.
  rewrite read_callback_unfold.
  destruct (drained_housekeeping STOP o s) as (Hctx & Hcr & _).
  assert (Hd : forall r, callback_keeps (drained STOP o s) r ->
                         callback_keeps s r).
  { unfold callback_keeps. rewrite Hctx, Hcr. auto. }
  apply Hd. clear Hd Hctx Hcr. generalize (drained STOP o s). intros d. enter.
  destruct (stopped STOP d); [repeat split; cbn; auto|].
  destruct msg as [m|hdr pixels|ty].
  - destruct (negb (msg_ctx m =? ctx_i (gl_play d)));
      [repeat split; cbn; auto|].
    unfold bind at 1. unfold modify at 1. cbv beta iota.
    set (sized := mkWorld _ _ _ _).
    assert (Hk : forall r, callback_keeps sized r -> callback_keeps d r)
      by (intros r Hr; exact Hr).
    apply Hk. clear Hk. generalize sized. clear sized d. intros d.
    pose proof (create_ctx_keeps o d) as (C1 & C2 & _).
    pose proof (update_ctx_keeps o d) as (U0 & U1 & U2 & _).
    destruct (has_flag (msg_flags m) GLC_CTX_BGR
              && has_flag (msg_flags m) GLC_CTX_CREATE)%bool.
    + unfold bind, ret. destruct (gl_play_create_ctx o d) as [r0 s0].
      cbn [fst snd] in *. repeat split; cbn [fst snd]; auto.
    + destruct (has_flag (msg_flags m) GLC_CTX_BGR
                && has_flag (msg_flags m) GLC_CTX_UPDATE)%bool.
      * unfold bind at 1. destruct (gl_play_update_ctx o d) as [r0 s0].
        cbn [fst snd] in *. destruct (truthy r0); run;
          repeat split; cbn [fst snd gl_play]; auto; rewrite U2; auto.
      * run. repeat split; cbn [fst snd gl_play]; auto.
  - destruct (negb (pic_ctx hdr =? ctx_i (gl_play d)));
      [repeat split; cbn; auto|].
    destruct (negb (truthy (created (gl_play d))));
      [run; repeat split; cbn; auto|].
    run.
    destruct (timestamp hdr >? util_timestamp_result o);
      [repeat split; cbn; auto|].
    destruct (util_timestamp_result o >? u64 (timestamp hdr + fps (gl_play d)));
      repeat split; cbn; auto.
  - repeat split; cbn; auto.
Qed.

(** The callback returns 0 or EINVAL and nothing else: the EAGAIN of a
    failed creation never comes out.  It keeps the context number and the
    frame interval of the engine, and once [created] is set it stays
    set. *)
Theorem read_callback_codes_and_invariants (STOP : Z) (o : oracle)
        (msg : message) (s : world) :
  let r := gl_play_read_callback STOP o msg s in
  (fst r = 0 \/ fst r = EINVAL)
  /\ ctx_i (gl_play (snd r)) = ctx_i (gl_play s)
  /\ fps (gl_play (snd r)) = fps (gl_play s)
  /\ (created (gl_play s) <> 0 -> created (gl_play (snd r)) <> 0).
Proof.
  cbv zeta.
  destruct (read_callback_keeps STOP o msg s) as (H1 & H2 & H3).
  repeat split; auto. apply read_callback_keeps_fps.
Qed.


Lemma read_callback_codes_and_invariants_witness :
  created (gl_play (snd (gl_play_read_callback 8 (sample_oracle 80 1000)
                           (MsgCtx (mkCtxMsg (Z.lor GLC_CTX_CREATE GLC_CTX_BGR)
                                             1 320 200))
                           (world_active 1)))) <> 0.
Proof.
  apply (read_callback_codes_and_invariants 8 (sample_oracle 80 1000)
           (MsgCtx (mkCtxMsg (Z.lor GLC_CTX_CREATE GLC_CTX_BGR) 1 320 200))
           (world_active 1)).
  cbn. lia.
Defined.

(** ** From CREATE to the first picture *)

(** The engine [gl_play_create_ctx] leaves for [g] when the context could
    be created. *)
Definition created_engine (o : oracle) (g : gl_play_private_s)
  : gl_play_private_s :=
  mkGlPlay (ctx_i g) (format g) (w g) (h g) (last g) (fps g)
           (XCreateWindow_result o) (glXCreateContext_result o)
           ("glc-play (ctx " ++ decimal (ctx_i g) ++ ")") 1
           (if truthy (texture g) then texture g else glGenTextures_result o)
           (delete_atom_id o) (wm_proto_atom_id o) (cancel g).

Definition is_window_creation (e : event) : bool :=
  match e with EvCreateWindow _ _ => true | _ => false end.

Lemma create_ctx_success (o : oracle) (s : world) :
  glXCreateContext_result o <> 0 ->
  exists evs,
    gl_play_create_ctx o s
    = (0, mkWorld (created_engine o (gl_play s)) (glc_flags s) (state_flags s)
                  (trace s ++ evs))
    /\ filter is_render evs = []
    /\ filter is_window_creation evs
       = [EvCreateWindow (w (gl_play s)) (h (gl_play s))].
Proof.
  intros Hx. apply truthy_true_play in Hx.
  destruct s as [g gf sf t]. destruct g. unfold created_engine.
  run_ctx. rewrite Hx. cbn [negb]. run_ctx.
  change (truthy 1) with true. cbn [negb]. run_ctx.
  destruct (truthy texture0); cbn [negb]; run_ctx;
    rewrite <- !app_assoc; cbn [app];
    eexists; (split; [reflexivity|]); split; reflexivity.
Qed.

Lemma filter_nothing {A : Type} (f : A -> bool) (l : list A) :
  Forall (fun x => f x = false) l -> filter f l = [].
Proof.
  induction 1 as [|x l Hx _ IH]; [reflexivity|].
  cbn [filter]. rewrite Hx. exact IH.
Qed.

Lemma housekeeping_not_window e :
  is_housekeeping e = true -> is_window_creation e = false.
Proof. destruct e; cbn; intros H; try discriminate H; reflexivity. Qed.

(** The texture, once there is one, is the engine's for good: handling X
    events generates one only when there is none. *)
Lemma handle_xevent_texture STOP o e s :
  texture (gl_play s) <> 0 ->
  texture (gl_play (snd (handle_xevent STOP o e s))) = texture (gl_play s).
Proof.
  intros Ht. apply truthy_true_play in Ht.
  destruct e as [code|code| |mt d0|cw ch|]; run.
  - destruct (code =? XK_Right); reflexivity.
  - destruct (code =? XK_Escape); reflexivity.
  - reflexivity.
  - destruct ((mt =? wm_proto_atom (gl_play s))
              && (d0 =? delete_atom (gl_play s)))%bool; reflexivity.
  - rewrite Ht. reflexivity.
  - reflexivity.
Qed.

Lemma drain_texture STOP o events :
  forall s, texture (gl_play s) <> 0 ->
            texture (gl_play (snd (drain STOP o events s)))
            = texture (gl_play s).
Proof.
  induction events as [|e rest IH]; intros s Ht; [reflexivity|].
  cbn [drain]. unfold bind.
  pose proof (handle_xevent_texture STOP o e s Ht) as H1.
  destruct (handle_xevent STOP o e s) as [u s1]. cbn [snd] in H1.
  rewrite IH by congruence. exact H1.
Qed.

Lemma drained_texture STOP o s :
  texture (gl_play s) <> 0 ->
  texture (gl_play (drained STOP o s)) = texture (gl_play s).
Proof.
  intros Ht. unfold drained, gl_handle_xevents, bind.
  pose proof (drain_texture STOP o (pending o) s Ht) as H.
  destruct (drain STOP o (pending o) s) as [u s1]. exact H.
Qed.

(** A PICTURE message for the engine's own, created context, handled by a
    worker that has not been told to stop, is drawn once, with the
    engine's texture and size, and is swapped, if at all, on the engine's
    window. *)
Lemma picture_drawn STOP o s hdr pixels :
  stopped STOP (drained STOP o s) = false ->
  pic_ctx hdr = ctx_i (gl_play s) ->
  created (gl_play s) <> 0 ->
  exists s' evs,
    gl_play_read_callback STOP o (MsgPicture hdr pixels) s = (0, s')
    /\ trace s' = (trace s ++ evs)%list
    /\ filter is_render evs
       = [EvDrawPicture (texture (gl_play (drained STOP o s)))
                        (to_int (w (gl_play s))) (to_int (h (gl_play s)))
                        pixels]
    /\ Forall (fun e => is_swap e = true
                        -> e = EvSwapBuffers (drawable (gl_play s))) evs.
Proof.
  intros Hs He Hc. rewrite read_callback_unfold.
  destruct (drained_housekeeping STOP o s)
    as (Hctx & Hcr & _ & Hw & Hh & Hd & _ & _ & _ & hk & Ht & Hk).
  assert (Hr : filter is_render hk = []).
  { apply filter_nothing. eapply Forall_impl; [|exact Hk].
    intros e H. apply housekeeping_not_render in H. tauto. }
  assert (Hq : Forall (fun e => is_swap e = true
                                -> e = EvSwapBuffers (drawable (gl_play s)))
                      hk).
  { eapply Forall_impl; [|exact Hk].
    intros e H. apply housekeeping_not_render in H.
    destruct H as (_ & H & _). rewrite H. discriminate. }
  enter. rewrite Hs, Hctx, Hcr, (eqb_refl_neg _ _ He).
  rewrite (truthy_true_play _ Hc). cbn [negb]. run.
  rewrite Hw, Hh, Hd, Ht.
  destruct (timestamp hdr >? util_timestamp_result o);
    [|destruct (util_timestamp_result o
                >? u64 (timestamp hdr + fps (gl_play (drained STOP o s))))];
    run; rewrite <- !app_assoc; cbn [app];
    do 2 eexists; (split; [reflexivity|]); (split; [reflexivity|]);
    rewrite filter_app, Hr; (split; [reflexivity|]);
    apply Forall_app; (split; [exact Hq|]);
    repeat constructor; cbn; intros; congruence.
Qed.

(** After a CREATE that succeeds, the engine is the one [created_engine]
    describes: it has the size of the message, the window and the context
    that were made, and a texture; one window was made, of that size.  A
    PICTURE message for the same context that follows, whatever X events
    come in between, is drawn once, with that texture and that size, and
    is swapped, if at all, on that window. *)
Theorem create_then_picture (STOP : Z) (o : oracle) (s : world)
        (m : glc_ctx_message_t) :
  stopped STOP (drained STOP o s) = false ->
  msg_ctx m = ctx_i (gl_play s) ->
  has_flag (msg_flags m) GLC_CTX_BGR = true ->
  has_flag (msg_flags m) GLC_CTX_CREATE = true ->
  glXCreateContext_result o <> 0 ->
  glGenTextures_result o <> 0 ->
  exists s1 tex,
    gl_play_read_callback STOP o (MsgCtx m) s = (0, s1)
    /\ gl_play s1
       = created_engine o (with_size (msg_w m) (msg_h m)
                                     (gl_play (drained STOP o s)))
    /\ tex = texture (gl_play s1) /\ tex <> 0
    /\ filter is_window_creation (trace s1)
       = (filter is_window_creation (trace s)
          ++ [EvCreateWindow (msg_w m) (msg_h m)])%list
    /\ forall (o2 : oracle) (hdr : glc_picture_header_t) (pixels : Z),
         pic_ctx hdr = msg_ctx m ->
         stopped STOP (drained STOP o2 s1) = false ->
         exists s2 evs,
           gl_play_read_callback STOP o2 (MsgPicture hdr pixels) s1 = (0, s2)
           /\ trace s2 = (trace s1 ++ evs)%list
           /\ filter is_render evs
              = [EvDrawPicture tex (to_int (msg_w m)) (to_int (msg_h m))
                               pixels]
           /\ Forall (fun e => is_swap e = true
                               -> e = EvSwapBuffers (XCreateWindow_result o))
                     evs.
Proof.
  intros Hs He Hb Hc Hx Hg.
  destruct (drained_housekeeping STOP o s)
    as (Hctx & _ & _ & _ & _ & _ & _ & _ & _ & hk & Ht & Hk).
  set (d := drained STOP o s) in *.
  set (sized := mkWorld (with_size (msg_w m) (msg_h m) (gl_play d))
                        (glc_flags d) (state_flags d) (trace d)).
  destruct (create_ctx_success o sized Hx) as (evs & E & _ & Hwin).
  assert (Hcall : gl_play_read_callback STOP o (MsgCtx m) s
                  = (0, mkWorld (created_engine o (gl_play sized))
                                (glc_flags sized) (state_flags sized)
                                (trace sized ++ evs))).
  { rewrite read_callback_unfold. fold d. enter.
    rewrite Hs, Hctx, (eqb_refl_neg _ _ He), Hb, Hc. cbn [andb].
    unfold bind at 1. unfold modify at 1. cbv beta iota. fold sized.
    unfold bind. rewrite E. reflexivity. }
  assert (Htex : texture (created_engine o (gl_play sized)) <> 0).
  { unfold created_engine. cbn [texture].
    destruct (truthy_cases (texture (gl_play sized))) as [[-> Hn]|[-> _]];
      assumption. }
  do 2 eexists. split; [exact Hcall|]. cbn [gl_play trace].
  split; [reflexivity|]. split; [reflexivity|]. split; [exact Htex|]. split.
  - unfold sized. cbn [trace]. rewrite Ht, !filter_app, Hwin.
    rewrite (filter_nothing is_window_creation hk), app_nil_r; [reflexivity|].
    eapply Forall_impl; [|exact Hk]. intros e. apply housekeeping_not_window.
  - intros o2 hdr pixels Hp Hs2.
    set (s1 := mkWorld (created_engine o (gl_play sized)) _ _ _) in *.
    destruct (picture_drawn STOP o2 s1 hdr pixels Hs2) as (s2 & evs2 & H).
    + rewrite Hp, He. unfold s1, sized, created_engine. cbn.
      symmetry. exact Hctx.
    + unfold s1, created_engine. cbn. discriminate.
    + exists s2, evs2. rewrite drained_texture in H by exact Htex.
      exact H.
Qed.

Lemma create_then_picture_witness :
  exists s1 s2,
    gl_play_read_callback 8 (sample_oracle 80 0)
      (MsgCtx (mkCtxMsg (Z.lor GLC_CTX_CREATE GLC_CTX_BGR) 1 320 200))
      (world_init 1) = (0, s1)
    /\ gl_play_read_callback 8 (sample_oracle 80 2000)
         (MsgPicture (mkPicHdr 1000 1) 12) s1 = (0, s2)
    /\ filter is_render (trace s2) = [EvDrawPicture 5 320 200 12].
Proof.
  destruct (create_then_picture 8 (sample_oracle 80 0) (world_init 1)
              (mkCtxMsg (Z.lor GLC_CTX_CREATE GLC_CTX_BGR) 1 320 200))
    as (s1 & tex & E1 & Hg & Htex & _ & _ & Hpic);
    [reflexivity | reflexivity | reflexivity | reflexivity
     | cbn; lia | cbn; lia |].
  assert (Es1 : s1 = snd (gl_play_read_callback 8 (sample_oracle 80 0)
                  (MsgCtx (mkCtxMsg (Z.lor GLC_CTX_CREATE GLC_CTX_BGR)
                                    1 320 200))
                  (world_init 1))) by (rewrite E1; reflexivity).
  destruct (Hpic (sample_oracle 80 2000) (mkPicHdr 1000 1) 12 eq_refl)
    as (s2 & evs & E2 & T & R & _).
  { rewrite Es1. reflexivity. }
  exists s1, s2. split; [exact E1|]. split; [exact E2|].
  rewrite T, filter_app, R, Htex, Hg, Es1. reflexivity.
Defined.

(** ** Updating twice *)

Definition is_gen_textures (e : event) : bool :=
  match e with EvGenTextures => true | _ => false end.

(** The engine [gl_play_update_ctx] leaves for a created [g], and the
    calls it makes. *)
Definition updated_engine (o : oracle) (g : gl_play_private_s)
  : gl_play_private_s :=
  with_texture (if truthy (texture g) then texture g
                else glGenTextures_result o)
    (with_name ("glc-play (ctx " ++ decimal (ctx_i g) ++ ")") g).

Definition update_calls (g : gl_play_private_s) : list event :=
  [EvUnmapWindow (drawable g);
   EvSetHints (drawable g) (to_int (w g)) (to_int (h g))
              ("glc-play (ctx " ++ decimal (ctx_i g) ++ ")");
   EvResizeWindow (drawable g) (w g) (h g);
   EvMapWindow (drawable g);
   EvMakeCurrent (drawable g) (ctx g);
   EvViewport (to_int (w g)) (to_int (h g))]
  ++ (if truthy (texture g) then [] else [EvGenTextures]).

Lemma update_ctx_created (o : oracle) (s : world) :
  created (gl_play s) <> 0 ->
  gl_play_update_ctx o s
  = (0, mkWorld (updated_engine o (gl_play s)) (glc_flags s) (state_flags s)
                (trace s ++ update_calls (gl_play s))).
Proof.
  intros Hc. apply truthy_true_play in Hc.
  destruct s as [g gf sf t]. destruct g.
  cbn [gl_play created] in Hc. unfold updated_engine, update_calls.
  run_ctx. rewrite Hc. cbn [negb]. run_ctx.
  destruct (truthy texture0); cbn [negb]; run_ctx;
    rewrite <- !app_assoc; reflexivity.
Qed.

(** On a created context [gl_play_update_ctx] returns 0 and leaves the
    engine with a texture; run again, it returns 0, leaves the engine
    exactly as it was and generates no texture, so that the texture is
    generated once, by the first update that finds none. *)
Theorem update_ctx_settles (o : oracle) (s : world) :
  let s1 := snd (gl_play_update_ctx o s) in
  let s2 := snd (gl_play_update_ctx o s1) in
  created (gl_play s) <> 0 ->
  glGenTextures_result o <> 0 ->
  fst (gl_play_update_ctx o s) = 0
  /\ fst (gl_play_update_ctx o s1) = 0
  /\ texture (gl_play s1) <> 0
  /\ gl_play s2 = gl_play s1
  /\ filter is_gen_textures (trace s1)
     = (filter is_gen_textures (trace s)
        ++ (if truthy (texture (gl_play s)) then [] else [EvGenTextures]))%list
  /\ filter is_gen_textures (trace s2) = filter is_gen_textures (trace s1).
Proof.
  intros s1 s2 Hc Hg.
  assert (E1 : gl_play_update_ctx o s
               = (0, mkWorld (updated_engine o (gl_play s)) (glc_flags s)
                             (state_flags s)
                             (trace s ++ update_calls (gl_play s))))
    by (apply update_ctx_created; exact Hc).
  assert (Hs1 : s1 = mkWorld (updated_engine o (gl_play s)) (glc_flags s)
                             (state_flags s)
                             (trace s ++ update_calls (gl_play s)))
    by (unfold s1; rewrite E1; reflexivity).
  assert (Htex : texture (gl_play s1) <> 0).
  { rewrite Hs1. cbn [gl_play]. unfold updated_engine. cbn [with_texture texture].
    destruct (truthy_cases (texture (gl_play s))) as [[-> Hn]|[-> _]];
      assumption. }
  assert (Hc1 : created (gl_play s1) <> 0).
  { rewrite Hs1. destruct s as [g gf sf t]. destruct g. exact Hc. }
  assert (E2 : gl_play_update_ctx o s1
               = (0, mkWorld (updated_engine o (gl_play s1)) (glc_flags s1)
                             (state_flags s1)
                             (trace s1 ++ update_calls (gl_play s1))))
    by (apply update_ctx_created; exact Hc1).
  assert (Hsame : updated_engine o (gl_play s1) = gl_play s1).
  { pose proof (truthy_true_play _ Htex) as Ht. revert Ht. rewrite Hs1.
    destruct s as [g gf sf t]. destruct g. unfold updated_engine.
    cbn [gl_play with_texture with_name texture ctx_i format w h last fps
         drawable ctx name created delete_atom wm_proto_atom cancel].
    intros ->. reflexivity. }
  rewrite E1. split; [reflexivity|]. rewrite E2. split; [reflexivity|].
  split; [exact Htex|]. unfold s2. rewrite E2. cbn [snd gl_play trace].
  split; [exact Hsame|]. split.
  - rewrite Hs1. cbn [trace]. rewrite filter_app. unfold update_calls.
    rewrite filter_app. cbn [filter is_gen_textures app].
    destruct (truthy (texture (gl_play s))); reflexivity.
  - rewrite filter_app. unfold update_calls. rewrite filter_app.
    rewrite (truthy_true_play _ Htex). cbn [filter is_gen_textures app].
    apply app_nil_r.
Qed.

Lemma update_ctx_settles_witness :
  fst (gl_play_update_ctx (sample_oracle 80 0)
         (mkWorld (with_created 1 (gl_play_init_state 1)) 0 0 [])) = 0
  /\ filter is_gen_textures
       (trace (snd (gl_play_update_ctx (sample_oracle 80 0)
                      (snd (gl_play_update_ctx (sample_oracle 80 0)
                              (mkWorld (with_created 1 (gl_play_init_state 1))
                                       0 0 []))))))
     = [EvGenTextures].
Proof.
  destruct (update_ctx_settles (sample_oracle 80 0)
              (mkWorld (with_created 1 (gl_play_init_state 1)) 0 0 []))
    as (R1 & _ & _ & _ & G1 & G2); [cbn; lia | cbn; lia |].
  split; [exact R1|]. rewrite G2, G1. reflexivity.
Defined.

(** ** gl_play_finish_callback *)

(** The calls [gl_play_finish_callback] makes. *)
Inductive finish_call : Type :=
| CallStderr (line : string)
| CallDeleteTextures (texture : Z)
| CallDestroyContext (ctx : Z)
| CallDestroyWindow (drawable : Z)
| CallCloseDisplay
| CallSemPost
| CallFree.

(** [void gl_play_finish_callback(void *ptr, int err)]: the calls it makes,
    oldest first; [strerror] is the table of messages of the C library. *)
Definition gl_play_finish_callback (strerror : Z -> string)
           (g : gl_play_private_s) (err : Z) : list finish_call :=
  ((if truthy err
    then [CallStderr ("gl_play failed: " ++ strerror err ++ " ("
                        ++ decimal err ++ ")" ++ newline)]
    else [])
   ++ (if truthy (created g)
       then (if truthy (texture g) then [CallDeleteTextures (texture g)]
             else [])
            ++ [CallDestroyContext (ctx g); CallDestroyWindow (drawable g)]
       else [])
   ++ [CallCloseDisplay; CallSemPost; CallFree])%list.

Definition is_destroy (c : finish_call) : bool :=
  match c with
  | CallDestroyContext _ | CallDestroyWindow _ => true
  | _ => false
  end.

Lemma finish_destroys (strerror : Z -> string) (g : gl_play_private_s)
      (err : Z) :
  filter is_destroy (gl_play_finish_callback strerror g err)
  = if truthy (created g)
    then [CallDestroyContext (ctx g); CallDestroyWindow (drawable g)]
    else [].
Proof.
  unfold gl_play_finish_callback. rewrite !filter_app.
  destruct (truthy err), (truthy (created g)); try reflexivity;
    rewrite ?filter_app; destruct (truthy (texture g)); reflexivity.
Qed.

Lemma create_ctx_no_context (o : oracle) (s : world) :
  glXCreateContext_result o = 0 ->
  exists evs,
    gl_play_create_ctx o s
    = (EAGAIN, mkWorld (with_ctx 0 (with_drawable (XCreateWindow_result o)
                                                  (gl_play s)))
                       (glc_flags s) (state_flags s) (trace s ++ evs))
    /\ filter is_window_creation evs
       = [EvCreateWindow (w (gl_play s)) (h (gl_play s))].
Proof.
  intros Hx. destruct s as [g gf sf t]. destruct g.
  run_ctx. rewrite Hx. change (truthy 0) with false. cbn [negb].
  rewrite <- !app_assoc. cbn [app].
  eexists. split; [reflexivity|]. reflexivity.
Qed.

(** What the end of the worker releases of what a CREATE made.  A CREATE
    for the engine's own, not yet created context makes a window of the
    size of the message, whether the GL context can then be created or not.
    When it can, [gl_play_finish_callback] destroys that context and that
    window.  When it cannot, [created] stays clear and
    [gl_play_finish_callback] destroys nothing: the window that was made
    gets no [XDestroyWindow].  In both cases the display is closed, the
    semaphore posted and the engine freed, in that order, at the very
    end. *)
Theorem finish_after_create (STOP : Z) (o : oracle) (s : world)
        (m : glc_ctx_message_t) (strerror : Z -> string) (err : Z) :
  let s1 := snd (gl_play_read_callback STOP o (MsgCtx m) s) in
  let calls := gl_play_finish_callback strerror (gl_play s1) err in
  stopped STOP (drained STOP o s) = false ->
  msg_ctx m = ctx_i (gl_play s) ->
  has_flag (msg_flags m) GLC_CTX_BGR = true ->
  has_flag (msg_flags m) GLC_CTX_CREATE = true ->
  created (gl_play s) = 0 ->
  filter is_window_creation (trace s1)
  = (filter is_window_creation (trace s)
     ++ [EvCreateWindow (msg_w m) (msg_h m)])%list
  /\ (glXCreateContext_result o <> 0 ->
      filter is_destroy calls
      = [CallDestroyContext (glXCreateContext_result o);
         CallDestroyWindow (XCreateWindow_result o)])
  /\ (glXCreateContext_result o = 0 -> filter is_destroy calls = [])
  /\ exists before,
       calls = (before ++ [CallCloseDisplay; CallSemPost; CallFree])%list.
Proof.
  intros s1 calls Hs He Hb Hc Hcr.
  destruct (drained_housekeeping STOP o s)
    as (Hctx & Hcrd & _ & _ & _ & _ & _ & _ & _ & hk & Ht & Hk).
  set (d := drained STOP o s) in *.
  set (sized := mkWorld (with_size (msg_w m) (msg_h m) (gl_play d))
                        (glc_flags d) (state_flags d) (trace d)).
  assert (Hcall : gl_play_read_callback STOP o (MsgCtx m) s
                  = (0, snd (gl_play_create_ctx o sized))).
  { rewrite read_callback_unfold. fold d. enter.
    rewrite Hs, Hctx, (eqb_refl_neg _ _ He), Hb, Hc. cbn [andb].
    unfold bind at 1. unfold modify at 1. cbv beta iota. fold sized.
    unfold bind, ret. destruct (gl_play_create_ctx o sized). reflexivity. }
  assert (Hhk : filter is_window_creation hk = []).
  { apply filter_nothing. eapply Forall_impl; [|exact Hk].
    intros e. apply housekeeping_not_window. }
  assert (Hs1 : s1 = snd (gl_play_create_ctx o sized))
    by (unfold s1; rewrite Hcall; reflexivity).
  unfold calls. rewrite finish_destroys, Hs1.
  destruct (truthy_cases (glXCreateContext_result o)) as [[_ Hx]|[_ Hx]].
  - destruct (create_ctx_success o sized Hx) as (evs & E & _ & Hwin).
    rewrite E. cbn [snd gl_play trace]. unfold created_engine.
    cbn [created ctx drawable]. change (truthy 1) with true. cbv iota.
    split; [|split; [reflexivity|split; [contradiction|]]].
    + unfold sized. cbn [trace]. rewrite Ht, !filter_app, Hhk, Hwin.
      rewrite app_nil_r. reflexivity.
    + unfold gl_play_finish_callback. rewrite !app_assoc. eauto.
  - destruct (create_ctx_no_context o sized Hx) as (evs & E & Hwin).
    rewrite E. cbn [snd gl_play trace].
    assert (Hno : truthy (created (with_ctx 0
                    (with_drawable (XCreateWindow_result o) (gl_play sized))))
                  = false).
    { unfold sized. cbn [created with_ctx with_drawable with_size gl_play].
      rewrite Hcrd, Hcr. reflexivity. }
    rewrite Hno.
    split; [|split; [contradiction|split; [reflexivity|]]].
    + unfold sized. cbn [trace]. rewrite Ht, !filter_app, Hhk, Hwin.
      rewrite app_nil_r. reflexivity.
    + unfold gl_play_finish_callback. rewrite !app_assoc. eauto.
Qed.

Lemma finish_after_create_witness :
  filter is_destroy
    (gl_play_finish_callback (fun _ => "error")
       (gl_play (snd (gl_play_read_callback 8 (sample_oracle 0 0)
                        (MsgCtx (mkCtxMsg (Z.lor GLC_CTX_CREATE GLC_CTX_BGR)
                                          1 320 200))
                        (world_init 1)))) 0) = []
  /\ filter is_destroy
       (gl_play_finish_callback (fun _ => "error")
          (gl_play (snd (gl_play_read_callback 8 (sample_oracle 80 0)
                           (MsgCtx (mkCtxMsg (Z.lor GLC_CTX_CREATE GLC_CTX_BGR)
                                             1 320 200))
                           (world_init 1)))) 0)
     = [CallDestroyContext 80; CallDestroyWindow 70].
Proof.
  split.
  - destruct (finish_after_create 8 (sample_oracle 0 0) (world_init 1)
                (mkCtxMsg (Z.lor GLC_CTX_CREATE GLC_CTX_BGR) 1 320 200)
                (fun _ => "error") 0 eq_refl eq_refl eq_refl eq_refl eq_refl)
      as (_ & _ & H & _).
    apply H. reflexivity.
  - destruct (finish_after_create 8 (sample_oracle 80 0) (world_init 1)
                (mkCtxMsg (Z.lor GLC_CTX_CREATE GLC_CTX_BGR) 1 320 200)
                (fun _ => "error") 0 eq_refl eq_refl eq_refl eq_refl eq_refl)
      as (_ & H & _).
    apply H. cbn. lia.
Defined.
End GlPlayMore.
